(** * Automated frequency-response plotter: sweep loop and cutoff analysis

    A shallow embedding of [FrequencyResponseCapture.py] (instrument
    transport, initialisation, waveform capture, the frequency sweep with
    its retry policy, the CSV writer and the name of its file, [main] with
    its defaults) and of [interactivePlot.py] (the choice of the file, the
    CSV reader and the -3 dB cutoff search).

    Numbers.  Every quantity of the program is a Python [float].  The
    definitions are written once over an interface [Float] of the operations
    the program uses, with two instances: [binary64] (Rocq's primitive
    IEEE-754 doubles, the arithmetic the program runs on) and [exact]
    (rationals, the arithmetic the specification reasons in).  Facts about
    control flow are proved for every instance; facts that need the laws of
    an ordered field are proved for [exact]; facts that need only the order
    of the doubles are proved for [binary64] from the specification of the
    primitive floats; concrete runs are evaluated on [binary64].

    Environment.  The VISA session ([myScope] and [myScope.IO]), Python's
    [float()], [int()], [str()] and [format()] on floats and libm's [log10]
    are not code of the repository: they are parameters ([Visa], [VisaIO],
    [Builtins], [IntParser]).  The list of VISA resources, the lines of
    standard input, the clock and the content of the [Data] folder are
    arguments of the functions that read them.  Plotting itself, the binary
    block transfers ([do_query_ieee_block] and the like) and [save_setup],
    which no other function calls, are left out. *)

From Stdlib Require Import ZArith QArith Qabs Lqa Lia Bool List Sorted String Ascii.
From Stdlib Require Import Floats Uint63 DecimalString.
From Stdlib Require DecimalZ DecimalPos.
Import ListNotations.

Set Implicit Arguments.
Local Open Scope string_scope.

(* ================================================================== *)
(** ** Python floats *)
(* ================================================================== *)

(** The operations on [float] that the two scripts use.  [fdiv] is the
    quotient by a non-zero divisor; Python's check for a zero divisor is
    [py_div] below.  [of_Z] is the conversion of an [int] (and the reading
    of an integer literal). *)
Class Float (F : Type) : Type := {
  fadd : F -> F -> F;
  fsub : F -> F -> F;
  fmul : F -> F -> F;
  fdiv : F -> F -> F;
  fabs : F -> F;
  feqb : F -> F -> bool;
  fltb : F -> F -> bool;
  fleb : F -> F -> bool;
  of_Z : Z -> F
}.

Declare Scope pyfloat_scope.
Delimit Scope pyfloat_scope with py.
Infix "+" := fadd : pyfloat_scope.
Infix "-" := fsub : pyfloat_scope.
Infix "*" := fmul : pyfloat_scope.
Infix "/" := fdiv : pyfloat_scope.
Infix "==?" := feqb (at level 70) : pyfloat_scope.
Infix "<?" := fltb : pyfloat_scope.
Infix "<=?" := fleb : pyfloat_scope.
Notation "x >? y" := (fltb y x) (only parsing) : pyfloat_scope.

(** [exact]: rationals. *)
#[export] Instance exact : Float Q := {
  fadd := Qplus;
  fsub := Qminus;
  fmul := Qmult;
  fdiv := Qdiv;
  fabs := Qabs;
  feqb := Qeq_bool;
  fltb := fun x y => negb (Qle_bool y x);
  fleb := Qle_bool;
  of_Z := inject_Z
}.

(** [binary64]: IEEE-754 doubles.  An [int] below 2^63 in magnitude is
    converted by the primitive conversion of 63-bit integers. *)
Definition float_of_Z (z : Z) : float :=
  match z with
  | Z0 => PrimFloat.of_uint63 0
  | Zpos _ => PrimFloat.of_uint63 (Uint63.of_Z z)
  | Zneg p => PrimFloat.opp (PrimFloat.of_uint63 (Uint63.of_Z (Zpos p)))
  end.

#[export] Instance binary64 : Float float := {
  fadd := PrimFloat.add;
  fsub := PrimFloat.sub;
  fmul := PrimFloat.mul;
  fdiv := PrimFloat.div;
  fabs := PrimFloat.abs;
  feqb := PrimFloat.eqb;
  fltb := PrimFloat.ltb;
  fleb := PrimFloat.leb;
  of_Z := float_of_Z
}.

(* ================================================================== *)
(** ** The environment: Python built-ins and the VISA session *)
(* ================================================================== *)

(** [float_of_string s] is [float(s)], [None] standing for its [ValueError];
    [repr x] is the text an f-string gives [{x}]; [fmt3f x] is [{x:.3f}];
    [log10] is [math.log10] where it is defined (its domain check is
    [math_log10] below). *)
Class Builtins (F : Type) : Type := {
  float_of_string : string -> option F;
  repr : F -> string;
  fmt3f : F -> string;
  log10 : F -> F
}.

(** [myScope], a [VISA.BasicFormattedIO] object: writing a string to the
    instrument and reading its reply, over the state [S] of the session. *)
Class Visa (S : Type) : Type := {
  WriteString : string -> S -> S;
  ReadString : S -> string * S
}.

(* ================================================================== *)
(** ** Results of running a piece of the program *)
(* ================================================================== *)

(** Uncaught Python exceptions the modelled code can raise. *)
Inductive exn : Type :=
| ZeroDivisionError
| ValueError
| IndexError.

(** What [check_instrument_errors] prints before [sys.exit(1)]: the
    instrument's error string and the command it followed, or that the
    error query returned nothing. *)
Inductive fatal : Type :=
| InstrumentError (error_string command : string)
| NoErrorReply (command : string).

(** A run over the session state [S] returns a value, exits the process
    ([sys.exit(code)] after printing [why]) or dies of an exception; each
    carries the state the session was left in. *)
Inductive result (S A : Type) : Type :=
| Ok (a : A) (s : S)
| SysExit (code : Z) (why : fatal) (s : S)
| Raise (e : exn) (s : S).

Arguments Ok {S A} a s.
Arguments SysExit {S A} code why s.
Arguments Raise {S A} e s.

Definition M (S A : Type) : Type := S -> result S A.

Definition ret {S A} (a : A) : M S A := fun s => Ok a s.

Definition bind {S A B} (m : M S A) (k : A -> M S B) : M S B :=
  fun s =>
    match m s with
    | Ok a s' => k a s'
    | SysExit c w s' => SysExit c w s'
    | Raise e s' => Raise e s'
    end.

Definition raise {S A} (e : exn) : M S A := fun s => Raise e s.

Declare Scope py_monad_scope.
Delimit Scope py_monad_scope with M.
Notation "x <- m ;; k" := (bind m (fun x => k))
  (at level 61, m at next level, right associativity) : py_monad_scope.
Notation "m ;; k" := (bind m (fun _ => k))
  (at level 61, right associativity) : py_monad_scope.

(** [s.startswith(p)]. *)
Fixpoint startswith (p s : string) : bool :=
  match p, s with
  | EmptyString, _ => true
  | String a p', String b s' => Ascii.eqb a b && startswith p' s'
  | String _ _, EmptyString => false
  end.

(** [int(s)], [None] standing for its [ValueError]: like [float()], a
    built-in of Python and a parameter here. *)
Class IntParser : Type := {
  int_of_string : string -> option Z
}.

(** [str(n)] of an [int]: its decimal digits, after a minus sign when it is
    negative. *)
Definition str_int (n : Z) : string := NilZero.string_of_int (Z.to_int n).

(** [l[i]]: a negative index counts from the end of the list; [None] stands
    for the [IndexError] of an index out of range. *)
Definition py_getitem {A : Type} (l : list A) (i : Z) : option A :=
  if (0 <=? i)%Z then nth_error l (Z.to_nat i)
  else if (- Z.of_nat (List.length l) <=? i)%Z
       then nth_error l (Z.to_nat (Z.of_nat (List.length l) + i))
       else None.

(** [input(prompt)] on the lines still to be read from standard input: the
    next line, or [None] for the [EOFError] at its end. *)
Definition input (stdin : list string) : option (string * list string) :=
  match stdin with
  | [] => None
  | answer :: rest => Some (answer, rest)
  end.

(* ================================================================== *)
(** ** Text of the data file *)
(* ================================================================== *)

Definition newline : ascii := "010"%char.
Definition nl : string := String newline EmptyString.

(** The lines a file object yields when iterated ([for lin in fp]): each
    line keeps its terminating newline. *)
Fixpoint readlines (s : string) : list string :=
  match s with
  | EmptyString => []
  | String c s' =>
      if Ascii.eqb c newline then nl :: readlines s'
      else match readlines s' with
           | [] => [String c EmptyString]
           | l :: ls => String c l :: ls
           end
  end.

(** [s.strip("\n")]: newlines removed from both ends. *)
Fixpoint lstrip_nl (s : string) : string :=
  match s with
  | EmptyString => EmptyString
  | String c s' => if Ascii.eqb c newline then lstrip_nl s' else s
  end.

Fixpoint rstrip_nl (s : string) : string :=
  match s with
  | EmptyString => EmptyString
  | String c s' =>
      match rstrip_nl s' with
      | EmptyString => if Ascii.eqb c newline then EmptyString else String c EmptyString
      | r => String c r
      end
  end.

Definition strip_nl (s : string) : string := rstrip_nl (lstrip_nl s).

Definition cons_first (c : ascii) (l : list string) : list string :=
  match l with
  | [] => [String c EmptyString]
  | f :: fs => String c f :: fs
  end.

(** [s.split(", ")]. *)
Fixpoint split_comma_space (s : string) : list string :=
  match s with
  | EmptyString => [EmptyString]
  | String c s' =>
      match s' with
      | EmptyString => [String c EmptyString]
      | String d r =>
          if Ascii.eqb c ","%char && Ascii.eqb d " "%char
          then EmptyString :: split_comma_space r
          else cons_first c (split_comma_space s')
      end
  end.

(** [", ".join(fields)], the way the writer's f-string lays a row out. *)
Fixpoint join_comma_space (fields : list string) : string :=
  match fields with
  | [] => EmptyString
  | [f] => f
  | f :: fs => f ++ ", " ++ join_comma_space fs
  end.

(** One [fp.write]: the header, or the row of an accepted step. *)
Inductive line (F : Type) : Type :=
| Header
| Row (freq1 ampl1 freq2 ampl2 phase_diff gain : F).

Arguments Header {F}.
Arguments Row {F} freq1 ampl1 freq2 ampl2 phase_diff gain.

Definition header_text : string :=
  "CH1_FREQ [Hz], CH1_AMPL [Vpp], CH2_FREQ [Hz], CH2_AMPL [Vpp], PHASE_DIFF [Deg], GAIN [dB]" ++ nl.

Section FileText.
Context {F : Type} {B : Builtins F}.

(** The string one write puts in the file:
    [f"{freq1}, {ampl1}, {freq2}, {ampl2}, {phase_diff}, {gain}\n"]. *)
Definition line_text (l : line F) : string :=
  match l with
  | Header => header_text
  | Row freq1 ampl1 freq2 ampl2 phase_diff gain =>
      join_comma_space
        [repr freq1; repr ampl1; repr freq2; repr ampl2; repr phase_diff; repr gain]
      ++ nl
  end.

(** The content of the file after the writes [fp], oldest first. *)
Definition file_text (fp : list (line F)) : string :=
  concat EmptyString (map line_text fp).

End FileText.

(** The three arrays [plot_bode] fills. *)
Record arrays (F : Type) : Type := {
  freq_arr : list F;
  phase_arr : list F;
  gain_arr : list F
}.

Arguments Build_arrays {F} freq_arr phase_arr gain_arr.

Definition no_arrays {F : Type} : arrays F := Build_arrays [] [] [].

(* ================================================================== *)
(** ** FrequencyResponseCapture.py: instrument transport *)
(* ================================================================== *)

Module FrequencyResponseCapture.

Section Transport.
Context {S : Type} {V : Visa S}.
Local Open Scope py_monad_scope.

(** [check_instrument_errors(command)].  The source's [while True] runs its
    body once: it either breaks (the reply starts with [+0,]) or exits.
    [error_string.find("+0,", 0, 3) == -1] holds exactly when the reply does
    not start with [+0,]. *)
Definition check_instrument_errors (command : string) : M S unit :=
  fun s =>
    let s1 := WriteString ":SYSTem:ERRor?" s in
    let (error_string, s2) := ReadString s1 in
    match error_string with
    | String _ _ =>
        if negb (startswith "+0," error_string)
        then SysExit 1 (InstrumentError error_string command) s2
        else Ok tt s2
    | EmptyString => SysExit 1 (NoErrorReply command) s2
    end.

(** [do_command(command)]. *)
Definition do_command (command : string) : M S unit :=
  (fun s => Ok tt (WriteString command s)) ;;
  check_instrument_errors command.

(** [do_query_string(query)]. *)
Definition do_query_string (query : string) : M S string :=
  (fun s => Ok tt (WriteString query s)) ;;
  result <- (fun s => let (r, s') := ReadString s in Ok r s') ;;
  check_instrument_errors query ;;
  ret result.

(** [default_setup()]. *)
Definition default_setup : M S unit :=
  do_command "*CLS" ;;
  do_command "*RST".

(** [autoscale()]. *)
Definition autoscale : M S unit :=
  do_command ":AUToscale".

End Transport.


(* ------------------------------------------------------------------ *)
(** *** Capturing a waveform, driving the generator *)
(* ------------------------------------------------------------------ *)

(** The tuple [capture_waveform] returns:
    [(meas_freq1, meas_ampl1, meas_freq2, meas_ampl2, phase_diff)]. *)
Record measurement (F : Type) : Type := {
  meas_freq1 : F;
  meas_ampl1 : F;
  meas_freq2 : F;
  meas_ampl2 : F;
  phase_diff : F
}.

Arguments Build_measurement {F} meas_freq1 meas_ampl1 meas_freq2 meas_ampl2 phase_diff.

(** What the sweep prints about its progress and its retry policy (the
    measurements [capture_waveform] echoes are left out). *)
Inductive message (F : Type) : Type :=
| StepBanner (counter points : Z) (curr_freq : F)
| ErroneousSignal
| Retrying (curr_freq : F)
| UnableToRead (curr_freq : F)
| ModifyRange
| SuggestedRange (low high : F)
| DataSaved.

Arguments ErroneousSignal {F}.
Arguments ModifyRange {F}.
Arguments DataSaved {F}.

(** The local variables of [sweep_frequency] that change in the loop; [fp]
    is the file as the writes made to it, [stdout] what was printed. *)
Record locals (F : Type) : Type := {
  counter : Z;
  error_cnt : Z;
  curr_freq : F;
  fp : list (line F);
  stdout : list (message F)
}.

Arguments Build_locals {F} counter error_cnt curr_freq fp stdout.

(** How an iteration of the [while] ends: at [continue] or the end of the
    body, or at [break]. *)
Inductive control (F : Type) : Type :=
| Continue (st : locals F)
| Break (st : locals F).

Section Sweep.
Context {F : Type} {N : Float F} {B : Builtins F} {S : Type} {V : Visa S}.
Local Open Scope py_monad_scope.
Local Open Scope pyfloat_scope.

Definition lift {A : Type} (r : exn + A) : M S A :=
  fun s => match r with inl e => Raise e s | inr a => Ok a s end.

(** [float(qresult)]. *)
Definition py_float (qresult : string) : M S F :=
  match float_of_string qresult with
  | Some x => ret x
  | None => raise ValueError
  end.

(** [capture_waveform()]. *)
Definition capture_waveform : M S (measurement F) :=
  do_command ":SINGLE" ;;
  do_command ":ACQuire:TYPE NORMal" ;;
  _ <- do_query_string ":ACQuire:TYPE?" ;;
  do_command ":DIGitize CHANnel1,CHANnel2" ;;
  do_command ":MEASure:SOURce CHANnel1,CHANnel2" ;;
  _ <- do_query_string ":MEASure:SOURce?" ;;
  do_command ":MEASure:FREQuency CHANnel1" ;;
  qresult <- do_query_string ":MEASure:FREQuency? CHANnel1" ;;
  meas_freq1 <- py_float qresult ;;
  do_command ":MEASure:VPP CHANnel1" ;;
  qresult <- do_query_string ":MEASure:VPP? CHANnel1" ;;
  meas_ampl1 <- py_float qresult ;;
  do_command ":MEASure:FREQuency CHANnel2" ;;
  qresult <- do_query_string ":MEASure:FREQuency? CHANnel2" ;;
  meas_freq2 <- py_float qresult ;;
  do_command ":MEASure:VPP CHANnel2" ;;
  qresult <- do_query_string ":MEASure:VPP? CHANnel2" ;;
  meas_ampl2 <- py_float qresult ;;
  do_command ":MEASure:PHASe CHANnel2,CHANnel1" ;;
  qresult <- do_query_string ":MEASure:PHASe? CHANnel2,CHANnel1" ;;
  phase_diff <- py_float qresult ;;
  ret (Build_measurement meas_freq1 meas_ampl1 meas_freq2 meas_ampl2 phase_diff).

(** [generate_waveform(freq, ampl, offset)]. *)
Definition generate_waveform (freq ampl offset : F) : M S (F * F * F) :=
  do_command ":WGEN:OUTput 1" ;;
  do_command ":WGEN:FUNCtion SIN" ;;
  do_command (":WGEN:VOLTage " ++ fmt3f ampl) ;;
  do_command (":WGEN:FREQuency " ++ fmt3f freq) ;;
  do_command (":WGEN:VOLTage:OFFset " ++ fmt3f offset) ;;
  ret (freq, ampl, offset).

(** The defaults [ampl=1.0] and [offset=0.0]. *)
Definition generate_waveform_at (freq : F) : M S (F * F * F) :=
  generate_waveform freq (of_Z 1) (of_Z 0).

(* ------------------------------------------------------------------ *)
(** *** The sweep *)
(* ------------------------------------------------------------------ *)

(** [a / b] in Python: a zero divisor raises. *)
Definition py_div (a b : F) : exn + F :=
  if b ==? of_Z 0 then inl ZeroDivisionError else inr (a / b).

(** [math.log10(x)]: outside the domain it raises "math domain error". *)
Definition math_log10 (x : F) : exn + F :=
  if x <=? of_Z 0 then inl ValueError else inr (log10 x).

(** [20*math.log10(float(ampl2)/float(ampl1))]. *)
Definition gain_db (ampl2 ampl1 : F) : exn + F :=
  match py_div ampl2 ampl1 with
  | inl e => inl e
  | inr ratio =>
      match math_log10 ratio with
      | inl e => inl e
      | inr l => inr (of_Z 20 * l)
      end
  end.

(** The literals [1.5] and [10E9]. *)
Definition one_and_a_half : F := of_Z 3 / of_Z 2.
Definition ten_e9 : F := of_Z 10000000000.

(** The test of the [if] under "Check for errors":
    [(freq2 > 1.5*freq1) or (freq1 > 10E9) or (ampl1 > 10E9)]. *)
Definition erroneous (m : measurement F) : bool :=
  (meas_freq2 m >? one_and_a_half * meas_freq1 m)
  || (meas_freq1 m >? ten_e9)
  || (meas_ampl1 m >? ten_e9).

Definition say (st : locals F) (msgs : list (message F)) : locals F :=
  Build_locals (counter st) (error_cnt st) (curr_freq st) (fp st) (stdout st ++ msgs).

(** The erroneous branch: count the error, nudge the frequency by 2 Hz,
    and either give the sweep up ([break]) or try again ([continue]). *)
Definition retry (step : F) (st : locals F) : control F :=
  let error_cnt' := (error_cnt st + 1)%Z in
  let curr_freq' := curr_freq st + of_Z 2 in
  let st1 :=
    Build_locals (counter st) error_cnt' curr_freq' (fp st)
      (stdout st ++ [ErroneousSignal; Retrying curr_freq']) in
  if (error_cnt' >? 4)%Z
  then Break (say st1 [UnableToRead curr_freq'; ModifyRange;
                        SuggestedRange (of_Z 100) (curr_freq' - step)])
  else Continue st1.

(** The rest of the body: compute the gain, write the row, step on. *)
Definition record (step : F) (st : locals F) (m : measurement F) : exn + control F :=
  match gain_db (meas_ampl2 m) (meas_ampl1 m) with
  | inl e => inl e
  | inr gain =>
      inr (Continue
             (Build_locals (counter st + 1)%Z (error_cnt st) (curr_freq st + step)
                (fp st ++ [Row (meas_freq1 m) (meas_ampl1 m) (meas_freq2 m)
                               (meas_ampl2 m) (phase_diff m) gain])
                (stdout st)))
  end.

(** The body of the [while] from "Check for errors" on, given the
    measurement just captured. *)
Definition after_capture (step : F) (st : locals F) (m : measurement F) : exn + control F :=
  if erroneous m then inr (retry step st) else record step st m.

(** What the body does on the instrument before that: program the
    generator at the current frequency, autoscale, capture. *)
Definition measure (freq : F) : M S (measurement F) :=
  generate_waveform_at freq ;;
  autoscale ;;
  capture_waveform.

(** One pass through the body of the [while]. *)
Definition iteration (step : F) (points : Z) (st : locals F) : M S (control F) :=
  let st := say st [StepBanner (counter st) points (curr_freq st)] in
  m <- measure (curr_freq st) ;;
  lift (after_capture step st m).

(** [while (curr_freq <= end_freq): ...], for at most [fuel] passes; [None]
    when the passes run out before the loop ends. *)
Fixpoint while_loop (fuel : nat) (step end_freq : F) (points : Z) (st : locals F) (s : S)
  : option (result S (locals F)) :=
  match fuel with
  | O => None
  | Datatypes.S fuel' =>
      if curr_freq st <=? end_freq then
        match iteration step points st s with
        | Ok (Continue st') s' => while_loop fuel' step end_freq points st' s'
        | Ok (Break st') s' => Some (Ok st' s')
        | SysExit c w s' => Some (SysExit c w s')
        | Raise e s' => Some (Raise e s')
        end
      else Some (Ok st s)
  end.

(** [plot_bode(fn)] of this script, up to its arrays.  The line is unpacked
    into six strings, then [float(f1)], [float(pd)], [float(gain)] are
    appended one after the other: a conversion that raises leaves the
    earlier appends of its line in place. *)
Fixpoint parse_lines (lines : list string) : arrays F :=
  match lines with
  | [] => no_arrays
  | lin :: rest =>
      let a := parse_lines rest in
      match split_comma_space (strip_nl lin) with
      | [f1; a1; f2; a2; pd; gain] =>
          match float_of_string f1 with
          | None => a
          | Some x =>
              match float_of_string pd with
              | None => Build_arrays (x :: freq_arr a) (phase_arr a) (gain_arr a)
              | Some p =>
                  match float_of_string gain with
                  | None => Build_arrays (x :: freq_arr a) (p :: phase_arr a) (gain_arr a)
                  | Some g =>
                      Build_arrays (x :: freq_arr a) (p :: phase_arr a) (g :: gain_arr a)
                  end
              end
          end
      | _ => a
      end
  end.

Definition plot_bode (text : string) : arrays F :=
  parse_lines (readlines text).

(** The state the loop starts in: the file holds the header. *)
Definition initial (start_freq : F) : locals F :=
  Build_locals 1 0 start_freq [Header] [].

(** What [sweep_frequency] has done when it returns: its locals, and the
    arrays its closing [plot_bode(fname)] read back from the file. *)
Definition finish (st : locals F) : locals F * arrays F :=
  (say st [DataSaved], plot_bode (file_text (fp st))).

(** [sweep_frequency(start_freq, end_freq, points)].  The [sleep] calls and
    the name of the file (taken from the clock) are left out. *)
Definition sweep_frequency (fuel : nat) (start_freq end_freq : F) (points : Z) (s : S)
  : option (result S (locals F * arrays F)) :=
  match py_div (end_freq - start_freq) (of_Z (points - 1)) with
  | inl e => Some (Raise e s)
  | inr step =>
      match (generate_waveform_at start_freq ;; autoscale ;; capture_waveform) s with
      | Ok _ s1 =>
          match while_loop fuel step end_freq points (initial start_freq) s1 with
          | Some (Ok st s2) => Some (Ok (finish st) s2)
          | Some (SysExit c w s2) => Some (SysExit c w s2)
          | Some (Raise e s2) => Some (Raise e s2)
          | None => None
          end
      | SysExit c w s1 => Some (SysExit c w s1)
      | Raise e s1 => Some (Raise e s1)
      end
  end.

End Sweep.

(* ------------------------------------------------------------------ *)
(** *** The name of the data file *)
(* ------------------------------------------------------------------ *)

(** [time.localtime()]: the six fields that [sweep_frequency] reads, by
    their positions 0 to 5. *)
Record struct_time : Type := {
  tm_year : Z;
  tm_mon : Z;
  tm_mday : Z;
  tm_hour : Z;
  tm_min : Z;
  tm_sec : Z
}.

(** [fname]:
    [f"Bode_{curr_time[1]}-{curr_time[2]}-{curr_time[0]}_{curr_time[3]}-{curr_time[4]}-{curr_time[5]}"]. *)
Definition fname (curr_time : struct_time) : string :=
  "Bode_" ++ str_int (tm_mon curr_time) ++ "-" ++ str_int (tm_mday curr_time)
  ++ "-" ++ str_int (tm_year curr_time) ++ "_" ++ str_int (tm_hour curr_time)
  ++ "-" ++ str_int (tm_min curr_time) ++ "-" ++ str_int (tm_sec curr_time).

(** The file [sweep_frequency] writes in the [Data] folder: [f"{fname}.csv"]. *)
Definition data_file (curr_time : struct_time) : string := fname curr_time ++ ".csv".

(* ------------------------------------------------------------------ *)
(** *** Initialising the instrument, and [main] *)
(* ------------------------------------------------------------------ *)

(** [myScope.IO], the session under the formatted I/O: opening a resource,
    clearing the interface, setting the timeout. *)
Class VisaIO (S : Type) : Type := {
  Open : string -> S -> S;
  Clear : S -> S;
  set_Timeout : Z -> S -> S
}.

(** The start and stop frequencies and the number of steps that [main]
    hands to [sweep_frequency]. *)
Record plan (F : Type) : Type := {
  fstart : F;
  fstop : F;
  steps : Z
}.

Arguments Build_plan {F} fstart fstop steps.

(** What [main] prints when it falls back on its defaults. *)
Inductive notice (F : Type) : Type :=
| InvalidInputs
| UsingDefaults (fstart fstop : F) (steps : Z).

Arguments InvalidInputs {F}.

Section Program.
Context {F : Type} {N : Float F} {B : Builtins F} {I : IntParser}.
Context {S : Type} {V : Visa S} {IO : VisaIO S}.
Local Open Scope py_monad_scope.

(** [get_deviceID()], [resources] being [rm.list_resources()]: its first
    entry. *)
Definition get_deviceID (resources : list string) : exn + string :=
  match resources with
  | [] => inl IndexError
  | scopeDevice :: _ => inr scopeDevice
  end.

(** [initialize()]; it returns the identification string it prints. *)
Definition initialize (resources : list string) : M S string :=
  scopeDevice <- lift (get_deviceID resources) ;;
  (fun s => Ok tt (set_Timeout 15000 (Clear (Open scopeDevice s)))) ;;
  idn_string <- do_query_string "*IDN?" ;;
  default_setup ;;
  ret idn_string.

(** The values of the [except] branch. *)
Definition default_plan : plan F :=
  Build_plan (of_Z 100) (of_Z 10000) 25.

Definition defaults : plan F * list (notice F) :=
  (default_plan, [InvalidInputs; UsingDefaults (of_Z 100) (of_Z 10000) 25]).

(** The [try] of [main]: three lines are read and converted one after the
    other; whatever is raised on the way (a line that is no number, the end
    of the input) leads to the [except] branch, which sets all three
    values. *)
Definition read_plan (stdin : list string) : plan F * list (notice F) :=
  match input stdin with
  | None => defaults
  | Some (answer, stdin) =>
      match float_of_string answer with
      | None => defaults
      | Some fstart =>
          match input stdin with
          | None => defaults
          | Some (answer, stdin) =>
              match float_of_string answer with
              | None => defaults
              | Some fstop =>
                  match input stdin with
                  | None => defaults
                  | Some (answer, _) =>
                      match int_of_string answer with
                      | None => defaults
                      | Some steps => (Build_plan fstart fstop steps, [])
                      end
                  end
              end
          end
      end
  end.

(** [main()].  A run that returns [Ok] has reached the [sys.exit()] after
    the sweep. *)
Definition main (fuel : nat) (resources : list string) (stdin : list string) (s : S)
  : option (result S (locals F * arrays F)) :=
  match initialize resources s with
  | Ok _ s1 =>
      let p := fst (read_plan stdin) in
      sweep_frequency fuel (fstart p) (fstop p) (steps p) s1
  | SysExit c w s1 => Some (SysExit c w s1)
  | Raise e s1 => Some (Raise e s1)
  end.

End Program.
End FrequencyResponseCapture.
(* ================================================================== *)
(** ** interactivePlot.py: reading the data file, the cutoff search *)
(* ================================================================== *)

(** What [plot_bode] hands to the figure: the traces, the clip range of the
    frequency axis, and the "-3dB" reference lines.  [reference_gain_db] is
    the value of [max(gain_arr)] that the search subtracts 3 from. *)
Record figure (F : Type) : Type := {
  traces : arrays F;
  clipmin : F;
  clipmax : F;
  reference_gain_db : F;
  cutoff_index : nat;
  cutoff_gain_db : F;
  cutoff_phase_deg : F
}.

Module interactivePlot.
Section Analysis.
Context {F : Type} {N : Float F} {B : Builtins F}.
Local Open Scope pyfloat_scope.

(** [map(float, fields)], consumed by the unpacking: the first field that
    is no number raises. *)
Fixpoint map_float (fields : list string) : option (list F) :=
  match fields with
  | [] => Some []
  | f :: fs =>
      match float_of_string f with
      | None => None
      | Some x =>
          match map_float fs with
          | None => None
          | Some xs => Some (x :: xs)
          end
      end
  end.

(** The body of the [try]: the three values the line contributes, or [None]
    when anything raised (a field that is no number, or not six fields). *)
Definition parse_line (lin : string) : option (F * F * F) :=
  match map_float (split_comma_space (strip_nl lin)) with
  | Some [f1; a1; f2; a2; pd; gain] => Some (f1, pd, gain)
  | _ => None
  end.

(** The [for lin in fp] loop: a line that raises is skipped. *)
Fixpoint parse_lines (lines : list string) : arrays F :=
  match lines with
  | [] => no_arrays
  | lin :: rest =>
      let a := parse_lines rest in
      match parse_line lin with
      | Some (f1, pd, gain) =>
          Build_arrays (f1 :: freq_arr a) (pd :: phase_arr a) (gain :: gain_arr a)
      | None => a
      end
  end.

Definition parse_file (text : string) : arrays F :=
  parse_lines (readlines text).

(** [max(l)]: an item replaces the running maximum when it is greater. *)
Fixpoint max_from (best : F) (l : list F) : F :=
  match l with
  | [] => best
  | x :: r => max_from (if x >? best then x else best) r
  end.

Definition py_max (l : list F) : option F :=
  match l with
  | [] => None
  | x :: r => Some (max_from x r)
  end.

(** [min(l, key=key)]: an item replaces the running minimum when its key is
    smaller. *)
Fixpoint min_from (key : F -> F) (best : F) (l : list F) : F :=
  match l with
  | [] => best
  | x :: r => min_from key (if key x <? key best then x else best) r
  end.

Definition py_min (key : F -> F) (l : list F) : option F :=
  match l with
  | [] => None
  | x :: r => Some (min_from key x r)
  end.

(** [l.index(v)]: the first position holding a value equal to [v].  (Python
    also takes an item that is the very object [v]; that differs from
    equality for NaN only.) *)
Fixpoint py_index (v : F) (l : list F) : option nat :=
  match l with
  | [] => None
  | x :: r => if x ==? v then Some O else option_map S (py_index v r)
  end.

(** [lambda x: abs(x - (max(gain_arr)-3))], [reference] being the value of
    [max(gain_arr)]. *)
Definition distance_to_cutoff (reference : F) (x : F) : F :=
  fabs (x - (reference - of_Z 3)).

(** [freq_arr[-1]]. *)
Definition last_of (l : list F) : option F :=
  match l with
  | [] => None
  | x :: r => Some (last r x)
  end.

(** [plot_bode] from the parsed arrays on: the axis range reads
    [freq_arr[0]] and [freq_arr[-1]] (an [IndexError] on empty arrays), then
    [gain_arr.index(min(gain_arr, key=lambda x: abs(x - (max(gain_arr)-3))))]
    and the two lines at [gain_arr[cutoff_index]], [phase_arr[cutoff_index]]. *)
Definition analyse (a : arrays F) : exn + figure F :=
  match freq_arr a, last_of (freq_arr a) with
  | first :: _, Some final =>
      match py_max (gain_arr a) with
      | None => inl ValueError
      | Some reference =>
          match py_min (distance_to_cutoff reference) (gain_arr a) with
          | None => inl ValueError
          | Some nearest =>
              match py_index nearest (gain_arr a) with
              | None => inl ValueError
              | Some i =>
                  match nth_error (gain_arr a) i, nth_error (phase_arr a) i with
                  | Some g, Some p =>
                      inr {| traces := a;
                             clipmin := first - of_Z 1;
                             clipmax := final + of_Z 10;
                             reference_gain_db := reference;
                             cutoff_index := i;
                             cutoff_gain_db := g;
                             cutoff_phase_deg := p |}
                  | _, _ => inl IndexError
                  end
              end
          end
      end
  | _, _ => inl IndexError
  end.

(** [plot_bode(fn)], on the text of the file [fn] names. *)
Definition plot_bode (text : string) : exn + figure F :=
  analyse (parse_file text).

(** What the caller sees.  [main] runs [plot_bode] inside
    [try: ... except: print("[ERROR] Invalid Input!"); exit(1)]. *)
Inductive outcome : Type :=
| Shown (fig : figure F)
| InvalidInput (code : Z).

Definition main (text : string) : outcome :=
  match plot_bode text with
  | inr fig => Shown fig
  | inl _ => InvalidInput 1
  end.

End Analysis.

(* ------------------------------------------------------------------ *)
(** *** Choosing the file to plot *)
(* ------------------------------------------------------------------ *)

(** [name.split(".")[0]]: what comes before the first dot. *)
Fixpoint before_dot (name : string) : string :=
  match name with
  | EmptyString => EmptyString
  | String c name' =>
      if Ascii.eqb c "."%char then EmptyString else String c (before_dot name')
  end.

(** The numbered list [main] prints: [enumerate(data_files)], each index
    plus one. *)
Fixpoint listing_from (first : Z) (data_files : list string) : list (Z * string) :=
  match data_files with
  | [] => []
  | f :: rest => (first, f) :: listing_from (first + 1) rest
  end.

Definition listing (data_files : list string) : list (Z * string) :=
  listing_from 1 data_files.

Section Choice.
Context {F : Type} {N : Float F} {B : Builtins F} {I : IntParser}.

(** How [main] ends: without any data file, or, once the list is printed,
    as its [try] does. *)
Inductive ending : Type :=
| NoDataFiles (code : Z)
| Listed (entries : list (Z * string)) (then_ : outcome (F := F)).

(** [plot_bode(name.split(".")[0])] inside the [try]: [read] gives the
    content of a file of the [Data] folder by its name, [None] when [open]
    raises. *)
Definition plot_file (read : string -> option string) (name : string) : outcome (F := F) :=
  match read (before_dot name ++ ".csv") with
  | None => InvalidInput 1
  | Some text => main text
  end.

(** [main()], with [data_files] for [os.listdir] of the [Data] folder and
    [stdin] for the lines of standard input. *)
Definition main_in (data_files : list string) (read : string -> option string)
    (stdin : list string) : ending :=
  match data_files with
  | [] => NoDataFiles 1
  | _ :: _ =>
      Listed (listing data_files)
        (match input stdin with
         | None => InvalidInput 1
         | Some (answer, _) =>
             match int_of_string answer with
             | None => InvalidInput 1
             | Some file =>
                 match py_getitem data_files (file - 1) with
                 | None => InvalidInput 1
                 | Some name => plot_file read name
                 end
             end
         end)
  end.

End Choice.
End interactivePlot.

(* ================================================================== *)
(** ** A simulated environment, for running the model *)
(* ================================================================== *)

(** Concrete stand-ins for the parameters, used to evaluate the model on
    explicit inputs: a scripted oscilloscope and the decimal fragment of
    the built-ins that the scripted runs exercise. *)
Module Sim.

Definition decimal (z : Z) : string := NilZero.string_of_int (Z.to_int z).

(** Splits at the first dot: the integer digits, and the fraction digits
    when there is a dot. *)
Fixpoint split_dot (s : string) : string * option string :=
  match s with
  | EmptyString => (EmptyString, None)
  | String c s' =>
      if Ascii.eqb c "."%char then (EmptyString, Some s')
      else let (i, f) := split_dot s' in (String c i, f)
  end.

(** Base-10 logarithm on the powers of ten the scripted runs use. *)
Definition powers_of_ten : list (Z * Z * Z) :=
  [(1, 1, 0); (10, 1, 1); (100, 1, 2); (1000, 1, 3);
   (1, 10, -1); (1, 100, -2); (1, 1000, -3)]%Z.

Section Env.
Context {F : Type} {N : Float F}.
Variable to_Z : F -> Z.
Local Open Scope pyfloat_scope.

(** [float(s)] on plain decimals: an optional sign, digits, and an optional
    dot followed by digits. *)
Definition parse_decimal (s : string) : option F :=
  match split_dot s with
  | (i, None) => option_map (fun d => of_Z (Z.of_int d)) (NilZero.int_of_string i)
  | (i, Some f) =>
      match NilZero.int_of_string (i ++ f) with
      | Some d => Some (of_Z (Z.of_int d) / of_Z (10 ^ Z.of_nat (String.length f)))
      | None => None
      end
  end.

(** [str(x)] and [format(x, ".3f")] on whole numbers. *)
Definition repr_whole (x : F) : string := decimal (to_Z x) ++ ".0".
Definition fmt3f_whole (x : F) : string := decimal (to_Z x) ++ ".000".

Fixpoint lookup_log10 (table : list (Z * Z * Z)) (x : F) : F :=
  match table with
  | [] => of_Z 0
  | (n, d, l) :: rest =>
      if x ==? of_Z n / of_Z d then of_Z l else lookup_log10 rest x
  end.

Definition builtins : Builtins F := {|
  float_of_string := parse_decimal;
  repr := repr_whole;
  fmt3f := fmt3f_whole;
  log10 := lookup_log10 powers_of_ten
|}.

End Env.

(** The whole part of a rational and of a double. *)
Definition Q_to_Z (q : Q) : Z := (Qnum q / Zpos (Qden q))%Z.

Definition float_to_Z (x : float) : Z :=
  match Prim2SF x with
  | S754_finite sign m e =>
      let v := if (0 <=? e)%Z then (Zpos m * 2 ^ e)%Z else (Zpos m / 2 ^ (- e))%Z in
      if sign then (- v)%Z else v
  | _ => 0%Z
  end.

Definition exact_builtins : Builtins Q := builtins Q_to_Z.
Definition binary64_builtins : Builtins float := builtins float_to_Z.

(** One acquisition, as the replies the oscilloscope gives to the five
    measurement queries. *)
Record reading : Type := {
  freq1 : string;
  ampl1 : string;
  freq2 : string;
  ampl2 : string;
  phase : string
}.

Definition reading_of (f1 a1 f2 a2 p : Z) : reading :=
  {| freq1 := decimal f1; ampl1 := decimal a1; freq2 := decimal f2;
     ampl2 := decimal a2; phase := decimal p |}.

(** The scripted oscilloscope: the command it was last sent, the reading on
    its screen, the readings still to come (one is taken at each [:SINGLE])
    and, when it is set to fail, how many error queries it still answers
    with "no error". *)
Record scope : Type := {
  last : string;
  screen : reading;
  script : list reading;
  healthy : option nat
}.

Definition write (command : string) (s : scope) : scope :=
  if String.eqb command ":SINGLE" then
    match script s with
    | r :: rest => {| last := command; screen := r; script := rest; healthy := healthy s |}
    | [] => {| last := command; screen := screen s; script := []; healthy := healthy s |}
    end
  else {| last := command; screen := screen s; script := script s; healthy := healthy s |}.

Definition read (s : scope) : string * scope :=
  if String.eqb (last s) ":SYSTem:ERRor?" then
    match healthy s with
    | Some O => ("-113,Undefined header", s)
    | Some (S n) =>
        ("+0,No error",
         {| last := last s; screen := screen s; script := script s; healthy := Some n |})
    | None => ("+0,No error", s)
    end
  else if String.eqb (last s) ":MEASure:FREQuency? CHANnel1" then (freq1 (screen s), s)
  else if String.eqb (last s) ":MEASure:VPP? CHANnel1" then (ampl1 (screen s), s)
  else if String.eqb (last s) ":MEASure:FREQuency? CHANnel2" then (freq2 (screen s), s)
  else if String.eqb (last s) ":MEASure:VPP? CHANnel2" then (ampl2 (screen s), s)
  else if String.eqb (last s) ":MEASure:PHASe? CHANnel2,CHANnel1" then (phase (screen s), s)
  else ("NORM", s).

#[global] Instance visa : Visa scope := {| WriteString := write; ReadString := read |}.

(** An oscilloscope about to play [readings], the first of them at the
    priming capture. *)
Definition playing (readings : list reading) : scope :=
  {| last := EmptyString; screen := reading_of 0 0 0 0 0; script := readings;
     healthy := None |}.

Definition failing_after (n : nat) (readings : list reading) : scope :=
  {| last := EmptyString; screen := reading_of 0 0 0 0 0; script := readings;
     healthy := Some n |}.

(** [int(s)] on plain decimals, and a session layer that keeps no state of
    its own. *)
Definition parse_int (s : string) : option Z :=
  option_map Z.of_int (NilZero.int_of_string s).

#[global] Instance ints : IntParser := {| int_of_string := parse_int |}.

#[global] Instance io : FrequencyResponseCapture.VisaIO scope := {|
  FrequencyResponseCapture.Open := fun _ s => s;
  FrequencyResponseCapture.Clear := fun s => s;
  FrequencyResponseCapture.set_Timeout := fun _ s => s
|}.

End Sim.

Import FrequencyResponseCapture.

(* ================================================================== *)
(** ** Vocabulary of the statements *)
(* ================================================================== *)

(* ------------------------------------------------------------------ *)
(** *** The loop *)
(* ------------------------------------------------------------------ *)

(** The locals an iteration ended with, whichever way it ended. *)
Definition state_of {F : Type} (c : control F) : locals F :=
  match c with
  | Continue st => st
  | Break st => st
  end.

(** The locals once the pass has printed its [STEP] line. *)
Definition banner {F : Type} (points : Z) (st : locals F) : locals F :=
  say st [StepBanner (counter st) points (curr_freq st)].

(** The row an accepted sample adds to the file. *)
Definition row_of {F : Type} {N : Float F} {B : Builtins F} (m : measurement F) : line F :=
  Row (meas_freq1 m) (meas_ampl1 m) (meas_freq2 m) (meas_ampl2 m) (phase_diff m)
      (fmul (of_Z 20) (log10 (fdiv (meas_ampl2 m) (meas_ampl1 m)))).

(** The locals after the pass that accepted [m]. *)
Definition accepted {F : Type} {N : Float F} {B : Builtins F}
    (step : F) (st : locals F) (m : measurement F) : locals F :=
  Build_locals (counter st + 1)%Z (error_cnt st) (fadd (curr_freq st) step)
    (fp st ++ [row_of m]) (stdout st).

(** A pass exits, raises, retries (or gives up) on an erroneous sample, or
    writes the row of a valid one. *)
Inductive pass_case {F : Type} {N : Float F} {B : Builtins F} {S : Type} {V : Visa S}
    (step : F) (points : Z) (st : locals F) (s : S)
  : result S (control F) -> Prop :=
| pass_exit c w s' :
    measure (curr_freq st) s = SysExit c w s' ->
    pass_case step points st s (SysExit c w s')
| pass_raise_measure e s' :
    measure (curr_freq st) s = Raise e s' ->
    pass_case step points st s (Raise e s')
| pass_raise_gain m e s' :
    measure (curr_freq st) s = Ok m s' ->
    erroneous m = false ->
    gain_db (meas_ampl2 m) (meas_ampl1 m) = inl e ->
    pass_case step points st s (Raise e s')
| pass_retry m s' :
    measure (curr_freq st) s = Ok m s' ->
    erroneous m = true ->
    pass_case step points st s (Ok (retry step (banner points st)) s')
| pass_record m s' :
    measure (curr_freq st) s = Ok m s' ->
    erroneous m = false ->
    pass_case step points st s (Ok (Continue (accepted step (banner points st) m)) s').

(** The states in which a sweep with the given increment can stand at the
    head of its [while]: the initial one, and the one any pass that ended
    at [continue] or at the end of the body leaves. *)
Inductive reachable {F : Type} {N : Float F} {B : Builtins F}
    (start_freq end_freq step : F) : locals F -> Prop :=
| reach_initial : reachable start_freq end_freq step (initial start_freq)
| reach_pass (points : Z) (st st' : locals F) (m : measurement F) :
    reachable start_freq end_freq step st ->
    fleb (curr_freq st) end_freq = true ->
    after_capture step (banner points st) m = inr (Continue st') ->
    reachable start_freq end_freq step st'.

(** The messages of an abandoned sweep. *)
Definition is_abort {F : Type} (msg : message F) : bool :=
  match msg with
  | UnableToRead _ | ModifyRange | SuggestedRange _ _ => true
  | _ => false
  end.

(* ------------------------------------------------------------------ *)
(** *** The dataset *)
(* ------------------------------------------------------------------ *)

(** The rows of the dataset: the lines of the file other than the header. *)
Definition is_row {F : Type} (l : line F) : bool :=
  match l with
  | Header => false
  | Row _ _ _ _ _ _ => true
  end.

Definition data_rows {F : Type} (fp : list (line F)) : list (line F) :=
  filter is_row fp.


(** A line of the file carries the gain of its own amplitudes:
    [gain = 20*log10(ampl2/ampl1)]. *)
Definition gain_is_20_log10 {F : Type} {N : Float F} {B : Builtins F} (l : line F) : Prop :=
  match l with
  | Header => True
  | Row _ ampl1 _ ampl2 _ gain => gain = fmul (of_Z 20) (log10 (fdiv ampl2 ampl1))
  end.

(** The file holds the header, then one row per accepted step. *)
Definition header_then_rows {F : Type} (st : locals F) : Prop :=
  exists body,
    fp st = Header :: body
    /\ forallb is_row body = true
    /\ counter st = (1 + Z.of_nat (List.length body))%Z.


(* ------------------------------------------------------------------ *)
(** *** Exact arithmetic *)
(* ------------------------------------------------------------------ *)

(** [frequency_step] in exact arithmetic. *)
Definition frequency_step (start_freq end_freq : Q) (points : Z) : Q :=
  ((end_freq - start_freq) / inject_Z (points - 1))%Q.

(** In exact arithmetic the current frequency is the start frequency plus
    one step per row written plus 2 Hz per error counted; [counter] is one
    ahead of the rows. *)
Definition on_track (start_freq end_freq : Q) (points : Z) (st : locals Q) : Prop :=
  counter st = (1 + Z.of_nat (List.length (data_rows (fp st))))%Z
  /\ (0 <= error_cnt st)%Z
  /\ (counter st - 1 <= points)%Z
  /\ (curr_freq st ==
      start_freq + inject_Z (counter st - 1) * frequency_step start_freq end_freq points
      + 2 * inject_Z (error_cnt st))%Q.

(** The frequencies the passes of the loop were driven at, oldest first:
    those of the [STEP] lines printed. *)
Definition driven_freqs {F : Type} (out : list (message F)) : list F :=
  flat_map (fun msg =>
              match msg with
              | StepBanner _ _ curr_freq => [curr_freq]
              | _ => []
              end) out.

(** In exact arithmetic every pass is driven at a higher frequency than
    the passes before it, and the current frequency is higher still; there
    has been one pass per row written and per error counted. *)
Definition ascending (st : locals Q) : Prop :=
  StronglySorted Qlt (driven_freqs (stdout st))
  /\ Forall (fun f => (f < curr_freq st)%Q) (driven_freqs (stdout st))
  /\ Z.of_nat (List.length (driven_freqs (stdout st))) = (counter st - 1 + error_cnt st)%Z.

(** A bound on the passes a sweep still has to make: one per row still to
    write and one per error still tolerated. *)
Definition passes_left (points : Z) (st : locals Q) : Z :=
  (points + 5 - (counter st - 1) - error_cnt st)%Z.

(* ------------------------------------------------------------------ *)
(** *** The cutoff search *)
(* ------------------------------------------------------------------ *)

(** The index the cutoff search settles on, when it gets that far. *)
Definition cutoff_of {F : Type} {N : Float F} (a : arrays F) : option nat :=
  match interactivePlot.analyse a with
  | inr fig => Some (cutoff_index fig)
  | inl _ => None
  end.

(** The distance of a gain to the point 3 dB below [reference]. *)
Definition off_target (reference g : Q) : Q := Qabs (g - (reference - 3)).

(** What C4 says of the figure [fig] drawn from the arrays [a]. *)
Definition nearest_to_3dB_down (a : arrays Q) (fig : figure Q) : Prop :=
  In (reference_gain_db fig) (gain_arr a)
  /\ (forall g, In g (gain_arr a) -> (g <= reference_gain_db fig)%Q)
  /\ nth_error (gain_arr a) (cutoff_index fig) = Some (cutoff_gain_db fig)
  /\ nth_error (phase_arr a) (cutoff_index fig) = Some (cutoff_phase_deg fig)
  /\ (forall j g,
        nth_error (gain_arr a) j = Some g ->
        (off_target (reference_gain_db fig) (cutoff_gain_db fig)
         <= off_target (reference_gain_db fig) g)%Q)
  /\ (forall j g,
        (j < cutoff_index fig)%nat ->
        nth_error (gain_arr a) j = Some g ->
        (off_target (reference_gain_db fig) (cutoff_gain_db fig)
         < off_target (reference_gain_db fig) g)%Q).

(* ------------------------------------------------------------------ *)
(** *** Text of the file *)
(* ------------------------------------------------------------------ *)

(** [c in s]. *)
Fixpoint mentions (c : ascii) (s : string) : bool :=
  match s with
  | EmptyString => false
  | String d s' => Ascii.eqb d c || mentions c s'
  end.




(* ------------------------------------------------------------------ *)
(** *** The transcript of a session *)
(* ------------------------------------------------------------------ *)

(** What passes between the program and the instrument: a string written,
    or the reply read to the string written last. *)
Inductive event : Type :=
| Wrote (text : string)
| Replied (query reply : string).

(** A session together with the string written last and the transcript so
    far. *)
Record recorded (S : Type) : Type := {
  inner : S;
  last_written : string;
  transcript : list event
}.

Arguments Build_recorded {S} inner last_written transcript.

(** Any session, recorded: it behaves as the session it wraps and keeps
    the transcript. *)
Definition recording {S : Type} (V : Visa S) : Visa (recorded S) := {|
  WriteString := fun text r =>
    Build_recorded (WriteString text (inner r)) text (transcript r ++ [Wrote text]);
  ReadString := fun r =>
    let (reply, s') := ReadString (inner r) in
    (reply,
     Build_recorded s' (last_written r) (transcript r ++ [Replied (last_written r) reply]))
|}.

Definition fresh {S : Type} (s : S) : recorded S := Build_recorded s EmptyString [].

Definition error_query : string := ":SYSTem:ERRor?".

(** The instrument's "no error": code 0 with an explicit sign. *)
Definition no_error (reply : string) : bool := startswith "+0," reply.

(** A stretch of transcript in which every reply to the error query
    reports no error. *)
Definition quiet (stretch : list event) : Prop :=
  Forall (fun e =>
            match e with
            | Wrote _ => True
            | Replied query reply => query = error_query -> no_error reply = true
            end) stretch.

(** What is printed for the error reply [reply] after [command]. *)
Definition fatal_of (reply command : string) : fatal :=
  match reply with
  | EmptyString => NoErrorReply command
  | String _ _ => InstrumentError reply command
  end.

(** A stretch of transcript that ends at the first error the instrument
    reports: quiet exchanges, then [command] (with its reply when it is a
    query), then the error query and a reply other than "no error"; [why]
    is what is printed for it. *)
Definition ends_at_fault (stretch : list event) (why : fatal) : Prop :=
  exists before command answer reply,
    stretch =
    (before ++ Wrote command :: answer ++ [Wrote error_query; Replied error_query reply])%list
    /\ quiet before
    /\ (answer = [] \/ exists text, answer = [Replied command text])
    /\ no_error reply = false
    /\ why = fatal_of reply command.

(** A run on a session and the same run on the recorded session end alike,
    and the transcript grows by a stretch that is quiet unless the run
    exits, in which case it ends at the fault. *)
Definition run_agrees {S A : Type} (r : recorded S)
    (plain : result S A) (rec : result (recorded S) A) : Prop :=
  match plain, rec with
  | Ok a s', Ok a' r' =>
      a = a' /\ inner r' = s'
      /\ exists stretch, transcript r' = (transcript r ++ stretch)%list /\ quiet stretch
  | Raise e s', Raise e' r' =>
      e = e' /\ inner r' = s'
      /\ exists stretch, transcript r' = (transcript r ++ stretch)%list /\ quiet stretch
  | SysExit c w s', SysExit c' w' r' =>
      c = 1%Z /\ c' = 1%Z /\ w = w' /\ inner r' = s'
      /\ exists stretch, transcript r' = (transcript r ++ stretch)%list /\ ends_at_fault stretch w
  | _, _ => False
  end.

(** The same computation on a session and on the recorded session. *)
Definition related {S A : Type} (plain : M S A) (rec : M (recorded S) A) : Prop :=
  forall r : recorded S, run_agrees r (plain (inner r)) (rec r).

Definition runs_agree {S A : Type} (r : recorded S)
    (plain : option (result S A)) (rec : option (result (recorded S) A)) : Prop :=
  match plain, rec with
  | Some p, Some q => run_agrees r p q
  | None, None => True
  | _, _ => False
  end.

(* ================================================================== *)
(** ** Scenarios: simulated runs and samples *)
(* ================================================================== *)

(** The inputs the statements below are evaluated on.  In every script of
    readings the first one is taken by the capture that primes the
    instrument before the loop; the passes of the loop take the following
    ones, and once the script is played out the last reading stays on the
    screen. *)

(** The sweep 100 Hz .. 200 Hz in 2 points, fault-free, with readings at
    the driven frequencies. *)
Definition steady_readings : Sim.scope :=
  Sim.playing [Sim.reading_of 100 1 100 1 0;
               Sim.reading_of 100 1 100 1 0;
               Sim.reading_of 200 1 200 10 (-45)].


(** An oscilloscope that reads 100 Hz and 1 Vpp on both channels at every
    capture: no sample of a sweep on it is erroneous. *)
Definition constant_readings : Sim.scope :=
  Sim.playing [Sim.reading_of 100 1 100 1 0].

(** The sweep 100 Hz .. 200 Hz in 2 points in which the oscilloscope reads
    0 Hz on both channels at the first step; the sample of that step. *)
Definition silent_first_step : Sim.scope :=
  Sim.playing [Sim.reading_of 100 1 100 1 0;
               Sim.reading_of 0 1 0 1 0;
               Sim.reading_of 200 1 200 1 0].

Definition silent_sample : measurement float :=
  Build_measurement 0%float 1%float 0%float 1%float 0%float.

(** A sample whose output frequency (200 Hz) is twice its input frequency
    (100 Hz), and an oscilloscope, already primed, about to read it. *)
Definition doubled_sample : measurement Q :=
  Build_measurement 100%Q 1%Q 200%Q 1%Q 0%Q.

Definition doubled_first_step : Sim.scope :=
  Sim.playing [Sim.reading_of 100 1 200 1 0].

(** The sweep 200 Hz .. 1000 Hz in 5 points: the first step reads well,
    every later capture reads an output frequency of twice the input
    frequency. *)
Definition five_failures : Sim.scope :=
  Sim.playing [Sim.reading_of 200 1 200 1 0;
               Sim.reading_of 200 1 200 1 0;
               Sim.reading_of 400 1 800 1 0;
               Sim.reading_of 400 1 800 1 0;
               Sim.reading_of 400 1 800 1 0;
               Sim.reading_of 400 1 800 1 0;
               Sim.reading_of 400 1 800 1 0].

(** The locals of the sweep 200 Hz .. 1000 Hz in 5 points after one
    accepted step and four failures, and an oscilloscope about to give the
    fifth. *)
Definition after_four_failures : locals float :=
  Build_locals 2 4 408%float
    [Header; Row 200%float 1%float 200%float 1%float 0%float 0%float] [].

Definition fifth_failure : Sim.scope :=
  Sim.playing [Sim.reading_of 400 1 800 1 0].

(** The sweep 100 Hz .. 200 Hz in 2 points in which the first step reads
    inverted amplitudes on both channels (-1 Vpp in, -10 Vpp out); the
    sample of that step. *)
Definition inverted_first_step : Sim.scope :=
  Sim.playing [Sim.reading_of 100 1 100 1 0;
               Sim.reading_of 100 (-1) 100 (-10) 180;
               Sim.reading_of 200 1 200 1 0].

Definition inverted_sample : measurement Q :=
  Build_measurement 100%Q (-1)%Q 100%Q (-10)%Q 180%Q.

(** The sweep 100 Hz .. 200 Hz in 2 points in which the first step reads
    0 Vpp on the input channel and 2*10^10 Vpp on the output channel. *)
Definition dead_input_first_step : Sim.scope :=
  Sim.playing [Sim.reading_of 100 1 100 1 0;
               Sim.reading_of 100 0 100 20000000000 0;
               Sim.reading_of 200 1 200 1 0].

(** A sample with an output amplitude of 2*10^10 Vpp for an input amplitude
    of 1 Vpp. *)
Definition huge_output_sample : measurement Q :=
  Build_measurement 100%Q 1%Q 100%Q 20000000000%Q 0%Q.

(** The sweep 100 Hz .. 100 Hz in 2 points: two valid readings, then one
    whose output frequency is twice its input frequency. *)
Definition standing_sweep : Sim.scope :=
  Sim.playing [Sim.reading_of 100 1 100 1 0;
               Sim.reading_of 100 1 100 1 0;
               Sim.reading_of 100 1 100 1 0;
               Sim.reading_of 100 1 200 1 0].

(** The sweep 100 Hz .. 101 Hz in 2 points whose first reading in the loop
    is erroneous. *)
Definition last_step_fails : Sim.scope :=
  Sim.playing [Sim.reading_of 100 1 100 1 0;
               Sim.reading_of 100 1 200 1 0].

(** A sweep in which the instrument reports an error at its 40th error
    query, the one after [:MEASure:FREQuency? CHANnel2] in the first pass of
    the loop. *)
Definition faulty_first_pass : Sim.scope :=
  Sim.failing_after 39 [Sim.reading_of 100 1 100 1 0; Sim.reading_of 100 1 100 1 0].

(** The gains 0, -1, -3, -6, -9 dB at 100 .. 500 Hz, and the data file a
    sweep would have written for them (amplitudes of 1 Vpp). *)
Definition roll_off {F : Type} {N : Float F} : arrays F :=
  Build_arrays
    (map of_Z [100; 200; 300; 400; 500]%Z)
    (map of_Z [0; -10; -45; -60; -80]%Z)
    (map of_Z [0; -1; -3; -6; -9]%Z).

Definition roll_off_file : string :=
  file_text (B := Sim.exact_builtins)
    [Header;
     Row 100 1 100 1 0 0; Row 200 1 200 1 (-10) (-1); Row 300 1 300 1 (-45) (-3);
     Row 400 1 400 1 (-60) (-6); Row 500 1 500 1 (-80) (-9)]%Q.


(* ================================================================== *)
(** ** Vocabulary of the further properties *)
(* ================================================================== *)

(* ------------------------------------------------------------------ *)
(** *** Counting the passes of a sweep *)
(* ------------------------------------------------------------------ *)

(** The passes made so far: one [STEP] line is printed per pass. *)
Definition passes {F : Type} (st : locals F) : Z :=
  Z.of_nat (List.length (driven_freqs (stdout st))).

(** The rows written so far. *)
Definition rows {F : Type} (st : locals F) : Z :=
  Z.of_nat (List.length (data_rows (fp st))).

(** The sweep has printed that it gives up. *)
Definition gave_up {F : Type} (st : locals F) : bool :=
  existsb is_abort (stdout st).

(** The books at the head of the loop: every pass so far wrote a row or
    counted an error, at most 4 errors are counted, and the sweep has not
    given up. *)
Definition tally_in_loop {F : Type} (st : locals F) : Prop :=
  passes st = (rows st + error_cnt st)%Z
  /\ (0 <= error_cnt st <= 4)%Z
  /\ gave_up st = false.

(** The books once the loop has ended: the sweep has given up exactly when
    5 errors are counted. *)
Definition tally_at_end {F : Type} (st : locals F) : Prop :=
  passes st = (rows st + error_cnt st)%Z
  /\ (0 <= error_cnt st <= 5)%Z
  /\ (gave_up st = true <-> error_cnt st = 5%Z).

(* ------------------------------------------------------------------ *)
(** *** The frequency grid of a plan *)
(* ------------------------------------------------------------------ *)

(** The [k]-th frequency of the plan: [start_freq + k * step]. *)
Definition grid (start_freq end_freq : Q) (points : Z) (k : nat) : Q :=
  (start_freq + inject_Z (Z.of_nat k) * frequency_step start_freq end_freq points)%Q.

(** While no error is counted the passes were driven along the grid. *)
Definition on_grid (start_freq end_freq : Q) (points : Z) (st : locals Q) : Prop :=
  error_cnt st = 0%Z ->
  Forall2 Qeq (driven_freqs (stdout st))
    (map (grid start_freq end_freq points)
         (seq 0 (List.length (driven_freqs (stdout st))))).

(* ------------------------------------------------------------------ *)
(** *** Instruments that keep reading well *)
(* ------------------------------------------------------------------ *)

(** A set of session states the instrument never leaves, in each of which
    a measurement at any frequency returns a sample that is not erroneous
    and has a gain. *)
Definition always_valid {F : Type} {N : Float F} {B : Builtins F} {S : Type} {V : Visa S}
    (steady : S -> Prop) : Prop :=
  forall (freq : F) (s : S),
    steady s ->
    exists m s',
      measure freq s = Ok m s'
      /\ erroneous m = false
      /\ (exists gain, gain_db (meas_ampl2 m) (meas_ampl1 m) = inr gain)
      /\ steady s'.

(** The simulated oscilloscope with its script played out and the reading
    [r] left on its screen. *)
Definition settled_on (r : Sim.reading) (s : Sim.scope) : Prop :=
  Sim.screen s = r /\ Sim.script s = [] /\ Sim.healthy s = None.

Definition settled_readings : Sim.scope :=
  {| Sim.last := EmptyString; Sim.screen := Sim.reading_of 100 1 100 1 0;
     Sim.script := []; Sim.healthy := None |}.

(** An oscilloscope, already primed, about to read 0 Vpp on its input
    channel; one about to read 0 Vpp on its output channel; the samples
    they give. *)
Definition dead_input_pass : Sim.scope :=
  Sim.playing [Sim.reading_of 100 0 100 1 0].

Definition dead_input_sample : measurement Q :=
  Build_measurement 100%Q 0%Q 100%Q 1%Q 0%Q.

Definition dead_output_pass : Sim.scope :=
  Sim.playing [Sim.reading_of 100 1 100 0 0].

Definition dead_output_sample : measurement Q :=
  Build_measurement 100%Q 1%Q 100%Q 0%Q 0%Q.

(* ------------------------------------------------------------------ *)
(** *** What a run sends and what it is answered *)
(* ------------------------------------------------------------------ *)

(** The strings written in a stretch of transcript, in order. *)
Definition writes (stretch : list event) : list string :=
  flat_map (fun e =>
              match e with
              | Wrote text => [text]
              | Replied _ _ => []
              end) stretch.

(** The replies given to [query] in a stretch of transcript, in order. *)
Definition replies_to (query : string) (stretch : list event) : list string :=
  flat_map (fun e =>
              match e with
              | Wrote _ => []
              | Replied q reply => if String.eqb q query then [reply] else []
              end) stretch.

(** Commands, each followed by the error query. *)
Definition checked (commands : list string) : list string :=
  flat_map (fun command => [command; error_query]) commands.

(** The commands and queries of [generate_waveform], of [capture_waveform]
    and of the three calls a pass makes, in the order of the source. *)
Definition generator_commands {F : Type} {B : Builtins F} (freq ampl offset : F)
  : list string :=
  [":WGEN:OUTput 1";
   ":WGEN:FUNCtion SIN";
   ":WGEN:VOLTage " ++ fmt3f ampl;
   ":WGEN:FREQuency " ++ fmt3f freq;
   ":WGEN:VOLTage:OFFset " ++ fmt3f offset].

Definition capture_commands : list string :=
  [":SINGLE";
   ":ACQuire:TYPE NORMal";
   ":ACQuire:TYPE?";
   ":DIGitize CHANnel1,CHANnel2";
   ":MEASure:SOURce CHANnel1,CHANnel2";
   ":MEASure:SOURce?";
   ":MEASure:FREQuency CHANnel1";
   ":MEASure:FREQuency? CHANnel1";
   ":MEASure:VPP CHANnel1";
   ":MEASure:VPP? CHANnel1";
   ":MEASure:FREQuency CHANnel2";
   ":MEASure:FREQuency? CHANnel2";
   ":MEASure:VPP CHANnel2";
   ":MEASure:VPP? CHANnel2";
   ":MEASure:PHASe CHANnel2,CHANnel1";
   ":MEASure:PHASe? CHANnel2,CHANnel1"].

Definition pass_commands {F : Type} {N : Float F} {B : Builtins F} (freq : F) : list string :=
  (generator_commands freq (of_Z 1) (of_Z 0) ++ [":AUToscale"] ++ capture_commands)%list.

(** Everything a sweep that returns has written to the instrument: the
    commands of the priming at the start frequency, then those of each
    pass at its driven frequency, every one followed by the error query. *)
Definition sweep_log {F : Type} {N : Float F} {B : Builtins F}
    (start_freq : F) (driven : list F) : list string :=
  flat_map (fun freq => checked (pass_commands freq)) (start_freq :: driven).

(* ------------------------------------------------------------------ *)
(** *** The answers given to [main] *)
(* ------------------------------------------------------------------ *)

(** Standard input opens with three lines that convert to the plan [p]:
    two numbers and an integer. *)
Definition answers {F : Type} {B : Builtins F} {I : IntParser}
    (stdin : list string) (p : plan F) : Prop :=
  exists a b c rest,
    stdin = a :: b :: c :: rest
    /\ float_of_string a = Some (fstart p)
    /\ float_of_string b = Some (fstop p)
    /\ int_of_string c = Some (steps p).

(** A session that is recorded keeps its transcript through the session
    layer. *)
Definition recording_io {S : Type} (IO : VisaIO S) : VisaIO (recorded S) := {|
  Open := fun resource r =>
    Build_recorded (Open resource (inner r)) (last_written r) (transcript r);
  Clear := fun r =>
    Build_recorded (Clear (inner r)) (last_written r) (transcript r);
  set_Timeout := fun ms r =>
    Build_recorded (set_Timeout ms (inner r)) (last_written r) (transcript r)
|}.

(** A Data folder of three files, the second one written by a sweep on
    27 November 2023 at 10:05:03, and its content by name. *)
Definition november_27 : struct_time :=
  {| tm_year := 2023; tm_mon := 11; tm_mday := 27; tm_hour := 10; tm_min := 5; tm_sec := 3 |}.

Definition data_folder : list string :=
  ["notes.txt"; data_file november_27; "Bode_1-2-2024_9-0-0.old.csv"].

Definition read_data_folder (name : string) : option string :=
  if String.eqb name (data_file november_27) then Some roll_off_file
  else if String.eqb name "notes.csv" then Some header_text
  else None.




(* ------------------------------------------------------------------ *)
(** *** The frequencies a loop accumulates *)
(* ------------------------------------------------------------------ *)



(* ------------------------------------------------------------------ *)
(** *** Data with an offset in gain *)
(* ------------------------------------------------------------------ *)

(** The same data with every gain raised by [offset] dB. *)
Definition raised (offset : Q) (a : arrays Q) : arrays Q :=
  Build_arrays (freq_arr a) (phase_arr a) (map (fun g => (g + offset)%Q) (gain_arr a)).

(* ================================================================== *)
(** ** Vocabulary of the statements about doubles *)
(* ================================================================== *)

(* ------------------------------------------------------------------ *)
(** *** The order of the doubles *)
(* ------------------------------------------------------------------ *)

(** Where a double that is no NaN stands among the doubles: below zero or
    above, then by exponent, then by mantissa.  Both zeros stand at the
    same place. *)
Definition rank (x : spec_float) : Z * Z * Z :=
  match x with
  | S754_zero _ => (0, 0, 0)%Z
  | S754_infinity s => (if s then -2 else 2, 0, 0)%Z
  | S754_nan => (3, 0, 0)%Z
  | S754_finite s m e => if s then (-1, - e, Z.neg m)%Z else (1, e, Z.pos m)%Z
  end.

Definition before3 (a b : Z * Z * Z) : Prop :=
  let '(a1, a2, a3) := a in
  let '(b1, b2, b3) := b in
  (a1 < b1 \/ (a1 = b1 /\ (a2 < b2 \/ (a2 = b2 /\ a3 < b3))))%Z.

Definition SF_nan (x : spec_float) : bool :=
  match x with
  | S754_nan => true
  | _ => false
  end.

Definition SF_finite (x : spec_float) : bool :=
  match x with
  | S754_zero _ | S754_finite _ _ _ => true
  | _ => false
  end.

(** The rational a finite double stands for. *)
Definition exact_value (x : float) : Q :=
  match Prim2SF x with
  | S754_finite s m e =>
      ((if s then -1 else 1) * inject_Z (Z.pos m) * 2 ^ e)%Q
  | _ => 0%Q
  end.

(* ------------------------------------------------------------------ *)
(** *** The cutoff search as the program computes it *)
(* ------------------------------------------------------------------ *)

(** What [plot_bode] settles on, with the comparisons and the distances
    [abs(x - (max(gain_arr)-3))] as the program computes them: the
    reference is a gain no gain exceeds, the two lines are the gain and
    the phase at the cutoff index, no gain has a smaller distance than the
    one at the cutoff index, and every earlier gain has a larger one. *)
Definition nearest_as_computed {F : Type} {N : Float F}
    (a : arrays F) (fig : figure F) : Prop :=
  let distance := interactivePlot.distance_to_cutoff (reference_gain_db fig) in
  In (reference_gain_db fig) (gain_arr a)
  /\ (forall g, In g (gain_arr a) -> fleb g (reference_gain_db fig) = true)
  /\ nth_error (gain_arr a) (cutoff_index fig) = Some (cutoff_gain_db fig)
  /\ nth_error (phase_arr a) (cutoff_index fig) = Some (cutoff_phase_deg fig)
  /\ (forall j g,
        nth_error (gain_arr a) j = Some g ->
        fleb (distance (cutoff_gain_db fig)) (distance g) = true)
  /\ (forall j g,
        (j < cutoff_index fig)%nat ->
        nth_error (gain_arr a) j = Some g ->
        fltb (distance (cutoff_gain_db fig)) (distance g) = true).

(** A data file with the gains 0.1, -2.4 and -3.4 dB. *)
Definition tied_file : string :=
  ("100, 1, 100, 1, 0, 0.1" ++ nl
   ++ "200, 1, 200, 1, -10, -2.4" ++ nl
   ++ "300, 1, 300, 1, -45, -3.4" ++ nl)%string.

(* ------------------------------------------------------------------ *)
(** *** Samples in binary64 *)
(* ------------------------------------------------------------------ *)

(** The smallest positive double as input frequency and its double as
    output frequency. *)
Definition faint_doubled_sample : measurement float :=
  Build_measurement 0x1p-1074%float 1%float 0x1p-1073%float 1%float 0%float.

(** 1 kHz in, 2 kHz out. *)
Definition kilohertz_doubled_sample : measurement float :=
  Build_measurement 1000%float 1%float 2000%float 1%float 0%float.

(** -1 Vpp in, -10 Vpp out at 100 Hz. *)
Definition inverted_sample_binary64 : measurement float :=
  Build_measurement 100%float (-1)%float 100%float (-10)%float 180%float.

(** Two negative amplitudes whose quotient underflows to 0. *)
Definition underflowing_sample : measurement float :=
  Build_measurement 100%float (-0x1p1000)%float 100%float (-0x1p-1000)%float 180%float.

(** 10^8 Vpp in, 10^11 Vpp out at 100 Hz. *)
Definition huge_output_sample_binary64 : measurement float :=
  Build_measurement 100%float 100000000%float 100%float 100000000000%float 0%float.

(* ================================================================== *)
(** ** Exact arithmetic: the comparisons as propositions *)
(* ================================================================== *)

Section ExactComparisons.
Local Open Scope Q_scope.

Lemma exact_ltb_true (x y : Q) : fltb x y = true <-> x < y.
Proof.
  simpl. rewrite negb_true_iff. split.
  - intros H. apply Qnot_le_lt. intros Hle.
    apply Qle_bool_iff in Hle. congruence.
  - intros H. destruct (Qle_bool y x) eqn:E; [| reflexivity].
    apply Qle_bool_iff in E. exfalso. apply (Qlt_not_le _ _ H E).
Qed.

Lemma exact_ltb_false (x y : Q) : fltb x y = false <-> y <= x.
Proof.
  simpl. rewrite negb_false_iff. apply Qle_bool_iff.
Qed.

Lemma exact_leb_true (x y : Q) : fleb x y = true <-> x <= y.
Proof. simpl. apply Qle_bool_iff. Qed.

Lemma exact_leb_false (x y : Q) : fleb x y = false <-> y < x.
Proof.
  simpl. split.
  - intros H. apply Qnot_le_lt. intros Hle.
    apply Qle_bool_iff in Hle. congruence.
  - intros H. destruct (Qle_bool x y) eqn:E; [| reflexivity].
    apply Qle_bool_iff in E. exfalso. apply (Qlt_not_le _ _ H E).
Qed.

Lemma exact_eqb_true (x y : Q) : feqb x y = true <-> x == y.
Proof. simpl. apply Qeq_bool_iff. Qed.

Lemma exact_eqb_false (x y : Q) : feqb x y = false <-> ~ x == y.
Proof.
  simpl. split.
  - apply Qeq_bool_neq.
  - intros H. destruct (Qeq_bool x y) eqn:E; [| reflexivity].
    apply Qeq_bool_iff in E. contradiction.
Qed.

Lemma exact_one_and_a_half : one_and_a_half (F := Q) == 3 # 2.
Proof. reflexivity. Qed.

End ExactComparisons.

(* ================================================================== *)
(** ** One pass of the loop *)
(* ================================================================== *)

Section IterationFacts.
Context {F : Type} {N : Float F} {B : Builtins F} {S : Type} {V : Visa S}.
Local Open Scope pyfloat_scope.

Lemma iteration_measured step points st (s s' : S) m :
  measure (curr_freq st) s = Ok m s' ->
  iteration step points st s = lift (after_capture step (banner points st) m) s'.
Proof.
  intros H. unfold iteration, bind. simpl. rewrite H. reflexivity.
Qed.

Lemma iteration_exits step points st (s s' : S) c w :
  measure (curr_freq st) s = SysExit c w s' ->
  iteration step points st s = SysExit c w s'.
Proof.
  intros H. unfold iteration, bind. simpl. rewrite H. reflexivity.
Qed.

Lemma iteration_raises step points st (s s' : S) e :
  measure (curr_freq st) s = Raise e s' ->
  iteration step points st s = Raise e s'.
Proof.
  intros H. unfold iteration, bind. simpl. rewrite H. reflexivity.
Qed.

Lemma erroneous_iff (m : measurement F) :
  erroneous m = true <->
  (meas_freq2 m >? one_and_a_half * meas_freq1 m) = true
  \/ (meas_freq1 m >? ten_e9) = true
  \/ (meas_ampl1 m >? ten_e9) = true.
Proof.
  unfold erroneous. rewrite !orb_true_iff. tauto.
Qed.

Lemma retry_state step (st : locals F) :
  fp (state_of (retry step st)) = fp st
  /\ counter (state_of (retry step st)) = counter st
  /\ error_cnt (state_of (retry step st)) = (error_cnt st + 1)%Z
  /\ curr_freq (state_of (retry step st)) = curr_freq st + of_Z 2.
Proof.
  unfold retry. destruct (error_cnt st + 1 >? 4)%Z; simpl; auto.
Qed.

Lemma retry_control step (st : locals F) :
  (error_cnt st + 1 <= 4)%Z ->
  retry step st =
  Continue (Build_locals (counter st) (error_cnt st + 1) (curr_freq st + of_Z 2) (fp st)
              (stdout st ++ [ErroneousSignal; Retrying (curr_freq st + of_Z 2)])).
Proof.
  intros H. unfold retry.
  destruct (error_cnt st + 1 >? 4)%Z eqn:E; [| reflexivity].
  apply Z.gtb_lt in E. lia.
Qed.

Lemma retry_break step (st : locals F) :
  (4 < error_cnt st + 1)%Z ->
  exists st', retry step st = Break st'
    /\ fp st' = fp st
    /\ In (SuggestedRange (of_Z 100) (curr_freq st + of_Z 2 - step)) (stdout st').
Proof.
  intros H. unfold retry.
  destruct (error_cnt st + 1 >? 4)%Z eqn:E.
  - eexists. split; [reflexivity |]. split; [reflexivity |].
    simpl. apply in_or_app. right. simpl. auto.
  - rewrite Z.gtb_ltb in E. apply Z.ltb_ge in E. lia.
Qed.

Lemma iteration_erroneous step points st (s s' : S) m :
  measure (curr_freq st) s = Ok m s' ->
  erroneous m = true ->
  iteration step points st s = Ok (retry step (banner points st)) s'.
Proof.
  intros Hm He. rewrite (iteration_measured _ _ _ _ Hm).
  unfold after_capture. rewrite He. reflexivity.
Qed.

Lemma iteration_valid step points st (s s' : S) m :
  measure (curr_freq st) s = Ok m s' ->
  erroneous m = false ->
  iteration step points st s = lift (record step (banner points st) m) s'.
Proof.
  intros Hm He. rewrite (iteration_measured _ _ _ _ Hm).
  unfold after_capture. rewrite He. reflexivity.
Qed.

End IterationFacts.

Section ExactClassification.
Local Open Scope Q_scope.

Lemma exact_erroneous_iff (m : measurement Q) :
  erroneous m = true <->
  (3 # 2) * meas_freq1 m < meas_freq2 m
  \/ 10000000000 < meas_freq1 m
  \/ 10000000000 < meas_ampl1 m.
Proof.
  rewrite erroneous_iff, !exact_ltb_true.
  assert (E : fmul one_and_a_half (meas_freq1 m) == (3 # 2) * meas_freq1 m)
    by (simpl; rewrite exact_one_and_a_half; reflexivity).
  rewrite E. reflexivity.
Qed.

Lemma exact_erroneous_false (m : measurement Q) :
  erroneous m = false <->
  meas_freq2 m <= (3 # 2) * meas_freq1 m
  /\ meas_freq1 m <= 10000000000
  /\ meas_ampl1 m <= 10000000000.
Proof.
  split.
  - intros H. repeat split; apply Qnot_lt_le; intros C;
      assert (T : erroneous m = true) by (apply exact_erroneous_iff; auto);
      congruence.
  - intros (H1 & H2 & H3). destruct (erroneous m) eqn:E; [| reflexivity].
    apply exact_erroneous_iff in E. exfalso.
    destruct E as [E | [E | E]]; eapply Qlt_not_le; eauto.
Qed.

End ExactClassification.

(* ================================================================== *)
(** ** The gain of an accepted sample *)
(* ================================================================== *)

Section GainFacts.
Context {F : Type} {N : Float F} {B : Builtins F}.

Lemma gain_db_defined (ampl2 ampl1 : F) :
  feqb ampl1 (of_Z 0) = false ->
  fleb (fdiv ampl2 ampl1) (of_Z 0) = false ->
  gain_db ampl2 ampl1 = inr (fmul (of_Z 20) (log10 (fdiv ampl2 ampl1))).
Proof.
  intros H0 H1. unfold gain_db, py_div, math_log10. rewrite H0, H1. reflexivity.
Qed.

Lemma gain_db_inv (ampl2 ampl1 g : F) :
  gain_db ampl2 ampl1 = inr g ->
  feqb ampl1 (of_Z 0) = false
  /\ fleb (fdiv ampl2 ampl1) (of_Z 0) = false
  /\ g = fmul (of_Z 20) (log10 (fdiv ampl2 ampl1)).
Proof.
  unfold gain_db, py_div, math_log10.
  destruct (feqb ampl1 (of_Z 0)); [discriminate |].
  destruct (fleb (fdiv ampl2 ampl1) (of_Z 0)); [discriminate |].
  intros H. inversion H. auto.
Qed.

Lemma record_defined step (st : locals F) (m : measurement F) :
  feqb (meas_ampl1 m) (of_Z 0) = false ->
  fleb (fdiv (meas_ampl2 m) (meas_ampl1 m)) (of_Z 0) = false ->
  record step st m = inr (Continue (accepted step st m)).
Proof.
  intros H0 H1. unfold record. rewrite (gain_db_defined _ _ H0 H1). reflexivity.
Qed.

Lemma record_inv step (st : locals F) (m : measurement F) c :
  record step st m = inr c ->
  c = Continue (accepted step st m)
  /\ feqb (meas_ampl1 m) (of_Z 0) = false
  /\ fleb (fdiv (meas_ampl2 m) (meas_ampl1 m)) (of_Z 0) = false.
Proof.
  unfold record. destruct (gain_db (meas_ampl2 m) (meas_ampl1 m)) as [e | g] eqn:E;
    [discriminate |].
  apply gain_db_inv in E. destruct E as (H0 & H1 & ->).
  intros H. inversion H. auto.
Qed.

End GainFacts.

Section ExactGain.
Local Open Scope Q_scope.

Lemma exact_negative_ratio (a b : Q) : a < 0 -> b < 0 -> 0 < a / b.
Proof.
  intros Ha Hb.
  assert (Hb' : 0 < - b) by lra.
  assert (Ha' : 0 < - a) by lra.
  assert (E : a / b == (- a) / (- b)) by (field; lra).
  rewrite E. apply Qlt_shift_div_l; lra.
Qed.

End ExactGain.

(* ================================================================== *)
(** ** The cutoff search in exact arithmetic *)
(* ================================================================== *)

Section ExactSearch.
Import interactivePlot.
Local Open Scope Q_scope.
Local Open Scope list_scope.

Lemma max_from_bounds (l : list Q) : forall best,
  best <= max_from best l
  /\ (forall x, In x l -> x <= max_from best l)
  /\ (max_from best l = best \/ In (max_from best l) l).
Proof.
  induction l as [| x r IH]; intros best; simpl.
  - split; [apply Qle_refl |]. split; [intros x [] | left; reflexivity].
  - destruct (negb (Qle_bool x best)) eqn:E.
    + assert (Hlt : best < x) by (apply exact_ltb_true; exact E).
      destruct (IH x) as (H1 & H2 & H3).
      split; [apply Qle_trans with x; [apply Qlt_le_weak; exact Hlt | exact H1] |].
      split.
      * intros y [-> | Hy]; [exact H1 | apply H2; exact Hy].
      * right. destruct H3 as [-> | H3]; [left; reflexivity | right; exact H3].
    + assert (Hle : x <= best) by (apply exact_ltb_false; exact E).
      destruct (IH best) as (H1 & H2 & H3).
      split; [exact H1 |]. split.
      * intros y [<- | Hy]; [apply Qle_trans with best; assumption | apply H2; exact Hy].
      * destruct H3 as [H3 | H3]; [left; exact H3 | right; right; exact H3].
Qed.

Lemma py_max_spec (l : list Q) reference :
  py_max l = Some reference ->
  In reference l /\ forall x, In x l -> x <= reference.
Proof.
  destruct l as [| x r]; simpl; [discriminate |].
  intros H. inversion H as [E]. clear H.
  destruct (max_from_bounds r x) as (H1 & H2 & H3).
  split.
  - destruct H3 as [-> | H3]; [left; reflexivity | right; exact H3].
  - intros y [<- | Hy]; [exact H1 | apply H2; exact Hy].
Qed.

(** The running minimum ends on the first item whose key is the least. *)
Lemma min_from_first (key : Q -> Q) (l : list Q) : forall best,
  exists before after,
    best :: l = before ++ min_from key best l :: after
    /\ (forall x, In x before -> key (min_from key best l) < key x)
    /\ (forall x, In x after -> key (min_from key best l) <= key x).
Proof.
  induction l as [| x r IH]; intros best; simpl.
  - exists [], []. split; [reflexivity |]. split; intros x [].
  - destruct (negb (Qle_bool (key best) (key x))) eqn:E.
    + assert (Hlt : key x < key best) by (apply exact_ltb_true; exact E).
      destruct (IH x) as (before & after & Hsplit & Hb & Ha).
      exists (best :: before), after.
      split; [simpl; rewrite Hsplit; reflexivity |]. split; [| exact Ha].
      intros y [<- | Hy]; [| apply Hb; exact Hy].
      destruct before as [| b0 before'].
      * simpl in Hsplit. injection Hsplit as Hx Hr. rewrite <- Hx. exact Hlt.
      * simpl in Hsplit. injection Hsplit as Hx Hr.
        apply Qlt_trans with (key x); [| exact Hlt].
        apply Hb. left. symmetry. exact Hx.
    + assert (Hle : key best <= key x) by (apply exact_ltb_false; exact E).
      destruct (IH best) as (before & after & Hsplit & Hb & Ha).
      destruct before as [| b0 before'].
      * simpl in Hsplit. injection Hsplit as Hm Hr.
        exists [], (x :: r). split; [simpl; rewrite <- Hm; reflexivity |].
        split; [intros y [] |].
        intros y [<- | Hy].
        -- rewrite <- Hm. exact Hle.
        -- apply Ha. rewrite <- Hr. exact Hy.
      * simpl in Hsplit. injection Hsplit as Hm Hr.
        exists (best :: x :: before'), after.
        split; [simpl; do 2 f_equal; exact Hr |]. split; [| exact Ha].
        assert (Hbest : key (min_from key best r) < key best)
          by (apply Hb; left; symmetry; exact Hm).
        intros y [<- | [<- | Hy]].
        -- exact Hbest.
        -- apply Qlt_le_trans with (key best); assumption.
        -- apply Hb. right. exact Hy.
Qed.

Lemma py_index_spec (v : Q) (l : list Q) : forall i,
  py_index v l = Some i ->
  exists g, nth_error l i = Some g /\ g == v
    /\ forall j x, (j < i)%nat -> nth_error l j = Some x -> ~ x == v.
Proof.
  induction l as [| y r IH]; intros i; simpl; [discriminate |].
  destruct (Qeq_bool y v) eqn:E.
  - intros H. inversion H. subst i. exists y.
    split; [reflexivity |]. split; [apply Qeq_bool_iff; exact E |].
    intros j x Hj. inversion Hj.
  - destruct (py_index v r) as [i' |] eqn:Er; simpl; [| discriminate].
    intros H. inversion H. subst i.
    destruct (IH i' eq_refl) as (g & Hg & Hgv & Hfirst).
    exists g. split; [exact Hg |]. split; [exact Hgv |].
    intros j x Hj Hx. destruct j as [| j'].
    + simpl in Hx. inversion Hx. subst x. apply Qeq_bool_neq. exact E.
    + simpl in Hx. apply (Hfirst j' x); [apply PeanoNat.lt_S_n; exact Hj | exact Hx].
Qed.

Lemma py_index_finds (v : Q) (before after : list Q) :
  exists i, py_index v (before ++ v :: after) = Some i /\ (i <= List.length before)%nat.
Proof.
  induction before as [| y r IH]; simpl.
  - rewrite Qeq_bool_refl. exists O. split; [reflexivity | apply le_n].
  - destruct (Qeq_bool y v).
    + exists O. split; [reflexivity | apply Nat.le_0_l].
    + destruct IH as (i & Hi & Hle). rewrite Hi. simpl.
      exists (Datatypes.S i). split; [reflexivity | apply le_n_S; exact Hle].
Qed.

Lemma off_target_wd reference (x y : Q) : x == y -> off_target reference x == off_target reference y.
Proof. intros E. unfold off_target. rewrite E. reflexivity. Qed.

End ExactSearch.

Section ParsedArrays.
Import interactivePlot.
Context {F : Type} {N : Float F} {B : Builtins F}.
Local Open Scope list_scope.

(** The reader appends to its three arrays together. *)
Lemma parse_lines_lengths (lines : list string) :
  List.length (freq_arr (parse_lines lines)) = List.length (gain_arr (parse_lines lines))
  /\ List.length (phase_arr (parse_lines lines)) = List.length (gain_arr (parse_lines lines)).
Proof.
  induction lines as [| lin rest [IH1 IH2]]; simpl; [split; reflexivity |].
  destruct (parse_line lin) as [[[f1 pd] gain] |]; simpl; [| split; assumption].
  split; f_equal; assumption.
Qed.

End ParsedArrays.

Section ExactAnalysis.
Import interactivePlot.
Local Open Scope Q_scope.
Local Open Scope list_scope.

Lemma exact_analyse (a : arrays Q) :
  gain_arr a <> [] ->
  List.length (freq_arr a) = List.length (gain_arr a) ->
  List.length (phase_arr a) = List.length (gain_arr a) ->
  exists fig, analyse a = inr fig /\ traces fig = a /\ nearest_to_3dB_down a fig.
Proof.
  destruct a as [fr ph ga]. simpl. intros Hne Hfr Hph.
  destruct ga as [| g0 gr]; [contradiction |].
  destruct fr as [| first fr']; [discriminate |].
  unfold analyse. simpl freq_arr. simpl gain_arr. simpl phase_arr.
  simpl last_of. simpl py_max.
  set (reference := max_from g0 gr).
  simpl py_min.
  set (nearest := min_from (distance_to_cutoff reference) g0 gr).
  destruct (min_from_first (distance_to_cutoff reference) gr g0)
    as (before & after & Hsplit & Hbefore & Hafter).
  fold nearest in Hsplit, Hbefore, Hafter.
  destruct (py_index_finds nearest before after) as (i & Hi & Hle).
  rewrite <- Hsplit in Hi.
  replace (py_index _ (g0 :: gr)) with (Some i) by (symmetry; exact Hi).
  destruct (py_index_spec _ _ Hi) as (g & Hg & Hgv & Hfirst).
  rewrite Hg.
  assert (Hlt : (i < List.length ph)%nat).
  { rewrite Hph. apply nth_error_Some. rewrite Hg. discriminate. }
  destruct (nth_error ph i) as [p |] eqn:Hp;
    [| apply nth_error_None in Hp; exfalso; apply (Nat.lt_irrefl i);
       eapply Nat.lt_le_trans; eauto].
  eexists. split; [reflexivity |]. split; [reflexivity |].
  unfold nearest_to_3dB_down. simpl.
  destruct (py_max_spec (g0 :: gr) eq_refl) as [Hin Hmax].
  split; [exact Hin |]. split; [exact Hmax |].
  split; [exact Hg |]. split; [exact Hp |].
  assert (Hkey : off_target reference g == off_target reference nearest)
    by (apply off_target_wd; exact Hgv).
  split.
  - intros j x Hx. rewrite Hkey.
    apply nth_error_In in Hx. rewrite Hsplit in Hx.
    apply in_app_or in Hx. destruct Hx as [Hx | [<- | Hx]].
    + apply Qlt_le_weak. apply (Hbefore _ Hx).
    + apply Qle_refl.
    + apply (Hafter _ Hx).
  - intros j x Hj Hx. rewrite Hkey.
    rewrite Hsplit in Hx.
    rewrite nth_error_app1 in Hx by (eapply Nat.lt_le_trans; eauto).
    apply nth_error_In in Hx. apply (Hbefore _ Hx).
Qed.



End ExactAnalysis.

(* ================================================================== *)
(** ** The loop in exact arithmetic *)
(* ================================================================== *)

Section ExactLoop.
Context {B : Builtins Q}.
Variables (start_freq end_freq : Q) (points : Z).
Hypothesis points_ge_2 : (2 <= points)%Z.
Hypothesis start_lt_end : (start_freq < end_freq)%Q.
Local Open Scope Q_scope.
Local Open Scope list_scope.

Local Abbreviation step := (frequency_step start_freq end_freq points).

Lemma intervals_positive : 0 < inject_Z (points - 1).
Proof.
  change 0 with (inject_Z 0). rewrite <- Zlt_Qlt. lia.
Qed.

Lemma step_positive : 0 < step.
Proof.
  unfold frequency_step. apply Qlt_shift_div_l.
  - apply intervals_positive.
  - lra.
Qed.

Lemma steps_span : inject_Z (points - 1) * step == end_freq - start_freq.
Proof.
  unfold frequency_step. field.
  intros E. pose proof intervals_positive as H. rewrite E in H.
  apply (Qlt_irrefl 0 H).
Qed.

Lemma py_div_step :
  py_div (fsub end_freq start_freq) (of_Z (points - 1)) = inr step.
Proof.
  unfold py_div.
  assert (E : feqb (F := Q) (of_Z (points - 1)) (of_Z 0) = false).
  { apply exact_eqb_false. simpl. intros E.
    pose proof intervals_positive as H. rewrite E in H.
    apply (Qlt_irrefl _ H). }
  rewrite E. reflexivity.
Qed.

(** While the loop runs, fewer rows than points have been written. *)
Lemma on_track_in_loop st :
  on_track start_freq end_freq points st ->
  curr_freq st <= end_freq ->
  (counter st - 1 <= points - 1)%Z.
Proof.
  intros (Hc & He & Hk & Hcurr) Hle.
  rewrite Zle_Qle.
  pose proof step_positive as Hs. pose proof steps_span as Hspan.
  assert (He' : 0 <= inject_Z (error_cnt st))
    by (change 0 with (inject_Z 0); rewrite <- Zle_Qle; exact He).
  rewrite Hcurr in Hle.
  set (K := inject_Z (counter st - 1)) in *.
  set (P := inject_Z (points - 1)) in *.
  set (E := inject_Z (error_cnt st)) in *.
  apply Qnot_lt_le. intros Hlt. nra.
Qed.

(** Once the loop has ended without any error, as many rows as points have
    been written. *)
Lemma on_track_after_loop st :
  on_track start_freq end_freq points st ->
  end_freq < curr_freq st ->
  error_cnt st = 0%Z ->
  (counter st - 1 = points)%Z.
Proof.
  intros (Hc & He & Hk & Hcurr) Hgt H0.
  rewrite H0 in Hcurr.
  pose proof step_positive as Hs. pose proof steps_span as Hspan.
  assert (Hlt : inject_Z (points - 1) < inject_Z (counter st - 1)).
  { rewrite Hcurr in Hgt.
    set (K := inject_Z (counter st - 1)) in *.
    set (P := inject_Z (points - 1)) in *.
    change (inject_Z 0) with 0 in Hgt.
    apply Qnot_le_lt. intros Hle. nra. }
  rewrite <- Zlt_Qlt in Hlt. lia.
Qed.

Lemma on_track_initial : on_track start_freq end_freq points (initial start_freq).
Proof.
  unfold on_track, initial. simpl. repeat split; try lia.
  change (inject_Z 0) with 0. ring.
Qed.

Lemma on_track_accepted st m :
  on_track start_freq end_freq points st ->
  curr_freq st <= end_freq ->
  on_track start_freq end_freq points (accepted step st m).
Proof.
  intros H Hle. pose proof (on_track_in_loop H Hle) as Hk'.
  destruct H as (Hc & He & Hk & Hcurr).
  unfold on_track, accepted. cbn [counter error_cnt curr_freq fp stdout].
  unfold data_rows in *. rewrite filter_app, length_app.
  cbn [filter is_row row_of List.length].
  repeat split; try lia.
  change (fadd (curr_freq st) step) with (curr_freq st + step).
  rewrite Hcurr.
  replace (counter st + 1 - 1)%Z with ((counter st - 1) + 1)%Z by lia.
  rewrite inject_Z_plus. change (inject_Z 1) with 1. ring.
Qed.

Lemma on_track_retry st st' :
  on_track start_freq end_freq points st ->
  retry step st = Continue st' ->
  on_track start_freq end_freq points st' /\ (error_cnt st' <= 4)%Z.
Proof.
  intros (Hc & He & Hk & Hcurr) Hr.
  unfold retry in Hr.
  destruct (error_cnt st + 1 >? 4)%Z eqn:E; [discriminate |].
  rewrite Z.gtb_ltb in E. apply Z.ltb_ge in E.
  inversion Hr. subst st'. clear Hr.
  unfold on_track. cbn [counter error_cnt curr_freq fp stdout].
  split; [| exact E].
  repeat split; try lia.
  change (fadd (curr_freq st) (of_Z 2)) with (curr_freq st + inject_Z 2).
  rewrite Hcurr, inject_Z_plus. change (inject_Z 1) with 1.
  change (inject_Z 2) with 2. ring.
Qed.

End ExactLoop.

(* ================================================================== *)
(** ** The ways a pass can end *)
(* ================================================================== *)

Section PassCases.
Context {F : Type} {N : Float F} {B : Builtins F} {S : Type} {V : Visa S}.

Lemma iteration_cases step points st (s : S) :
  pass_case step points st s (iteration step points st s).
Proof.
  destruct (measure (curr_freq st) s) as [m s' | c w s' | e s'] eqn:Hm.
  - destruct (erroneous m) eqn:He.
    + rewrite (iteration_erroneous _ _ _ _ Hm He). eapply pass_retry; eauto.
    + rewrite (iteration_valid _ _ _ _ Hm He).
      unfold record.
      destruct (gain_db (meas_ampl2 m) (meas_ampl1 m)) as [e | g] eqn:Hg.
      * simpl. eapply pass_raise_gain; eauto.
      * apply gain_db_inv in Hg. destruct Hg as (_ & _ & ->).
        simpl. eapply pass_record; eauto.
  - rewrite (iteration_exits _ _ _ _ Hm). apply pass_exit. exact Hm.
  - rewrite (iteration_raises _ _ _ _ Hm). apply pass_raise_measure. exact Hm.
Qed.

Lemma while_loop_unfold fuel step end_freq points (st : locals F) (s : S) :
  while_loop (Datatypes.S fuel) step end_freq points st s =
  if fleb (curr_freq st) end_freq then
    match iteration step points st s with
    | Ok (Continue st') s' => while_loop fuel step end_freq points st' s'
    | Ok (Break st') s' => Some (Ok st' s')
    | SysExit c w s' => Some (SysExit c w s')
    | Raise e s' => Some (Raise e s')
    end
  else Some (Ok st s).
Proof. reflexivity. Qed.

Lemma sweep_frequency_unfold fuel (start_freq end_freq : F) (points : Z) (s : S) :
  sweep_frequency fuel start_freq end_freq points s =
  match py_div (fsub end_freq start_freq) (of_Z (points - 1)) with
  | inl e => Some (Raise e s)
  | inr step =>
      match measure start_freq s with
      | Ok _ s1 =>
          match while_loop fuel step end_freq points (initial start_freq) s1 with
          | Some (Ok st s2) => Some (Ok (finish st) s2)
          | Some (SysExit c w s2) => Some (SysExit c w s2)
          | Some (Raise e s2) => Some (Raise e s2)
          | None => None
          end
      | SysExit c w s1 => Some (SysExit c w s1)
      | Raise e s1 => Some (Raise e s1)
      end
  end.
Proof. reflexivity. Qed.

Lemma gain_is_20_log10_accepted step (st : locals F) m :
  Forall gain_is_20_log10 (fp st) ->
  Forall gain_is_20_log10 (fp (accepted step st m)).
Proof.
  intros H. unfold accepted. simpl. apply Forall_app. split; [exact H |].
  constructor; [reflexivity | constructor].
Qed.

End PassCases.

Section ExactSweep.
Context {B : Builtins Q} {S : Type} {V : Visa S}.
Variables (start_freq end_freq : Q) (points : Z).
Hypothesis points_ge_2 : (2 <= points)%Z.
Hypothesis start_lt_end : (start_freq < end_freq)%Q.
Local Open Scope Q_scope.
Local Open Scope list_scope.

Local Abbreviation step := (frequency_step start_freq end_freq points).

Lemma on_track_retry_state st :
  on_track start_freq end_freq points st ->
  on_track start_freq end_freq points (state_of (retry step st)).
Proof.
  intros (Hc & He & Hk & Hcurr).
  destruct (retry_state step st) as (Hfp & Hcnt & Herr & Hfreq).
  unfold on_track. rewrite Hfp, Hcnt, Herr, Hfreq.
  repeat split; try lia.
  change (fadd (curr_freq st) (of_Z 2)) with (curr_freq st + inject_Z 2).
  rewrite Hcurr, inject_Z_plus. change (inject_Z 1) with 1.
  change (inject_Z 2) with 2. ring.
Qed.

Lemma while_loop_terminates (fuel : nat) : forall (st : locals Q) (s : S),
  on_track start_freq end_freq points st ->
  (error_cnt st <= 4)%Z ->
  (passes_left points st < Z.of_nat fuel)%Z ->
  exists r, while_loop fuel step end_freq points st s = Some r.
Proof.
  induction fuel as [| fuel IH]; intros st s Htrack Herr Hfuel.
  - exfalso. destruct Htrack as (_ & _ & Hk & _). unfold passes_left in Hfuel. lia.
  - rewrite while_loop_unfold.
    destruct (fleb (curr_freq st) end_freq) eqn:Hle; [| eauto].
    apply exact_leb_true in Hle.
    pose proof (on_track_in_loop points_ge_2 start_lt_end Htrack Hle) as Hrows.
    destruct (iteration_cases step points st s) as
      [c w s' Hm | e s' Hm | m e s' Hm He Hg | m s' Hm He | m s' Hm He]; eauto.
    + destruct (retry step (banner points st)) as [st1 | st1] eqn:Hr; [| eauto].
      destruct (on_track_retry (st := banner points st) Htrack Hr)
        as [Htrack1 Herr1].
      apply IH; try assumption.
      pose proof (retry_state step (banner points st)) as (_ & Hcnt & Herr' & _).
      rewrite Hr in Hcnt, Herr'. simpl in Hcnt, Herr'.
      unfold passes_left in *. rewrite Hcnt, Herr'. simpl. lia.
    + apply IH.
      * apply (on_track_accepted points_ge_2 start_lt_end (st := banner points st)); assumption.
      * exact Herr.
      * unfold passes_left in *. simpl. lia.
Qed.

(** Where the loop stands when it has ended. *)
Lemma while_loop_ends (fuel : nat) : forall (st st' : locals Q) (s s' : S),
  on_track start_freq end_freq points st ->
  Forall gain_is_20_log10 (fp st) ->
  while_loop fuel step end_freq points st s = Some (Ok st' s') ->
  on_track start_freq end_freq points st'
  /\ Forall gain_is_20_log10 (fp st')
  /\ ((error_cnt st' <= 4)%Z -> end_freq < curr_freq st').
Proof.
  induction fuel as [| fuel IH]; intros st st' s s' Htrack Hgain Hrun; [discriminate |].
  rewrite while_loop_unfold in Hrun.
  destruct (fleb (curr_freq st) end_freq) eqn:Hle.
  - apply exact_leb_true in Hle.
    destruct (iteration_cases step points st s) as
      [c w s1 Hm | e s1 Hm | m e s1 Hm He Hg | m s1 Hm He | m s1 Hm He];
      try discriminate.
    + pose proof (on_track_retry_state (st := banner points st) Htrack) as Htrack1.
      pose proof (retry_state step (banner points st)) as (Hfp & _ & Herr' & _).
      destruct (retry step (banner points st)) as [st1 | st1] eqn:Hr;
        cbn [state_of] in *.
      * apply (IH st1 st' s1 s'); try assumption. rewrite Hfp. exact Hgain.
      * inversion Hrun. subst st' s'. split; [exact Htrack1 |].
        split; [rewrite Hfp; exact Hgain |].
        intros H4. exfalso. rewrite Herr' in H4.
        rewrite (retry_control step (banner points st) H4) in Hr. discriminate.
    + apply (IH (accepted step (banner points st) m) st' s1 s'); try assumption.
      * apply (on_track_accepted points_ge_2 start_lt_end (st := banner points st)); assumption.
      * apply (gain_is_20_log10_accepted step (banner points st)). exact Hgain.
  - inversion Hrun. subst st' s'. split; [exact Htrack |]. split; [exact Hgain |].
    intros _. apply exact_leb_false. exact Hle.
Qed.

Lemma sorted_snoc (l : list Q) (x : Q) :
  StronglySorted Qlt l ->
  Forall (fun f => f < x) l ->
  StronglySorted Qlt (l ++ [x]).
Proof.
  induction l as [| y l IH]; intros Hs Hall; simpl.
  - repeat constructor.
  - inversion Hs as [| ? ? Hs' Hy]. inversion Hall as [| ? ? Hyx Hall']. subst.
    constructor; [apply IH; assumption |].
    apply Forall_app. split; [exact Hy | repeat constructor; exact Hyx].
Qed.

Lemma ascending_initial : ascending (initial start_freq).
Proof. unfold ascending. simpl. repeat constructor. Qed.

(** A pass that goes on from [st] to a higher frequency [st'], with one
    more row or one more error, keeps the passes ascending. *)
Lemma ascending_pass (st st' : locals Q) (said : list (message Q)) :
  ascending st ->
  stdout st' = stdout st ++ StepBanner (counter st) points (curr_freq st) :: said ->
  driven_freqs said = [] ->
  curr_freq st < curr_freq st' ->
  (counter st' - 1 + error_cnt st' = counter st - 1 + error_cnt st + 1)%Z ->
  ascending st'.
Proof.
  intros (Hs & Hall & Hn) Hout Hsaid Hlt Hcount. unfold ascending.
  assert (Hd : driven_freqs (stdout st') = driven_freqs (stdout st) ++ [curr_freq st]).
  { rewrite Hout. unfold driven_freqs in *. rewrite flat_map_app. simpl.
    rewrite Hsaid. reflexivity. }
  rewrite Hd. split; [apply sorted_snoc; assumption |]. split.
  - apply Forall_app. split.
    + eapply Forall_impl; [| exact Hall]. intros f Hf. simpl in Hf.
      apply Qlt_trans with (curr_freq st); assumption.
    + repeat constructor. exact Hlt.
  - rewrite length_app. simpl. lia.
Qed.

Lemma ascending_retry st :
  ascending st -> ascending (state_of (retry step (banner points st))).
Proof.
  intros H. unfold retry.
  destruct (error_cnt (banner points st) + 1 >? 4)%Z.
  - apply ascending_pass
      with (st := st)
           (said := [ErroneousSignal; Retrying (fadd (curr_freq st) (of_Z 2));
                     UnableToRead (fadd (curr_freq st) (of_Z 2)); ModifyRange;
                     SuggestedRange (of_Z 100)
                       (fsub (fadd (curr_freq st) (of_Z 2)) step)]);
      cbn [state_of say banner stdout counter error_cnt curr_freq fp].
    + exact H.
    + rewrite <- !app_assoc. reflexivity.
    + reflexivity.
    + change (fadd (curr_freq st) (of_Z 2)) with (curr_freq st + 2). lra.
    + lia.
  - apply ascending_pass
      with (st := st)
           (said := [ErroneousSignal; Retrying (fadd (curr_freq st) (of_Z 2))]);
      cbn [state_of say banner stdout counter error_cnt curr_freq fp].
    + exact H.
    + rewrite <- !app_assoc. reflexivity.
    + reflexivity.
    + change (fadd (curr_freq st) (of_Z 2)) with (curr_freq st + 2). lra.
    + lia.
Qed.

Lemma ascending_accepted st m :
  ascending st -> ascending (accepted step (banner points st) m).
Proof.
  intros H.
  apply ascending_pass with (st := st) (said := []);
    cbn [accepted banner say stdout counter error_cnt curr_freq fp].
  - exact H.
  - reflexivity.
  - reflexivity.
  - change (fadd (curr_freq st) step) with (curr_freq st + step).
    pose proof (step_positive points_ge_2 start_lt_end). lra.
  - lia.
Qed.

(** The passes of a loop that has ended were driven at ascending
    frequencies. *)
Lemma while_loop_ascending (fuel : nat) : forall (st st' : locals Q) (s s' : S),
  ascending st ->
  while_loop fuel step end_freq points st s = Some (Ok st' s') ->
  ascending st'.
Proof.
  induction fuel as [| fuel IH]; intros st st' s s' Hst Hrun; [discriminate |].
  rewrite while_loop_unfold in Hrun.
  destruct (fleb (curr_freq st) end_freq).
  - destruct (iteration_cases step points st s) as
      [c w s1 Hm | e s1 Hm | m e s1 Hm He Hg | m s1 Hm He | m s1 Hm He];
      try discriminate.
    + pose proof (ascending_retry Hst) as Hst1.
      destruct (retry step (banner points st)) as [st1 | st1]; cbn [state_of] in Hst1.
      * apply (IH st1 st' s1 s'); assumption.
      * inversion Hrun. subst. exact Hst1.
    + apply (IH (accepted step (banner points st) m) st' s1 s'); [| exact Hrun].
      apply ascending_accepted. exact Hst.
  - inversion Hrun. subst. exact Hst.
Qed.

End ExactSweep.

Section ExactReachable.
Context {B : Builtins Q}.
Variables (start_freq end_freq : Q) (points : Z).
Hypothesis points_ge_2 : (2 <= points)%Z.
Hypothesis start_lt_end : (start_freq < end_freq)%Q.

Lemma reachable_on_track st :
  reachable start_freq end_freq (frequency_step start_freq end_freq points) st ->
  on_track start_freq end_freq points st.
Proof.
  induction 1 as [| pts st st' m Hreach IH Hle Hpass].
  - apply on_track_initial. exact points_ge_2.
  - unfold after_capture in Hpass. destruct (erroneous m).
    + inversion Hpass as [Hr].
      apply (on_track_retry (points := points) (st := banner pts st) IH Hr).
    + apply record_inv in Hpass. destruct Hpass as (Hc & _ & _).
      inversion Hc. subst st'.
      apply (on_track_accepted points_ge_2 start_lt_end (st := banner pts st)).
      * exact IH.
      * apply exact_leb_true. exact Hle.
Qed.

End ExactReachable.

(* ================================================================== *)
(** ** Text of the data file: splitting what was joined *)
(* ================================================================== *)

Section TextFacts.
Local Open Scope string_scope.


Lemma mentions_app c (a b : string) :
  mentions c (a ++ b) = mentions c a || mentions c b.
Proof.
  induction a as [| x a IH]; simpl; [reflexivity |].
  rewrite IH, orb_assoc. reflexivity.
Qed.











Lemma header_fields :
  split_comma_space (strip_nl header_text) =
  ["CH1_FREQ [Hz]"; "CH1_AMPL [Vpp]"; "CH2_FREQ [Hz]"; "CH2_AMPL [Vpp]";
   "PHASE_DIFF [Deg]"; "GAIN [dB]"].
Proof. reflexivity. Qed.


End TextFacts.

(* ================================================================== *)
(** ** Reading back what the sweep wrote *)
(* ================================================================== *)

Section RoundTrip.
Context {F : Type} {B : Builtins F}.
Local Open Scope string_scope.

Hypothesis header_is_no_number : float_of_string "CH1_FREQ [Hz]" = None.


Lemma interactive_parse_header :
  interactivePlot.parse_line header_text = None.
Proof.
  unfold interactivePlot.parse_line. rewrite header_fields.
  cbn [interactivePlot.map_float]. rewrite header_is_no_number. reflexivity.
Qed.




End RoundTrip.

Section FileShape.
Context {F : Type} {N : Float F} {B : Builtins F} {S : Type} {V : Visa S}.
Local Open Scope list_scope.

Lemma header_then_rows_initial (start_freq : F) :
  header_then_rows (initial start_freq).
Proof. exists []. repeat split. Qed.

Lemma header_then_rows_retry step (st : locals F) :
  header_then_rows st -> header_then_rows (state_of (retry step st)).
Proof.
  intros (body & Hfp & Hrows & Hcount).
  destruct (retry_state step st) as (Hfp' & Hcnt' & _ & _).
  exists body. rewrite Hfp', Hcnt'. auto.
Qed.

Lemma header_then_rows_accepted step (st : locals F) m :
  header_then_rows st -> header_then_rows (accepted step st m).
Proof.
  intros (body & Hfp & Hrows & Hcount).
  exists (body ++ [row_of m]). unfold accepted. cbn [fp counter].
  rewrite Hfp, forallb_app, Hrows, length_app. cbn [List.length].
  repeat split. lia.
Qed.

Lemma while_loop_file (fuel : nat) step end_freq points :
  forall (st st' : locals F) (s s' : S),
    header_then_rows st ->
    while_loop fuel step end_freq points st s = Some (Ok st' s') ->
    header_then_rows st'.
Proof.
  induction fuel as [| fuel IH]; intros st st' s s' Hst Hrun; [discriminate |].
  rewrite while_loop_unfold in Hrun.
  destruct (fleb (curr_freq st) end_freq).
  - destruct (iteration_cases step points st s) as
      [c w s1 Hm | e s1 Hm | m e s1 Hm He Hg | m s1 Hm He | m s1 Hm He];
      try discriminate.
    + pose proof (header_then_rows_retry step (st := banner points st) Hst) as Hst1.
      destruct (retry step (banner points st)) as [st1 | st1]; cbn [state_of] in Hst1.
      * apply (IH st1 st' s1 s'); assumption.
      * inversion Hrun. subst. exact Hst1.
    + apply (IH (accepted step (banner points st) m) st' s1 s'); [| exact Hrun].
      apply (header_then_rows_accepted step (st := banner points st)). exact Hst.
  - inversion Hrun. subst. exact Hst.
Qed.

Lemma sweep_frequency_file fuel start_freq end_freq points (s s' : S) out :
  sweep_frequency fuel start_freq end_freq points s = Some (Ok out s') ->
  header_then_rows (fst out) /\ snd out = plot_bode (file_text (fp (fst out))).
Proof.
  unfold sweep_frequency.
  destruct (py_div (fsub end_freq start_freq) (of_Z (points - 1))) as [e | step];
    [discriminate |].
  destruct (bind (generate_waveform_at start_freq)
              (fun _ => bind autoscale (fun _ => capture_waveform)) s)
    as [m s1 | c w s1 | e s1]; try discriminate.
  destruct (while_loop fuel step end_freq points (initial start_freq) s1)
    as [[st s2 | c w s2 | e s2] |] eqn:Hrun; try discriminate.
  intros H. inversion H. subst out s'. clear H.
  split; [| reflexivity].
  apply (while_loop_file _ _ _ _ _ (header_then_rows_initial start_freq)) in Hrun.
  destruct Hrun as (body & Hfp & Hrows & Hcount).
  exists body. auto.
Qed.

End FileShape.

(* ================================================================== *)
(** ** Transport errors: the transcript of a run *)
(* ================================================================== *)

Section Transcript.
Context {S : Type} {V : Visa S}.
Local Open Scope list_scope.

Lemma quiet_app (a b : list event) : quiet a -> quiet b -> quiet (a ++ b).
Proof. intros Ha Hb. apply Forall_app. split; assumption. Qed.

Lemma quiet_nil : quiet [].
Proof. constructor. Qed.

Lemma related_ret {A : Type} (a : A) : related (S := S) (ret a) (ret a).
Proof.
  intros r. simpl. repeat split. exists []. rewrite app_nil_r. split; [reflexivity | apply quiet_nil].
Qed.

Lemma related_raise {A : Type} (e : exn) : related (S := S) (A := A) (raise e) (raise e).
Proof.
  intros r. simpl. repeat split. exists []. rewrite app_nil_r. split; [reflexivity | apply quiet_nil].
Qed.

Lemma related_bind {A C : Type} (m1 : M S A) (m2 : M (recorded S) A)
    (k1 : A -> M S C) (k2 : A -> M (recorded S) C) :
  related m1 m2 ->
  (forall a, related (k1 a) (k2 a)) ->
  related (bind m1 k1) (bind m2 k2).
Proof.
  intros Hm Hk r. unfold bind. specialize (Hm r).
  destruct (m1 (inner r)) as [a s1 | c w s1 | e s1];
    destruct (m2 r) as [a' r1 | c' w' r1 | e' r1]; simpl in Hm; try contradiction.
  - destruct Hm as (<- & Hin & ext1 & Hext1 & Hq1).
    specialize (Hk a r1). rewrite Hin in Hk.
    destruct (k1 a s1) as [b s2 | c w s2 | e s2];
      destruct (k2 a r1) as [b' r2 | c' w' r2 | e' r2]; simpl in Hk |- *;
      try contradiction.
    + destruct Hk as (Hb & Hin2 & ext2 & Hext2 & Hq2).
      repeat split; try assumption.
      exists (ext1 ++ ext2). rewrite Hext2, Hext1, app_assoc.
      split; [reflexivity | apply quiet_app; assumption].
    + destruct Hk as (Hc & Hc' & Hw & Hin2 & ext2 & Hext2 & Hfault).
      repeat split; try assumption.
      exists (ext1 ++ ext2). rewrite Hext2, Hext1, app_assoc.
      split; [reflexivity |].
      destruct Hfault as (before & command & answer & reply & Hs & Hq & Ha & Hr & Hwhy).
      exists (ext1 ++ before), command, answer, reply.
      rewrite Hs, app_assoc. repeat split; try assumption.
      apply quiet_app; assumption.
    + destruct Hk as (He & Hin2 & ext2 & Hext2 & Hq2).
      repeat split; try assumption.
      exists (ext1 ++ ext2). rewrite Hext2, Hext1, app_assoc.
      split; [reflexivity | apply quiet_app; assumption].
  - exact Hm.
  - exact Hm.
Qed.

Lemma related_do_command (command : string) :
  related (do_command (V := V) command) (do_command (V := recording V) command).
Proof.
  intros r. unfold do_command, bind, check_instrument_errors.
  cbn [WriteString ReadString recording inner last_written transcript].
  destruct (ReadString (WriteString ":SYSTem:ERRor?" (WriteString command (inner r))))
    as [reply s2].
  destruct reply as [| c reply'].
  - simpl. repeat split.
    exists [Wrote command; Wrote error_query; Replied error_query EmptyString].
    split; [rewrite <- !app_assoc; reflexivity |].
    exists [], command, [], EmptyString. repeat split; auto. apply quiet_nil.
  - destruct (startswith "+0," (String c reply')) eqn:Hok; simpl.
    + repeat split.
      exists [Wrote command; Wrote error_query; Replied error_query (String c reply')].
      split; [rewrite <- !app_assoc; reflexivity |].
      repeat constructor. intros _. exact Hok.
    + repeat split.
      exists [Wrote command; Wrote error_query; Replied error_query (String c reply')].
      split; [rewrite <- !app_assoc; reflexivity |].
      exists [], command, [], (String c reply'). repeat split; auto. apply quiet_nil.
Qed.

End Transcript.

Section TranscriptOfTheSweep.
Context {F : Type} {N : Float F} {B : Builtins F} {S : Type} {V : Visa S}.
Local Open Scope list_scope.

(** A run that agrees from a later point of the transcript agrees from an
    earlier one, when the stretch between the two is quiet. *)
Lemma run_agrees_from {A : Type} (r r1 : recorded S) (stretch : list event)
    (plain : result S A) (rec : result (recorded S) A) :
  transcript r1 = transcript r ++ stretch ->
  quiet stretch ->
  run_agrees r1 plain rec ->
  run_agrees r plain rec.
Proof.
  intros Ht Hq H.
  destruct plain as [a s1 | c w s1 | e s1]; destruct rec as [a' r2 | c' w' r2 | e' r2];
    simpl in H |- *; try contradiction.
  - destruct H as (Ha & Hin & ext & Hext & Hq2). repeat split; try assumption.
    exists (stretch ++ ext). rewrite Hext, Ht, app_assoc.
    split; [reflexivity | apply quiet_app; assumption].
  - destruct H as (Hc & Hc' & Hw & Hin & ext & Hext & Hfault).
    repeat split; try assumption.
    exists (stretch ++ ext). rewrite Hext, Ht, app_assoc. split; [reflexivity |].
    destruct Hfault as (before & command & answer & reply & Hs & Hqb & Ha & Hr & Hwhy).
    exists (stretch ++ before), command, answer, reply.
    rewrite Hs, app_assoc. repeat split; try assumption.
    apply quiet_app; assumption.
  - destruct H as (He & Hin & ext & Hext & Hq2). repeat split; try assumption.
    exists (stretch ++ ext). rewrite Hext, Ht, app_assoc.
    split; [reflexivity | apply quiet_app; assumption].
Qed.

Lemma related_do_query_string (query : string) :
  query <> error_query ->
  related (do_query_string (V := V) query) (do_query_string (V := recording V) query).
Proof.
  intros Hne r. unfold do_query_string, bind, ret, check_instrument_errors.
  cbn [WriteString ReadString recording inner last_written transcript].
  destruct (ReadString (WriteString query (inner r))) as [answer s1].
  cbn [inner last_written transcript].
  destruct (ReadString (WriteString ":SYSTem:ERRor?" s1)) as [reply s2].
  assert (Hanswer : quiet [Wrote query; Replied query answer]).
  { repeat constructor. intros E. contradiction. }
  destruct reply as [| c reply'].
  - simpl. repeat split.
    exists [Wrote query; Replied query answer; Wrote error_query;
            Replied error_query EmptyString].
    split; [rewrite <- !app_assoc; reflexivity |].
    exists [], query, [Replied query answer], EmptyString.
    repeat split; eauto. apply quiet_nil.
  - destruct (startswith "+0," (String c reply')) eqn:Hok; simpl.
    + repeat split.
      exists [Wrote query; Replied query answer; Wrote error_query;
              Replied error_query (String c reply')].
      split; [rewrite <- !app_assoc; reflexivity |].
      repeat constructor.
      * intros E. contradiction.
      * intros _. exact Hok.
    + repeat split.
      exists [Wrote query; Replied query answer; Wrote error_query;
              Replied error_query (String c reply')].
      split; [rewrite <- !app_assoc; reflexivity |].
      exists [], query, [Replied query answer], (String c reply').
      repeat split; eauto. apply quiet_nil.
Qed.

Lemma related_lift {A : Type} (x : exn + A) : related (S := S) (lift x) (lift x).
Proof.
  destruct x as [e | a]; intros r; simpl; repeat split;
    exists []; rewrite app_nil_r; (split; [reflexivity | apply quiet_nil]).
Qed.

Lemma related_py_float (qresult : string) :
  related (S := S) (py_float qresult) (py_float qresult).
Proof.
  unfold py_float. destruct (float_of_string qresult); [apply related_ret | apply related_raise].
Qed.

Lemma related_autoscale :
  related (autoscale (V := V)) (autoscale (V := recording V)).
Proof. unfold autoscale. apply related_do_command. Qed.

Lemma related_generate_waveform (freq ampl offset : F) :
  related (generate_waveform (V := V) freq ampl offset)
          (generate_waveform (V := recording V) freq ampl offset).
Proof.
  unfold generate_waveform.
  repeat first
    [ apply related_do_command
    | apply related_do_query_string; discriminate
    | apply related_py_float
    | apply related_lift
    | apply related_ret
    | apply related_bind; [| intros ?] ].
Qed.

Lemma related_capture_waveform :
  related (capture_waveform (V := V)) (capture_waveform (V := recording V)).
Proof.
  unfold capture_waveform.
  repeat first
    [ apply related_do_command
    | apply related_do_query_string; discriminate
    | apply related_py_float
    | apply related_lift
    | apply related_ret
    | apply related_bind; [| intros ?] ].
Qed.

Lemma related_measure (freq : F) :
  related (measure (V := V) freq) (measure (V := recording V) freq).
Proof.
  unfold measure, generate_waveform_at.
  apply related_bind; [apply related_generate_waveform | intros _].
  apply related_bind; [apply related_autoscale | intros _].
  apply related_capture_waveform.
Qed.

Lemma related_iteration step points (st : locals F) :
  related (iteration (V := V) step points st) (iteration (V := recording V) step points st).
Proof.
  unfold iteration.
  apply related_bind; [apply related_measure | intros m]. apply related_lift.
Qed.

Lemma runs_agree_while_loop (fuel : nat) step end_freq points :
  forall (st : locals F) (r : recorded S),
    runs_agree r
      (while_loop (V := V) fuel step end_freq points st (inner r))
      (while_loop (V := recording V) fuel step end_freq points st r).
Proof.
  induction fuel as [| fuel IH]; intros st r; [exact I |].
  rewrite !while_loop_unfold.
  destruct (fleb (curr_freq st) end_freq).
  - pose proof (related_iteration step points st r) as H.
    destruct (iteration (V := V) step points st (inner r)) as [c s1 | c w s1 | e s1];
      destruct (iteration (V := recording V) step points st r) as [c' r1 | c' w' r1 | e' r1];
      simpl in H; try contradiction.
    + destruct H as (<- & Hin & ext & Hext & Hq).
      destruct c as [st1 | st1].
      * specialize (IH st1 r1). rewrite Hin in IH.
        destruct (while_loop (V := V) fuel step end_freq points st1 s1) as [p |];
          destruct (while_loop (V := recording V) fuel step end_freq points st1 r1) as [q |];
          simpl in IH |- *; try contradiction; [| exact I].
        eapply run_agrees_from; eauto.
      * simpl. repeat split; try assumption. exists ext. split; assumption.
    + exact H.
    + exact H.
  - simpl. repeat split. exists []. rewrite app_nil_r.
    split; [reflexivity | apply quiet_nil].
Qed.

Lemma runs_agree_sweep_frequency (fuel : nat) (start_freq end_freq : F) (points : Z) (s : S) :
  runs_agree (fresh s)
    (sweep_frequency (V := V) fuel start_freq end_freq points s)
    (sweep_frequency (V := recording V) fuel start_freq end_freq points (fresh s)).
Proof.
  rewrite !sweep_frequency_unfold.
  destruct (py_div (fsub end_freq start_freq) (of_Z (points - 1))) as [e | step].
  - simpl. repeat split. exists []. split; [reflexivity | apply quiet_nil].
  - pose proof (related_measure start_freq (fresh s)) as Hprime.
    cbn [fresh inner] in Hprime.
    destruct (measure (V := V) start_freq s) as [m s1 | c w s1 | e s1];
      destruct (measure (V := recording V) start_freq (fresh s))
      as [m' r1 | c' w' r1 | e' r1];
      simpl in Hprime; try contradiction.
    + destruct Hprime as (_ & Hin & ext & Hext & Hq).
      pose proof (runs_agree_while_loop fuel step end_freq points (initial start_freq) r1)
        as Hloop.
      rewrite Hin in Hloop.
      destruct (while_loop (V := V) fuel step end_freq points (initial start_freq) s1)
        as [p |];
        destruct (while_loop (V := recording V) fuel step end_freq points
                    (initial start_freq) r1) as [q |];
        simpl in Hloop |- *; try contradiction; [| exact I].
      assert (Hfrom : run_agrees (fresh s) p q)
        by (apply run_agrees_from with (r1 := r1) (stretch := ext);
            [exact Hext | exact Hq | exact Hloop]).
      destruct p as [st s2 | c w s2 | e s2]; destruct q as [st' r2 | c' w' r2 | e' r2];
        simpl in Hfrom |- *; try contradiction.
      * destruct Hfrom as (<- & Hrest). split; [reflexivity | exact Hrest].
      * exact Hfrom.
      * exact Hfrom.
    + exact Hprime.
    + exact Hprime.
Qed.

End TranscriptOfTheSweep.

(* ================================================================== *)
(** ** The books of the loop, in any arithmetic *)
(* ================================================================== *)

Section Tally.
Context {F : Type} {N : Float F} {B : Builtins F} {S : Type} {V : Visa S}.
Local Open Scope list_scope.

Lemma driven_freqs_app (a b : list (message F)) :
  driven_freqs (a ++ b) = driven_freqs a ++ driven_freqs b.
Proof. unfold driven_freqs. apply flat_map_app. Qed.

Lemma tally_initial (start_freq : F) : tally_in_loop (initial start_freq).
Proof. unfold tally_in_loop, passes, rows, gave_up. simpl. repeat split; lia. Qed.

Lemma tally_accepted step points (st : locals F) m :
  tally_in_loop st -> tally_in_loop (accepted step (banner points st) m).
Proof.
  unfold tally_in_loop, passes, rows, gave_up, accepted, banner, say, data_rows.
  cbn [counter error_cnt curr_freq fp stdout].
  intros (Hp & He & Hg).
  rewrite driven_freqs_app, existsb_app, filter_app, !length_app, Hg.
  cbn [driven_freqs flat_map filter is_row row_of existsb is_abort List.length app orb].
  repeat split; lia.
Qed.

Lemma tally_retry step points (st : locals F) :
  tally_in_loop st ->
  match retry step (banner points st) with
  | Continue st' => tally_in_loop st'
  | Break st' => tally_at_end st' /\ error_cnt st' = 5%Z
  end.
Proof.
  unfold tally_in_loop, tally_at_end, passes, rows, gave_up, retry, banner, say, data_rows.
  cbn [counter error_cnt curr_freq fp stdout].
  intros (Hp & He & Hg).
  destruct (error_cnt st + 1 >? 4)%Z eqn:E.
  - apply Z.gtb_lt in E.
    cbn [counter error_cnt curr_freq fp stdout].
    rewrite !driven_freqs_app, !existsb_app, !length_app, Hg.
    cbn [driven_freqs flat_map existsb is_abort List.length app orb].
    repeat split; try lia.
  - rewrite Z.gtb_ltb in E. apply Z.ltb_ge in E.
    cbn [counter error_cnt curr_freq fp stdout].
    rewrite !driven_freqs_app, !existsb_app, !length_app, Hg.
    cbn [driven_freqs flat_map existsb is_abort List.length app orb].
    repeat split; try lia.
Qed.

Lemma tally_in_loop_at_end (st : locals F) : tally_in_loop st -> tally_at_end st.
Proof.
  intros (Hp & He & Hg). unfold tally_at_end. rewrite Hg.
  repeat split; try lia; try discriminate.
Qed.

Lemma while_loop_tally (fuel : nat) step end_freq points :
  forall (st st' : locals F) (s s' : S),
    tally_in_loop st ->
    while_loop fuel step end_freq points st s = Some (Ok st' s') ->
    tally_at_end st'.
Proof.
  induction fuel as [| fuel IH]; intros st st' s s' Hst Hrun; [discriminate |].
  rewrite while_loop_unfold in Hrun.
  destruct (fleb (curr_freq st) end_freq).
  - destruct (iteration_cases step points st s) as
      [c w s1 Hm | e s1 Hm | m e s1 Hm He Hg | m s1 Hm He | m s1 Hm He];
      try discriminate.
    + pose proof (tally_retry step points Hst) as Hst1.
      destruct (retry step (banner points st)) as [st1 | st1].
      * apply (IH st1 st' s1 s'); assumption.
      * inversion Hrun. subst. apply Hst1.
    + apply (IH (accepted step (banner points st) m) st' s1 s'); [| exact Hrun].
      apply tally_accepted. exact Hst.
  - inversion Hrun. subst. apply tally_in_loop_at_end. exact Hst.
Qed.

Lemma tally_finish (st : locals F) : tally_at_end st -> tally_at_end (fst (finish st)).
Proof.
  unfold tally_at_end, passes, rows, gave_up, finish, say.
  cbn [fst counter error_cnt curr_freq fp stdout].
  rewrite driven_freqs_app, existsb_app, length_app.
  cbn [driven_freqs flat_map existsb is_abort List.length]. rewrite orb_false_r, Nat.add_0_r.
  auto.
Qed.

End Tally.

(* ================================================================== *)
(** ** The grid of a fault-free sweep, in exact arithmetic *)
(* ================================================================== *)

Section ExactGrid.
Context {B : Builtins Q} {S : Type} {V : Visa S}.
Variables (start_freq end_freq : Q) (points : Z).
Hypothesis points_ge_2 : (2 <= points)%Z.
Hypothesis start_lt_end : (start_freq < end_freq)%Q.
Local Open Scope Q_scope.
Local Open Scope list_scope.

Local Abbreviation step := (frequency_step start_freq end_freq points).

Lemma grid_last :
  grid start_freq end_freq points (Z.to_nat points - 1) == end_freq.
Proof.
  unfold grid.
  replace (Z.of_nat (Z.to_nat points - 1)) with (points - 1)%Z by lia.
  rewrite (steps_span start_freq end_freq points_ge_2). ring.
Qed.

Lemma on_grid_initial : on_grid start_freq end_freq points (initial start_freq).
Proof. intros _. simpl. constructor. Qed.

Lemma on_grid_counted (st : locals Q) :
  (0 < error_cnt st)%Z -> on_grid start_freq end_freq points st.
Proof. intros H E. lia. Qed.

Lemma on_grid_accepted st m :
  on_track start_freq end_freq points st ->
  ascending st ->
  on_grid start_freq end_freq points st ->
  on_grid start_freq end_freq points (accepted step (banner points st) m).
Proof.
  intros (Hc & He & Hk & Hcurr) (_ & _ & Hn) Hgrid E.
  cbn [accepted banner say counter error_cnt curr_freq fp stdout] in E |- *.
  specialize (Hgrid E).
  rewrite driven_freqs_app. cbn [driven_freqs flat_map app].
  rewrite length_app. cbn [List.length].
  rewrite Nat.add_1_r, seq_S, map_app. cbn [map Nat.add].
  apply Forall2_app; [exact Hgrid |].
  constructor; [| constructor].
  unfold grid. rewrite Hcurr, E.
  replace (Z.of_nat (List.length (driven_freqs (stdout st)))) with (counter st - 1)%Z by lia.
  change (inject_Z 0) with 0. ring.
Qed.

Lemma while_loop_on_grid (fuel : nat) : forall (st st' : locals Q) (s s' : S),
  on_track start_freq end_freq points st ->
  ascending st ->
  on_grid start_freq end_freq points st ->
  while_loop fuel step end_freq points st s = Some (Ok st' s') ->
  on_grid start_freq end_freq points st'.
Proof.
  induction fuel as [| fuel IH]; intros st st' s s' Htrack Hasc Hgrid Hrun; [discriminate |].
  rewrite while_loop_unfold in Hrun.
  destruct (fleb (curr_freq st) end_freq) eqn:Hle.
  - apply exact_leb_true in Hle.
    destruct (iteration_cases step points st s) as
      [c w s1 Hm | e s1 Hm | m e s1 Hm He Hg | m s1 Hm He | m s1 Hm He];
      try discriminate.
    + pose proof (on_track_retry_state (points := points) (st := banner points st) Htrack)
        as Htrack1.
      pose proof (ascending_retry start_freq end_freq points Hasc) as Hasc1.
      assert (Hgrid1 : on_grid start_freq end_freq points
                         (state_of (retry step (banner points st)))).
      { apply on_grid_counted.
        destruct (retry_state step (banner points st)) as (_ & _ & -> & _).
        destruct Htrack as (_ & He0 & _). simpl. lia. }
      destruct (retry step (banner points st)) as [st1 | st1]; cbn [state_of] in *.
      * apply (IH st1 st' s1 s'); assumption.
      * inversion Hrun. subst. exact Hgrid1.
    + apply (IH (accepted step (banner points st) m) st' s1 s'); [| | | exact Hrun].
      * apply (on_track_accepted points_ge_2 start_lt_end (st := banner points st)); assumption.
      * apply (ascending_accepted points_ge_2 start_lt_end). exact Hasc.
      * apply on_grid_accepted; assumption.
  - inversion Hrun. subst. exact Hgrid.
Qed.

(** What a sweep of the plan does, in exact arithmetic: it ends, and when
    it returns without an error counted it has written one row per point
    and driven its passes along the grid. *)
Lemma exact_sweep_returns (s : S) :
  exists r,
    sweep_frequency (Z.to_nat points + 6) start_freq end_freq points s = Some r
    /\ forall out s',
         r = Ok out s' ->
         error_cnt (fst out) = 0%Z ->
         rows (fst out) = points
         /\ Forall2 Qeq (driven_freqs (stdout (fst out)))
              (map (grid start_freq end_freq points) (seq 0 (Z.to_nat points))).
Proof.
  rewrite sweep_frequency_unfold, (py_div_step start_freq end_freq points_ge_2).
  destruct (measure start_freq s) as [m s1 | c w s1 | e s1];
    [| eexists; split; [reflexivity | discriminate] ..].
  pose proof (on_track_initial start_freq end_freq points_ge_2) as Htrack.
  destruct (while_loop_terminates (V := V) points_ge_2 start_lt_end (Z.to_nat points + 6)
              s1 Htrack) as [r Hr].
  - simpl. lia.
  - unfold passes_left. simpl. lia.
  - rewrite Hr. destruct r as [st s2 | c w s2 | e s2];
      (eexists; split; [reflexivity |]); try discriminate.
    intros out s' Hout Hzero. inversion Hout. subst out s'. clear Hout.
    cbn [finish fst say error_cnt fp stdout] in Hzero |- *.
    assert (Hheader : Forall gain_is_20_log10 (fp (initial start_freq)))
      by (repeat constructor).
    destruct (while_loop_ends (V := V) points_ge_2 start_lt_end _ _ Htrack Hheader Hr)
      as (Htrack' & _ & Hexit).
    destruct (while_loop_ascending (V := V) points_ge_2 start_lt_end _ _
                (ascending_initial start_freq) Hr) as (_ & _ & Hpasses).
    pose proof (while_loop_on_grid _ _ Htrack (ascending_initial start_freq)
                  on_grid_initial Hr Hzero) as Hgrid.
    assert (Hcount : (counter st - 1 = points)%Z).
    { apply (on_track_after_loop points_ge_2 start_lt_end Htrack');
        [apply Hexit; lia | exact Hzero]. }
    split.
    + unfold rows, say. cbn [fst fp]. destruct Htrack' as (Hc & _). lia.
    + rewrite driven_freqs_app. cbn [driven_freqs flat_map]. rewrite app_nil_r.
      replace (Z.to_nat points) with (List.length (driven_freqs (stdout st))) by lia.
      exact Hgrid.
Qed.

End ExactGrid.

(* ================================================================== *)
(** ** Loops that make no progress *)
(* ================================================================== *)

Section NeverEnds.
Context {F : Type} {N : Float F} {B : Builtins F} {S : Type} {V : Visa S}.
Variables (step end_freq : F) (points : Z).
Variables (keeps_on : F -> Prop) (steady : S -> Prop).
Hypothesis in_range :
  forall c, keeps_on c -> fleb c end_freq = true /\ keeps_on (fadd c step).
Hypothesis reads_well : always_valid steady.

Lemma while_loop_never_ends (fuel : nat) : forall (st : locals F) (s : S),
  keeps_on (curr_freq st) ->
  steady s ->
  while_loop fuel step end_freq points st s = None.
Proof.
  induction fuel as [| fuel IH]; intros st s Hc Hs; [reflexivity |].
  rewrite while_loop_unfold.
  destruct (in_range Hc) as [Hle Hnext]. rewrite Hle.
  destruct (reads_well (curr_freq st) Hs) as (m & s' & Hm & He & (gain & Hg) & Hs').
  rewrite (iteration_valid _ _ _ _ Hm He). unfold record. rewrite Hg.
  cbn [lift]. apply IH; [exact Hnext | exact Hs'].
Qed.

End NeverEnds.

Section ExactDivisions.
Local Open Scope Q_scope.

Lemma exact_of_Z_nonzero (z : Z) : z <> 0%Z -> feqb (F := Q) (of_Z z) (of_Z 0) = false.
Proof.
  intros H. apply exact_eqb_false. intros E.
  apply H, (proj1 (inject_Z_injective z 0%Z)). exact E.
Qed.

Lemma exact_py_div (a : Q) (z : Z) :
  z <> 0%Z -> py_div a (of_Z z) = inr (a / inject_Z z).
Proof. intros H. unfold py_div. rewrite (exact_of_Z_nonzero H). reflexivity. Qed.

Lemma exact_step_backwards (a : Q) (z : Z) : 0 < a -> (z < 0)%Z -> a / inject_Z z < 0.
Proof.
  intros Ha Hz.
  assert (Hd : inject_Z z < 0) by (change 0 with (inject_Z 0); rewrite <- Zlt_Qlt; exact Hz).
  assert (E : a / inject_Z z == - (a / - inject_Z z)) by (field; lra).
  rewrite E.
  assert (0 < a / - inject_Z z) by (apply Qlt_shift_div_l; lra).
  lra.
Qed.

Lemma exact_step_none (a : Q) (z : Z) : a == 0 -> z <> 0%Z -> a / inject_Z z == 0.
Proof.
  intros Ha Hz. rewrite Ha. field. intros E.
  apply Hz, (proj1 (inject_Z_injective z 0%Z)). exact E.
Qed.

End ExactDivisions.

(* ================================================================== *)
(** ** A file that holds the header only *)
(* ================================================================== *)

Section HeaderOnly.
Context {F : Type} {N : Float F} {B : Builtins F}.

Hypothesis header_is_no_number : float_of_string "CH1_FREQ [Hz]" = None.

Lemma file_text_header : file_text (F := F) [Header] = header_text.
Proof. reflexivity. Qed.

Lemma capture_plot_header : plot_bode (F := F) header_text = no_arrays.
Proof.
  unfold plot_bode. change (readlines header_text) with [header_text].
  cbn [parse_lines]. rewrite header_fields, header_is_no_number. reflexivity.
Qed.

Lemma interactive_main_header :
  interactivePlot.main (F := F) header_text = interactivePlot.InvalidInput 1.
Proof.
  unfold interactivePlot.main, interactivePlot.plot_bode, interactivePlot.parse_file.
  change (readlines header_text) with [header_text].
  cbn [interactivePlot.parse_lines].
  rewrite (interactive_parse_header header_is_no_number). reflexivity.
Qed.

End HeaderOnly.

(* ================================================================== *)
(** ** What a recorded run wrote and read *)
(* ================================================================== *)

Section Exchanges.
Context {S : Type} {V : Visa S}.
Local Open Scope list_scope.

Lemma bind_Ok_inv {S' A C : Type} (m : M S' A) (k : A -> M S' C) (s s'' : S') (c : C) :
  bind m k s = Ok c s'' ->
  exists a s', m s = Ok a s' /\ k a s' = Ok c s''.
Proof.
  unfold bind. destruct (m s) as [a s' | code w s' | e s']; try discriminate.
  intros H. exists a, s'. split; [reflexivity | exact H].
Qed.

Lemma writes_app (a b : list event) : writes (a ++ b) = writes a ++ writes b.
Proof. unfold writes. apply flat_map_app. Qed.

Lemma do_command_recorded (command : string) (r r' : recorded S) (u : unit) :
  do_command (V := recording V) command r = Ok u r' ->
  exists reply,
    transcript r' =
    transcript r ++ [Wrote command; Wrote error_query; Replied error_query reply].
Proof.
  unfold do_command, bind, check_instrument_errors.
  cbn [WriteString ReadString recording inner last_written transcript].
  destruct (ReadString (WriteString ":SYSTem:ERRor?" (WriteString command (inner r))))
    as [reply s2].
  destruct reply as [| c reply']; [discriminate |].
  destruct (startswith "+0," (String c reply')); simpl; [| discriminate].
  intros H. inversion H. subst r'. clear H. exists (String c reply').
  cbn [transcript]. rewrite <- !app_assoc. reflexivity.
Qed.

Lemma do_query_string_recorded (query : string) (r r' : recorded S) (answer : string) :
  do_query_string (V := recording V) query r = Ok answer r' ->
  exists reply,
    transcript r' =
    transcript r ++ [Wrote query; Replied query answer;
                     Wrote error_query; Replied error_query reply].
Proof.
  unfold do_query_string, bind, ret, check_instrument_errors.
  cbn [WriteString ReadString recording inner last_written transcript].
  destruct (ReadString (WriteString query (inner r))) as [answer' s1].
  cbn [inner last_written transcript].
  destruct (ReadString (WriteString ":SYSTem:ERRor?" s1)) as [reply s2].
  destruct reply as [| c reply']; [discriminate |].
  destruct (startswith "+0," (String c reply')); simpl; [| discriminate].
  intros H. inversion H. subst r' answer'. clear H. exists (String c reply').
  cbn [transcript]. rewrite <- !app_assoc. reflexivity.
Qed.

End Exchanges.

Section ExchangesOfAPass.
Context {F : Type} {N : Float F} {B : Builtins F} {S : Type} {V : Visa S}.
Local Open Scope list_scope.

Lemma py_float_Ok_inv {S' : Type} (qresult : string) (s s' : S') (x : F) :
  py_float qresult s = Ok x s' -> float_of_string qresult = Some x /\ s' = s.
Proof.
  unfold py_float. destruct (float_of_string qresult) as [y |]; [| discriminate].
  intros H. inversion H. auto.
Qed.

(** The stretch of transcript of a capture that returns: what was
    written, and the replies the five measurements were converted from. *)
Lemma capture_waveform_recorded (r r' : recorded S) (m : measurement F) :
  capture_waveform (V := recording V) r = Ok m r' ->
  exists stretch,
    transcript r' = transcript r ++ stretch
    /\ writes stretch = checked capture_commands
    /\ map float_of_string (replies_to ":MEASure:FREQuency? CHANnel1" stretch)
       = [Some (meas_freq1 m)]
    /\ map float_of_string (replies_to ":MEASure:VPP? CHANnel1" stretch)
       = [Some (meas_ampl1 m)]
    /\ map float_of_string (replies_to ":MEASure:FREQuency? CHANnel2" stretch)
       = [Some (meas_freq2 m)]
    /\ map float_of_string (replies_to ":MEASure:VPP? CHANnel2" stretch)
       = [Some (meas_ampl2 m)]
    /\ map float_of_string (replies_to ":MEASure:PHASe? CHANnel2,CHANnel1" stretch)
       = [Some (phase_diff m)].
Proof.
  unfold capture_waveform. intros H.
  repeat match goal with
  | H : bind (do_command _) _ _ = Ok _ _ |- _ =>
      let Hc := fresh "Hc" in
      apply bind_Ok_inv in H; destruct H as (? & ? & Hc & H);
      apply do_command_recorded in Hc; destruct Hc as (? & Hc)
  | H : bind (do_query_string _) _ _ = Ok _ _ |- _ =>
      let Hq := fresh "Hq" in
      apply bind_Ok_inv in H; destruct H as (? & ? & Hq & H);
      apply do_query_string_recorded in Hq; destruct Hq as (? & Hq)
  | H : bind (py_float _) _ _ = Ok _ _ |- _ =>
      let Hf := fresh "Hf" in
      apply bind_Ok_inv in H; destruct H as (? & ? & Hf & H);
      apply py_float_Ok_inv in Hf; destruct Hf as (Hf & ->)
  end.
  inversion H. subst. clear H.
  repeat match goal with
  | Ht : transcript _ = _ |- _ => rewrite Ht; clear Ht
  end.
  rewrite <- !app_assoc.
  eexists. split; [reflexivity |].
  unfold error_query.
  cbn [app writes replies_to flat_map String.eqb Ascii.eqb Bool.eqb map
       meas_freq1 meas_ampl1 meas_freq2 meas_ampl2 phase_diff].
  repeat split; try reflexivity; f_equal; assumption.
Qed.

Lemma generate_waveform_recorded (freq ampl offset : F) (r r' : recorded S) (out : F * F * F) :
  generate_waveform (V := recording V) freq ampl offset r = Ok out r' ->
  exists stretch,
    transcript r' = transcript r ++ stretch
    /\ writes stretch = checked (generator_commands freq ampl offset).
Proof.
  unfold generate_waveform. intros H.
  repeat match goal with
  | H : bind (do_command _) _ _ = Ok _ _ |- _ =>
      let Hc := fresh "Hc" in
      apply bind_Ok_inv in H; destruct H as (? & ? & Hc & H);
      apply do_command_recorded in Hc; destruct Hc as (? & Hc)
  end.
  inversion H. subst. clear H.
  repeat match goal with
  | Ht : transcript _ = _ |- _ => rewrite Ht; clear Ht
  end.
  rewrite <- !app_assoc.
  eexists. split; reflexivity.
Qed.

(** What the three calls of a pass write when they all return. *)
Lemma measure_recorded (freq : F) (r r' : recorded S) (m : measurement F) :
  measure (V := recording V) freq r = Ok m r' ->
  exists stretch,
    transcript r' = transcript r ++ stretch
    /\ writes stretch = checked (pass_commands freq).
Proof.
  unfold measure, generate_waveform_at, autoscale. intros H.
  apply bind_Ok_inv in H. destruct H as (out & r1 & Hg & H).
  apply bind_Ok_inv in H. destruct H as (u & r2 & Ha & H).
  apply generate_waveform_recorded in Hg. destruct Hg as (gen & Hg & Hgen).
  apply do_command_recorded in Ha. destruct Ha as (reply & Ha).
  apply capture_waveform_recorded in H. destruct H as (cap & Hc & Hcap & _).
  exists (gen ++ [Wrote ":AUToscale"; Wrote error_query; Replied error_query reply] ++ cap).
  split.
  - rewrite Hc, Ha, Hg, <- !app_assoc. reflexivity.
  - rewrite !writes_app, Hgen, Hcap. unfold pass_commands, checked.
    rewrite !flat_map_app. reflexivity.
Qed.

Lemma while_loop_recorded (fuel : nat) step end_freq points :
  forall (st st' : locals F) (r r' : recorded S),
    while_loop (V := recording V) fuel step end_freq points st r = Some (Ok st' r') ->
    exists driven,
      driven_freqs (stdout st') = driven_freqs (stdout st) ++ driven
      /\ writes (transcript r') =
         writes (transcript r) ++ flat_map (fun freq => checked (pass_commands freq)) driven.
Proof.
  induction fuel as [| fuel IH]; intros st st' r r' Hrun; [discriminate |].
  rewrite while_loop_unfold in Hrun.
  destruct (fleb (curr_freq st) end_freq).
  - destruct (iteration_cases (V := recording V) step points st r) as
      [c w r1 Hm | e r1 Hm | m e r1 Hm He Hg | m r1 Hm He | m r1 Hm He];
      try discriminate.
    + apply measure_recorded in Hm. destruct Hm as (stretch & Ht & Hw).
      pose proof (retry_state step (banner points st)) as Hstate.
      assert (Hd : driven_freqs (stdout (state_of (retry step (banner points st))))
                   = driven_freqs (stdout st) ++ [curr_freq st]).
      { unfold retry. destruct (error_cnt (banner points st) + 1 >? 4)%Z;
          cbn [state_of say banner stdout counter error_cnt curr_freq fp];
          rewrite !driven_freqs_app; cbn [driven_freqs flat_map app];
          rewrite ?app_nil_r; reflexivity. }
      destruct (retry step (banner points st)) as [st1 | st1]; cbn [state_of] in Hd.
      * destruct (IH _ _ _ _ Hrun) as (driven & Hdriven & Hwrites).
        exists (curr_freq st :: driven). split.
        -- rewrite Hdriven, Hd, <- app_assoc. reflexivity.
        -- rewrite Hwrites, Ht, writes_app, Hw, <- app_assoc. reflexivity.
      * inversion Hrun. subst st' r'. exists [curr_freq st]. split; [exact Hd |].
        rewrite Ht, writes_app, Hw. cbn [flat_map]. rewrite app_nil_r. reflexivity.
    + apply measure_recorded in Hm. destruct Hm as (stretch & Ht & Hw).
      destruct (IH _ _ _ _ Hrun) as (driven & Hdriven & Hwrites).
      exists (curr_freq st :: driven). split.
      * rewrite Hdriven. cbn [accepted banner say stdout].
        rewrite driven_freqs_app, <- app_assoc. reflexivity.
      * rewrite Hwrites, Ht, writes_app, Hw, <- app_assoc. reflexivity.
  - inversion Hrun. subst st' r'. exists []. rewrite !app_nil_r. split; reflexivity.
Qed.

End ExchangesOfAPass.

(* ================================================================== *)
(** ** The plan [main] reads *)
(* ================================================================== *)

Section PlanFacts.
Context {F : Type} {N : Float F} {B : Builtins F} {I : IntParser}.

Lemma read_plan_answers (stdin : list string) (p : plan F) :
  answers stdin p -> read_plan stdin = (p, []).
Proof.
  intros (a & b & c & rest & -> & Ha & Hb & Hc).
  unfold read_plan. cbn [input]. rewrite Ha, Hb, Hc. destruct p. reflexivity.
Qed.

Lemma read_plan_defaults (stdin : list string) :
  (forall p, ~ answers stdin p) -> read_plan stdin = defaults.
Proof.
  intros H. unfold read_plan.
  destruct stdin as [| a [| b [| c rest]]]; cbn [input]; try reflexivity.
  - destruct (float_of_string a); reflexivity.
  - destruct (float_of_string a); [| reflexivity].
    destruct (float_of_string b); reflexivity.
  - destruct (float_of_string a) as [x |] eqn:Ha; [| reflexivity].
    destruct (float_of_string b) as [y |] eqn:Hb; [| reflexivity].
    destruct (int_of_string c) as [n |] eqn:Hc; [| reflexivity].
    exfalso. apply (H (Build_plan x y n)). exists a, b, c, rest. auto.
Qed.

End PlanFacts.

(* ================================================================== *)
(** ** Names of data files *)
(* ================================================================== *)

Section NameFacts.
Local Open Scope string_scope.

Lemma digits_have_no_dot (d : Decimal.uint) :
  mentions "."%char (NilEmpty.string_of_uint d) = false.
Proof. induction d; simpl; assumption || reflexivity. Qed.

Lemma str_int_has_no_dot (n : Z) : mentions "."%char (str_int n) = false.
Proof.
  unfold str_int, NilZero.string_of_int, NilZero.string_of_uint.
  destruct (Z.to_int n) as [d | d]; destruct d; cbn [mentions Ascii.eqb Bool.eqb orb];
    try reflexivity; apply (digits_have_no_dot d).
Qed.

Lemma fname_has_no_dot (curr_time : struct_time) :
  mentions "."%char (fname curr_time) = false.
Proof.
  unfold fname. rewrite !mentions_app, !str_int_has_no_dot. reflexivity.
Qed.

Lemma before_dot_stem (stem rest : string) :
  mentions "."%char stem = false ->
  interactivePlot.before_dot (stem ++ String "."%char rest) = stem.
Proof.
  induction stem as [| c stem IH]; intros H; [reflexivity |].
  simpl in H |- *. apply orb_false_iff in H. destruct H as [Hc Hstem].
  rewrite Hc, (IH Hstem). reflexivity.
Qed.

End NameFacts.

(* ================================================================== *)
(** ** Python's indexing on the numbered list *)
(* ================================================================== *)

Section IndexFacts.
Local Open Scope list_scope.

Lemma listing_from_nth (data_files : list string) : forall first file name,
  In (file, name) (interactivePlot.listing_from first data_files) ->
  (first <= file)%Z /\ nth_error data_files (Z.to_nat (file - first)) = Some name.
Proof.
  induction data_files as [| f rest IH]; intros first file name H; [destruct H |].
  cbn [interactivePlot.listing_from] in H. destruct H as [H | H].
  - inversion H. subst. split; [lia |]. rewrite Z.sub_diag. reflexivity.
  - destruct (IH _ _ _ H) as [Hle Hnth]. split; [lia |].
    replace (Z.to_nat (file - first)) with (Datatypes.S (Z.to_nat (file - (first + 1))))
      by lia.
    exact Hnth.
Qed.

Lemma py_getitem_listed (data_files : list string) (file : Z) (name : string) :
  In (file, name) (interactivePlot.listing data_files) ->
  py_getitem data_files (file - 1) = Some name.
Proof.
  intros H. apply listing_from_nth in H. destruct H as [Hle Hnth].
  unfold py_getitem.
  destruct (0 <=? file - 1)%Z eqn:E; [exact Hnth |].
  apply Z.leb_gt in E. lia.
Qed.

Lemma nth_error_last {A : Type} (l : list A) (d : A) :
  l <> [] -> nth_error l (List.length l - 1) = Some (List.last l d).
Proof.
  induction l as [| x l IH]; intros H; [contradiction |].
  destruct l as [| y l']; [reflexivity |].
  change (nth_error (x :: y :: l') (List.length (x :: y :: l') - 1))
    with (nth_error (y :: l') (List.length l')).
  change (List.last (x :: y :: l') d) with (List.last (y :: l') d).
  rewrite <- IH by discriminate.
  f_equal. simpl. rewrite Nat.sub_0_r. reflexivity.
Qed.

Lemma py_getitem_minus_one {A : Type} (l : list A) (d : A) :
  l <> [] -> py_getitem l (0 - 1) = Some (List.last l d).
Proof.
  intros H. unfold py_getitem. cbn [Z.sub Z.add Z.opp Z.leb Z.compare].
  assert (Hlen : (0 < List.length l)%nat) by (destruct l; [contradiction | simpl; lia]).
  destruct (- Z.of_nat (List.length l) <=? -1)%Z eqn:E; [| apply Z.leb_gt in E; lia].
  replace (Z.to_nat (Z.of_nat (List.length l) + -1)) with (List.length l - 1)%nat by lia.
  apply nth_error_last. exact H.
Qed.

Lemma py_getitem_out_of_range {A : Type} (l : list A) (file : Z) :
  (Z.of_nat (List.length l) < file \/ file <= - Z.of_nat (List.length l))%Z ->
  py_getitem l (file - 1) = None.
Proof.
  intros H. unfold py_getitem.
  destruct (0 <=? file - 1)%Z eqn:E.
  - apply Z.leb_le in E. apply nth_error_None. lia.
  - apply Z.leb_gt in E.
    destruct (- Z.of_nat (List.length l) <=? file - 1)%Z eqn:E2; [| reflexivity].
    apply Z.leb_le in E2. lia.
Qed.

End IndexFacts.

(* ================================================================== *)
(** ** What initialising the instrument writes *)
(* ================================================================== *)

Section InitializeFacts.
Context {S : Type} {V : Visa S} {IO : VisaIO S}.
Local Open Scope list_scope.

Lemma initialize_recorded (resources : list string) (r r' : recorded S) (idn : string) :
  initialize (V := recording V) (IO := recording_io IO) resources r = Ok idn r' ->
  exists scopeDevice rest stretch,
    resources = scopeDevice :: rest
    /\ transcript r' = transcript r ++ stretch
    /\ writes stretch = checked ["*IDN?"; "*CLS"; "*RST"]
    /\ replies_to "*IDN?" stretch = [idn].
Proof.
  unfold initialize, default_setup. intros H.
  destruct resources as [| scopeDevice rest]; [discriminate |].
  exists scopeDevice, rest.
  apply bind_Ok_inv in H. destruct H as (dev & r0 & Hdev & H).
  inversion Hdev. subst dev r0. clear Hdev.
  apply bind_Ok_inv in H. destruct H as (u & r1 & Hopen & H).
  inversion Hopen. subst u r1. clear Hopen.
  apply bind_Ok_inv in H. destruct H as (idn' & r2 & Hq & H).
  apply do_query_string_recorded in Hq. destruct Hq as (e1 & Hq).
  apply bind_Ok_inv in H. destruct H as (u & r3 & Hs & H).
  apply bind_Ok_inv in Hs. destruct Hs as (u' & r4 & Hcls & Hrst).
  apply do_command_recorded in Hcls. destruct Hcls as (e2 & Hcls).
  apply do_command_recorded in Hrst. destruct Hrst as (e3 & Hrst).
  inversion H. subst idn' r'. clear H.
  rewrite Hrst, Hcls, Hq. cbn [recording_io set_Timeout Clear Open transcript].
  rewrite <- !app_assoc.
  eexists. split; [reflexivity |]. split; [reflexivity |].
  split; reflexivity.
Qed.

End InitializeFacts.

(* ================================================================== *)
(** ** The two readers on one line *)
(* ================================================================== *)

Section Readers.
Context {F : Type} {N : Float F} {B : Builtins F}.
Local Open Scope list_scope.

(** The reader of the capture script may fill its arrays unevenly, the
    frequencies first. *)
Lemma capture_parse_lines_lengths (lines : list string) :
  (List.length (gain_arr (parse_lines (F := F) lines))
   <= List.length (phase_arr (parse_lines (F := F) lines)))%nat
  /\ (List.length (phase_arr (parse_lines (F := F) lines))
      <= List.length (freq_arr (parse_lines (F := F) lines)))%nat.
Proof.
  induction lines as [| lin rest [IH1 IH2]]; [split; apply le_n |].
  cbn [parse_lines].
  destruct (split_comma_space (strip_nl lin)) as [| f1 [| a1 [| f2 [| a2 [| pd [| gain [| x l]]]]]]];
    try (split; assumption).
  destruct (float_of_string f1); [| split; assumption].
  destruct (float_of_string pd); [| cbn [freq_arr phase_arr gain_arr List.length]; split; lia].
  destruct (float_of_string gain); cbn [freq_arr phase_arr gain_arr List.length]; split; lia.
Qed.

Lemma map_float_six (fields : list string) (f1 a1 f2 a2 pd gain : F) :
  interactivePlot.map_float fields = Some [f1; a1; f2; a2; pd; gain] ->
  exists t1 t2 t3 t4 t5 t6,
    fields = [t1; t2; t3; t4; t5; t6]
    /\ float_of_string t1 = Some f1
    /\ float_of_string t5 = Some pd
    /\ float_of_string t6 = Some gain.
Proof.
  destruct fields as [| t1 [| t2 [| t3 [| t4 [| t5 [| t6 [| t7 l]]]]]]];
    cbn [interactivePlot.map_float];
    repeat match goal with
    | |- context [float_of_string ?t] =>
        let E := fresh "E" in destruct (float_of_string t) eqn:E
    | |- context [interactivePlot.map_float ?l] =>
        destruct (interactivePlot.map_float l)
    end;
    try discriminate.
  intros H. inversion H. subst. exists t1, t2, t3, t4, t5, t6. auto.
Qed.

(** A line the interactive reader accepts is accepted by the reader of the
    capture script, with the same three values. *)
Lemma interactive_line_is_a_capture_line (lin : string) (rest : list string) (f1 pd gain : F) :
  interactivePlot.parse_line lin = Some (f1, pd, gain) ->
  parse_lines (lin :: rest) =
  Build_arrays (f1 :: freq_arr (parse_lines rest)) (pd :: phase_arr (parse_lines rest))
               (gain :: gain_arr (parse_lines rest)).
Proof.
  unfold interactivePlot.parse_line.
  destruct (interactivePlot.map_float (split_comma_space (strip_nl lin)))
    as [[| x1 [| x2 [| x3 [| x4 [| x5 [| x6 [| x7 l]]]]]]] |] eqn:E; try discriminate.
  intros H. inversion H. subst. clear H.
  apply map_float_six in E. destruct E as (t1 & t2 & t3 & t4 & t5 & t6 & Hs & H1 & H5 & H6).
  cbn [parse_lines]. rewrite Hs, H1, H5, H6. reflexivity.
Qed.

End Readers.

(* ================================================================== *)
(** ** The cutoff stays near the peak *)
(* ================================================================== *)

Section ExactCutoff.
Local Open Scope Q_scope.

Lemma nearest_within_6dB (a : arrays Q) (fig : figure Q) :
  nearest_to_3dB_down a fig ->
  reference_gain_db fig - 6 <= cutoff_gain_db fig
  /\ cutoff_gain_db fig <= reference_gain_db fig.
Proof.
  intros (Hin & Hmax & Hg & _ & Hnear & _).
  split.
  - apply In_nth_error in Hin. destruct Hin as [j Hj].
    specialize (Hnear j _ Hj). unfold off_target in Hnear.
    assert (E : Qabs (reference_gain_db fig - (reference_gain_db fig - 3)) == 3).
    { assert (E3 : reference_gain_db fig - (reference_gain_db fig - 3) == 3) by ring.
      rewrite E3. reflexivity. }
    rewrite E in Hnear. apply Qabs_Qle_condition in Hnear. lra.
  - apply Hmax. apply nth_error_In with (n := cutoff_index fig). exact Hg.
Qed.

Lemma analyse_has_gains {F : Type} {N : Float F} (a : arrays F) (fig : figure F) :
  interactivePlot.analyse a = inr fig -> gain_arr a <> [].
Proof.
  unfold interactivePlot.analyse. intros H E. rewrite E in H.
  destruct (freq_arr a) as [| first l]; [discriminate |].
  cbn [interactivePlot.last_of interactivePlot.py_max] in H. discriminate.
Qed.

End ExactCutoff.

(* ================================================================== *)
(** ** File names tell their times apart *)
(* ================================================================== *)

Section NameInjectivity.
Local Open Scope string_scope.






End NameInjectivity.

(* ================================================================== *)
(** ** The loop on an instrument that keeps reading well *)
(* ================================================================== *)

Section Accumulation.
Context {F : Type} {N : Float F} {B : Builtins F} {S : Type} {V : Visa S}.
Variables (step end_freq : F) (points : Z) (steady : S -> Prop).
Hypothesis reads_well : always_valid steady.
Local Open Scope list_scope.




End Accumulation.

(* ================================================================== *)
(** ** The simulated oscilloscope, once its script is played out *)
(* ================================================================== *)

Section Settled.

Lemma settled_reads_well_exact :
  always_valid (B := Sim.exact_builtins) (settled_on (Sim.reading_of 100 1 100 1 0)).
Proof.
  intros freq [l scr scp h] (Hscreen & Hscript & Hhealthy).
  simpl in Hscreen, Hscript, Hhealthy. subst scr scp h.
  exists (Build_measurement 100%Q 1%Q 100%Q 1%Q 0%Q).
  eexists. split; [lazy; reflexivity |].
  split; [reflexivity |]. split; [eexists; reflexivity |].
  repeat split.
Qed.


Lemma settled_readings_settled :
  settled_on (Sim.reading_of 100 1 100 1 0) settled_readings.
Proof. repeat split. Qed.

End Settled.

(* ================================================================== *)
(** ** The cutoff under an offset in gain *)
(* ================================================================== *)

Section RaisedGains.
Local Open Scope Q_scope.
Local Open Scope list_scope.

Lemma off_target_raised (reference reference' g offset : Q) :
  reference' == reference + offset ->
  off_target reference' (g + offset) == off_target reference g.
Proof.
  intros E. unfold off_target. apply Qabs_wd. rewrite E. ring.
Qed.

(** The search settles on the same index when every gain is raised by the
    same offset. *)
Lemma nearest_raised (a : arrays Q) (offset : Q) (fig fig' : figure Q) :
  nearest_to_3dB_down a fig ->
  nearest_to_3dB_down (raised offset a) fig' ->
  cutoff_index fig' = cutoff_index fig
  /\ reference_gain_db fig' == reference_gain_db fig + offset
  /\ cutoff_gain_db fig' == cutoff_gain_db fig + offset.
Proof.
  intros (Hin & Hmax & Hg & _ & Hnear & Hfirst) (Hin' & Hmax' & Hg' & _ & Hnear' & Hfirst').
  cbn [raised gain_arr] in Hin', Hmax', Hg', Hnear', Hfirst'.
  assert (Href : reference_gain_db fig' == reference_gain_db fig + offset).
  { apply in_map_iff in Hin'. destruct Hin' as (g0 & E0 & Hg0).
    apply Qle_antisym.
    - rewrite <- E0. specialize (Hmax g0 Hg0). lra.
    - apply Hmax'. apply in_map_iff. exists (reference_gain_db fig). auto. }
  rewrite nth_error_map in Hg'.
  destruct (nth_error (gain_arr a) (cutoff_index fig')) as [g1 |] eqn:Hg1; [| discriminate].
  cbn [option_map] in Hg'. inversion Hg' as [Ecut]. clear Hg'.
  assert (Hsame : forall j g,
             nth_error (gain_arr a) j = Some g ->
             nth_error (map (fun g => g + offset) (gain_arr a)) j = Some (g + offset)).
  { intros j g Hj. rewrite nth_error_map, Hj. reflexivity. }
  assert (Hindex : cutoff_index fig' = cutoff_index fig).
  { destruct (Nat.lt_trichotomy (cutoff_index fig') (cutoff_index fig)) as [Hlt | [E | Hlt]];
      [| exact E |]; exfalso.
    - pose proof (Hfirst _ _ Hlt Hg1) as H1.
      pose proof (Hnear' _ _ (Hsame _ _ Hg)) as H2.
      rewrite <- Ecut in H2.
      rewrite (off_target_raised g1 Href), (off_target_raised (cutoff_gain_db fig) Href) in H2.
      apply (Qlt_not_le _ _ H1 H2).
    - pose proof (Hfirst' _ _ Hlt (Hsame _ _ Hg)) as H1.
      pose proof (Hnear _ _ Hg1) as H2.
      rewrite <- Ecut in H1.
      rewrite (off_target_raised g1 Href), (off_target_raised (cutoff_gain_db fig) Href) in H1.
      apply (Qlt_not_le _ _ H1 H2). }
  split; [exact Hindex |]. split; [exact Href |].
  rewrite Hindex, Hg in Hg1. injection Hg1 as Eg.
  rewrite <- Eg. reflexivity.
Qed.

End RaisedGains.

(* ================================================================== *)
(** ** The gain computation that raises *)
(* ================================================================== *)

Section GainRaises.
Context {F : Type} {N : Float F} {B : Builtins F}.

Lemma record_divides_by_zero step (st : locals F) (m : measurement F) :
  feqb (meas_ampl1 m) (of_Z 0) = true ->
  record step st m = inl ZeroDivisionError.
Proof.
  intros H0. unfold record, gain_db, py_div. rewrite H0. reflexivity.
Qed.

Lemma record_leaves_the_domain step (st : locals F) (m : measurement F) :
  feqb (meas_ampl1 m) (of_Z 0) = false ->
  fleb (fdiv (meas_ampl2 m) (meas_ampl1 m)) (of_Z 0) = true ->
  record step st m = inl ValueError.
Proof.
  intros H0 H1. unfold record, gain_db, py_div, math_log10. rewrite H0, H1. reflexivity.
Qed.

End GainRaises.

(* ================================================================== *)
(** ** Binary64: the order of the doubles *)
(* ================================================================== *)

Section SpecOrder.

Lemma SFcompare_nan (x y : spec_float) :
  SFcompare x y = None <-> SF_nan x = true \/ SF_nan y = true.
Proof.
  destruct x as [sx | sx | | sx mx ex], y as [sy | sy | | sy my ey]; simpl;
    split; intros H; try discriminate; try (destruct H; discriminate); auto.
Qed.

(** The comparison of two doubles is the comparison of their ranks. *)
Lemma SFcompare_rank (x y : spec_float) :
  SF_nan x = false -> SF_nan y = false ->
  match SFcompare x y with
  | Some Lt => before3 (rank x) (rank y)
  | Some Eq => rank x = rank y
  | Some Gt => before3 (rank y) (rank x)
  | None => False
  end.
Proof.
  destruct x as [sx | sx | | sx mx ex], y as [sy | sy | | sy my ey]; simpl;
    intros Hx Hy; try discriminate;
    try reflexivity;
    try (destruct sx; simpl; lia); try (destruct sy; simpl; lia);
    try (destruct sx, sy; simpl; (lia || reflexivity)).
  destruct sx, sy; simpl; try lia.
  - destruct (Z.compare_spec ex ey) as [E | E | E]; try lia.
    rewrite Pos.compare_cont_spec. simpl.
    destruct (Pos.compare_spec mx my) as [M | M | M]; simpl; try lia.
    subst. reflexivity.
  - destruct (Z.compare_spec ex ey) as [E | E | E]; try lia.
    rewrite Pos.compare_cont_spec. simpl.
    destruct (Pos.compare_spec mx my) as [M | M | M]; simpl; try lia.
    subst. reflexivity.
Qed.

End SpecOrder.

Ltac by_ranks :=
  repeat match goal with
         | r : (Z * Z * Z)%type |- _ => destruct r as [[? ?] ?]
         end;
  unfold before3 in *;
  repeat match goal with
         | H : (_, _, _) = (_, _, _) |- _ => injection H as ? ? ?
         | H : _ /\ _ |- _ => destruct H
         | H : true = false |- _ => discriminate H
         | H : false = true |- _ => discriminate H
         end;
  try discriminate;
  repeat split; try tauto; try lia; try congruence.

Ltac to_ranks x y :=
  rewrite ?FloatAxioms.ltb_spec, ?FloatAxioms.leb_spec, ?FloatAxioms.eqb_spec;
  unfold SFltb, SFleb, SFeqb;
  generalize (SFcompare_rank (Prim2SF x) (Prim2SF y));
  generalize (proj1 (SFcompare_nan (Prim2SF x) (Prim2SF y)));
  generalize (proj2 (SFcompare_nan (Prim2SF x) (Prim2SF y)));
  generalize (rank (Prim2SF x)), (rank (Prim2SF y));
  destruct (SFcompare (Prim2SF x) (Prim2SF y)) as [[| |] |];
  destruct (SF_nan (Prim2SF x)), (SF_nan (Prim2SF y));
  intros rx ry Hnan' Hnan Hrank;
  split; intros H;
  try (destruct (Hnan eq_refl); discriminate);
  try (discriminate (Hnan' (or_introl eq_refl)));
  try (discriminate (Hnan' (or_intror eq_refl)));
  try specialize (Hrank eq_refl eq_refl); by_ranks.

Section Binary64Order.

Lemma ltb_rank (x y : float) :
  fltb x y = true <->
  SF_nan (Prim2SF x) = false /\ SF_nan (Prim2SF y) = false
  /\ before3 (rank (Prim2SF x)) (rank (Prim2SF y)).
Proof. simpl. to_ranks x y. Qed.

Lemma leb_rank (x y : float) :
  fleb x y = true <->
  SF_nan (Prim2SF x) = false /\ SF_nan (Prim2SF y) = false
  /\ ~ before3 (rank (Prim2SF y)) (rank (Prim2SF x)).
Proof. simpl. to_ranks x y. Qed.

Lemma eqb_rank (x y : float) :
  feqb x y = true <->
  SF_nan (Prim2SF x) = false /\ SF_nan (Prim2SF y) = false
  /\ rank (Prim2SF x) = rank (Prim2SF y).
Proof. simpl. to_ranks x y. Qed.

Lemma number_rank (x : float) : feqb x x = true <-> SF_nan (Prim2SF x) = false.
Proof.
  rewrite eqb_rank. split; [intros (H & _); exact H | intros H; auto].
Qed.

Ltac order_by_ranks :=
  repeat match goal with
         | H : fltb _ _ = true |- _ => apply ltb_rank in H
         | H : fleb _ _ = true |- _ => apply leb_rank in H
         | H : feqb _ _ = true |- _ => apply eqb_rank in H
         | H : fltb ?x ?y = false |- _ =>
             assert (~ (SF_nan (Prim2SF x) = false /\ SF_nan (Prim2SF y) = false
                        /\ before3 (rank (Prim2SF x)) (rank (Prim2SF y))))
               by (rewrite <- ltb_rank, H; discriminate);
             clear H
         | |- fltb _ _ = true => apply ltb_rank
         | |- fleb _ _ = true => apply leb_rank
         | |- feqb _ _ = true => apply eqb_rank
         | |- fltb ?x ?y = false =>
             apply not_true_is_false; intros ?
         end;
  repeat match goal with
         | |- context [rank ?s] => generalize dependent (rank s); intros ?
         end;
  repeat match goal with
         | |- context [SF_nan ?s] => generalize dependent (SF_nan s); intros ?
         end;
  intros; by_ranks.

(** The laws of the order that hold of the doubles that are numbers. *)
Lemma b64_leb_not_gtb (x y : float) : fleb x y = true -> fltb y x = false.
Proof. intros H. order_by_ranks. Qed.

Lemma b64_not_ltb_geb (x y : float) :
  feqb x x = true -> feqb y y = true -> fltb x y = false -> fleb y x = true.
Proof. intros Hx Hy H. order_by_ranks. Qed.

Lemma b64_ltb_leb (x y : float) : fltb x y = true -> fleb x y = true.
Proof. intros H. order_by_ranks. Qed.

Lemma b64_leb_refl (x : float) : feqb x x = true -> fleb x x = true.
Proof. intros H. order_by_ranks. Qed.

Lemma b64_leb_trans (x y z : float) :
  fleb x y = true -> fleb y z = true -> fleb x z = true.
Proof. intros H1 H2. order_by_ranks. Qed.

Lemma b64_ltb_trans (x y z : float) :
  fltb x y = true -> fltb y z = true -> fltb x z = true.
Proof. intros H1 H2. order_by_ranks. Qed.

Lemma b64_ltb_leb_trans (x y z : float) :
  fltb x y = true -> fleb y z = true -> fltb x z = true.
Proof. intros H1 H2. order_by_ranks. Qed.

Lemma b64_leb_ltb_trans (x y z : float) :
  fleb x y = true -> fltb y z = true -> fltb x z = true.
Proof. intros H1 H2. order_by_ranks. Qed.

Lemma b64_leb_number (x y : float) :
  fleb x y = true -> feqb x x = true /\ feqb y y = true.
Proof. intros H. split; order_by_ranks. Qed.

End Binary64Order.

(* ================================================================== *)
(** ** Binary64: subtraction and absolute value of finite doubles *)
(* ================================================================== *)

Section SpecRounding.

Lemma shr_1_nonneg (mrs : shr_record) : (0 <= shr_m mrs)%Z -> (0 <= shr_m (shr_1 mrs))%Z.
Proof.
  destruct mrs as [m r s]. simpl.
  destruct m as [| [p | p |] | [p | p |]]; simpl; lia.
Qed.

Lemma iter_pos_nonneg (p : positive) : forall mrs,
  (0 <= shr_m mrs)%Z -> (0 <= shr_m (iter_pos shr_1 p mrs))%Z.
Proof.
  induction p as [p IH | p IH |]; intros mrs H; simpl.
  - apply IH, IH, shr_1_nonneg, H.
  - apply IH, IH, H.
  - apply shr_1_nonneg, H.
Qed.

Lemma shr_fexp_nonneg (prec emax m e : Z) (l : location) :
  (0 <= m)%Z -> (0 <= shr_m (fst (shr_fexp prec emax m e l)))%Z.
Proof.
  intros H. unfold shr_fexp, shr.
  assert (H0 : (0 <= shr_m (shr_record_of_loc m l))%Z)
    by (destruct l as [| []]; simpl; exact H).
  destruct (fexp prec emax (Zdigits2 m + e) - e)%Z; simpl; try exact H0.
  apply iter_pos_nonneg, H0.
Qed.

Lemma round_nearest_even_nonneg (m : Z) (l : location) :
  (0 <= m)%Z -> (0 <= round_nearest_even m l)%Z.
Proof.
  intros H. destruct l as [| []]; simpl; try lia.
  destruct (Z.even m); lia.
Qed.

(** Rounding gives a zero, a finite double or an infinity. *)
Lemma binary_round_aux_number (prec emax : Z) (sx : bool) (mx ex : Z) (lx : location) :
  (0 <= mx)%Z -> SF_nan (binary_round_aux prec emax sx mx ex lx) = false.
Proof.
  intros H. unfold binary_round_aux.
  pose proof (@shr_fexp_nonneg prec emax mx ex lx H) as H1.
  destruct (shr_fexp prec emax mx ex lx) as [mrs' e']. simpl in H1.
  pose proof (@shr_fexp_nonneg prec emax _ e' loc_Exact
                (@round_nearest_even_nonneg _ (loc_of_shr_record mrs') H1)) as H2.
  destruct (shr_fexp prec emax _ e' loc_Exact) as [mrs'' e'']. simpl in H2.
  destruct (shr_m mrs'') as [| m | m]; [reflexivity | | lia].
  destruct (e'' <=? emax - prec)%Z; reflexivity.
Qed.

Lemma binary_normalize_number (prec emax m e : Z) (szero : bool) :
  SF_nan (binary_normalize prec emax m e szero) = false.
Proof.
  destruct m as [| p | p]; simpl; [reflexivity | |];
    unfold binary_round;
    destruct (shl_align p e _) as [mz ez];
    apply binary_round_aux_number; lia.
Qed.

End SpecRounding.

Section Binary64Finite.

Lemma is_finite_spec (x : float) : PrimFloat.is_finite x = SF_finite (Prim2SF x).
Proof.
  unfold PrimFloat.is_finite, PrimFloat.is_nan, PrimFloat.is_infinity.
  rewrite !FloatAxioms.eqb_spec, FloatAxioms.abs_spec.
  change (Prim2SF infinity) with (S754_infinity false).
  destruct (Prim2SF x) as [s | s | | s m e]; simpl; try reflexivity.
  - destruct s; reflexivity.
  - unfold SFeqb. simpl.
    rewrite Z.compare_refl, Pos.compare_cont_spec, Pos.compare_refl.
    destruct s; reflexivity.
Qed.

Lemma finite_number (x : float) : PrimFloat.is_finite x = true -> feqb x x = true.
Proof.
  rewrite is_finite_spec, number_rank.
  destruct (Prim2SF x); simpl; congruence.
Qed.

(** A finite double less a finite double is a number, and so is a finite
    double less a number. *)
Lemma finite_sub_finite (x y : float) :
  PrimFloat.is_finite x = true -> PrimFloat.is_finite y = true ->
  feqb (fsub x y) (fsub x y) = true.
Proof.
  rewrite !is_finite_spec, number_rank. simpl fsub.
  rewrite FloatAxioms.sub_spec. unfold SF64sub, SFsub.
  destruct (Prim2SF x) as [sx | sx | | sx mx ex], (Prim2SF y) as [sy | sy | | sy my ey];
    simpl; try discriminate; intros _ _;
    try (destruct sx, sy; reflexivity); try reflexivity.
  apply binary_normalize_number.
Qed.

Lemma finite_sub_number (x y : float) :
  PrimFloat.is_finite x = true -> feqb y y = true ->
  feqb (fsub x y) (fsub x y) = true.
Proof.
  rewrite is_finite_spec, !number_rank. simpl fsub.
  rewrite FloatAxioms.sub_spec. unfold SF64sub, SFsub.
  destruct (Prim2SF x) as [sx | sx | | sx mx ex], (Prim2SF y) as [sy | sy | | sy my ey];
    simpl; try discriminate; intros _ _;
    try (destruct sx, sy; reflexivity); try reflexivity.
  apply binary_normalize_number.
Qed.

Lemma abs_number (x : float) : feqb x x = true -> feqb (fabs x) (fabs x) = true.
Proof.
  rewrite !number_rank. simpl fabs. rewrite FloatAxioms.abs_spec.
  destruct (Prim2SF x); simpl; congruence.
Qed.

(** Doubles that compare equal are at the same computed distance of any
    target: they are the same double, or the two zeros. *)
Lemma abs_sub_equal (x y t : float) :
  feqb x y = true -> fabs (fsub x t) = fabs (fsub y t).
Proof.
  intros H. apply FloatAxioms.Prim2SF_inj. simpl.
  rewrite !FloatAxioms.abs_spec, !FloatAxioms.sub_spec.
  simpl in H. rewrite FloatAxioms.eqb_spec in H. unfold SFeqb in H.
  destruct (Prim2SF x) as [sx | sx | | sx mx ex], (Prim2SF y) as [sy | sy | | sy my ey];
    simpl in H; try discriminate;
    try (destruct sx; discriminate); try (destruct sy; discriminate).
  - unfold SF64sub, SFsub.
    destruct (Prim2SF t) as [st | st | | st mt et]; simpl; try reflexivity.
    destruct sx, sy, st; reflexivity.
  - destruct sx, sy; try discriminate; reflexivity.
  - destruct sx, sy; try discriminate;
      destruct (Z.compare_spec ex ey) as [E | E | E]; try discriminate;
      rewrite Pos.compare_cont_spec in H; simpl in H;
      destruct (Pos.compare_spec mx my) as [M | M | M]; try discriminate;
      subst; reflexivity.
Qed.

End Binary64Finite.

(* ================================================================== *)
(** ** The cutoff search in binary64 *)
(* ================================================================== *)

Section IndexSearch.
Import interactivePlot.
Context {F : Type} {N : Float F}.
Local Open Scope list_scope.

Lemma py_index_first (v : F) (l : list F) : forall i,
  py_index v l = Some i ->
  exists g, nth_error l i = Some g /\ feqb g v = true
    /\ forall j x, (j < i)%nat -> nth_error l j = Some x -> feqb x v = false.
Proof.
  induction l as [| y r IH]; intros i; simpl; [discriminate |].
  destruct (feqb y v) eqn:E.
  - intros H. inversion H. subst i. exists y.
    split; [reflexivity |]. split; [exact E |].
    intros j x Hj. inversion Hj.
  - destruct (py_index v r) as [i' |] eqn:Er; simpl; [| discriminate].
    intros H. inversion H. subst i.
    destruct (IH i' eq_refl) as (g & Hg & Hgv & Hfirst).
    exists g. split; [exact Hg |]. split; [exact Hgv |].
    intros j x Hj Hx. destruct j as [| j'].
    + simpl in Hx. inversion Hx. subst x. exact E.
    + simpl in Hx. apply (Hfirst j' x); [apply PeanoNat.lt_S_n; exact Hj | exact Hx].
Qed.

Lemma py_index_reaches (v : F) (before after : list F) :
  feqb v v = true ->
  exists i, py_index v (before ++ v :: after) = Some i /\ (i <= List.length before)%nat.
Proof.
  intros Hv. induction before as [| y r IH]; simpl.
  - rewrite Hv. exists O. split; [reflexivity | apply le_n].
  - destruct (feqb y v).
    + exists O. split; [reflexivity | apply Nat.le_0_l].
    + destruct IH as (i & Hi & Hle). rewrite Hi. simpl.
      exists (Datatypes.S i). split; [reflexivity | apply le_n_S; exact Hle].
Qed.

End IndexSearch.

Section Binary64Search.
Import interactivePlot.
Local Open Scope list_scope.

Lemma b64_max_from_bounds (l : list float) : forall best,
  feqb best best = true ->
  Forall (fun x => feqb x x = true) l ->
  fleb best (max_from best l) = true
  /\ (forall x, In x l -> fleb x (max_from best l) = true)
  /\ (max_from best l = best \/ In (max_from best l) l).
Proof.
  induction l as [| x r IH]; intros best Hbest Hl; cbn [max_from].
  - split; [apply b64_leb_refl; exact Hbest |].
    split; [intros x [] | left; reflexivity].
  - inversion Hl as [| x' r' Hx Hr]. subst x' r'.
    destruct (fltb best x) eqn:E.
    + destruct (IH x Hx Hr) as (H1 & H2 & H3).
      split; [apply b64_leb_trans with x; [apply b64_ltb_leb; exact E | exact H1] |].
      split.
      * intros y [-> | Hy]; [exact H1 | apply H2; exact Hy].
      * right. destruct H3 as [-> | H3]; [left; reflexivity | right; exact H3].
    + assert (Hle : fleb x best = true) by (apply b64_not_ltb_geb; assumption).
      destruct (IH best Hbest Hr) as (H1 & H2 & H3).
      split; [exact H1 |]. split.
      * intros y [<- | Hy]; [apply b64_leb_trans with best; assumption | apply H2; exact Hy].
      * destruct H3 as [H3 | H3]; [left; exact H3 | right; right; exact H3].
Qed.

Lemma b64_py_max_spec (l : list float) (reference : float) :
  Forall (fun x => feqb x x = true) l ->
  py_max l = Some reference ->
  In reference l /\ forall x, In x l -> fleb x reference = true.
Proof.
  destruct l as [| x r]; simpl; [discriminate |].
  intros Hl H. inversion H as [E]. clear H.
  inversion Hl as [| x' r' Hx Hr]. subst x' r'.
  destruct (@b64_max_from_bounds r x Hx Hr) as (H1 & H2 & H3).
  split.
  - destruct H3 as [-> | H3]; [left; reflexivity | right; exact H3].
  - intros y [<- | Hy]; [exact H1 | apply H2; exact Hy].
Qed.

(** The running minimum ends on the first item whose key is the least. *)
Lemma b64_min_from_first (key : float -> float) (l : list float) : forall best,
  Forall (fun x => feqb (key x) (key x) = true) (best :: l) ->
  exists before after,
    best :: l = before ++ min_from key best l :: after
    /\ (forall x, In x before -> fltb (key (min_from key best l)) (key x) = true)
    /\ (forall x, In x after -> fleb (key (min_from key best l)) (key x) = true).
Proof.
  induction l as [| x r IH]; intros best Hkeys; cbn [min_from].
  - exists [], []. split; [reflexivity |]. split; intros x [].
  - inversion Hkeys as [| b' l' Hb Hl]. subst b' l'.
    inversion Hl as [| x' r' Hx Hr]. subst x' r'.
    destruct (fltb (key x) (key best)) eqn:E.
    + destruct (IH x (Forall_cons _ Hx Hr)) as (before & after & Hsplit & Hbefore & Hafter).
      exists (best :: before), after.
      split; [simpl; rewrite Hsplit; reflexivity |]. split; [| exact Hafter].
      intros y [<- | Hy]; [| apply Hbefore; exact Hy].
      destruct before as [| b0 before'].
      * simpl in Hsplit. injection Hsplit as Hm Hrest. rewrite <- Hm. exact E.
      * simpl in Hsplit. injection Hsplit as Hm Hrest.
        apply b64_ltb_trans with (key x); [| exact E].
        apply Hbefore. left. symmetry. exact Hm.
    + assert (Hle : fleb (key best) (key x) = true)
        by (apply b64_not_ltb_geb; assumption).
      destruct (IH best (Forall_cons _ Hb Hr)) as (before & after & Hsplit & Hbefore & Hafter).
      destruct before as [| b0 before'].
      * simpl in Hsplit. injection Hsplit as Hm Hrest.
        exists [], (x :: r). split; [simpl; rewrite <- Hm; reflexivity |].
        split; [intros y [] |].
        intros y [<- | Hy].
        -- rewrite <- Hm. exact Hle.
        -- apply Hafter. rewrite <- Hrest. exact Hy.
      * simpl in Hsplit. injection Hsplit as Hm Hrest.
        exists (best :: x :: before'), after.
        split; [simpl; do 2 f_equal; exact Hrest |]. split; [| exact Hafter].
        assert (Hbest : fltb (key (min_from key best r)) (key best) = true)
          by (apply Hbefore; left; symmetry; exact Hm).
        intros y [<- | [<- | Hy]].
        -- exact Hbest.
        -- apply b64_ltb_leb_trans with (key best); assumption.
        -- apply Hbefore. right. exact Hy.
Qed.

Lemma finite_gains_are_numbers (l : list float) :
  forallb PrimFloat.is_finite l = true -> Forall (fun x => feqb x x = true) l.
Proof.
  induction l as [| x r IH]; simpl; intros H; [constructor |].
  apply andb_true_iff in H. destruct H as [Hx Hr].
  constructor; [apply finite_number; exact Hx | apply IH; exact Hr].
Qed.

(** The computed distance of a finite gain to the point 3 dB below a finite
    reference is a number. *)
Lemma finite_distances_are_numbers (reference : float) (l : list float) :
  PrimFloat.is_finite reference = true ->
  forallb PrimFloat.is_finite l = true ->
  Forall (fun x => feqb (distance_to_cutoff reference x) (distance_to_cutoff reference x) = true) l.
Proof.
  intros Href. induction l as [| x r IH]; simpl; intros H; [constructor |].
  apply andb_true_iff in H. destruct H as [Hx Hr].
  constructor; [| apply IH; exact Hr].
  unfold distance_to_cutoff. apply abs_number. apply finite_sub_number; [exact Hx |].
  apply finite_sub_finite; [exact Href | reflexivity].
Qed.

(** On finite gains the analysis of the arrays succeeds, and settles on the
    first index whose computed distance is the least. *)
Lemma binary64_analyse (a : arrays float) :
  gain_arr a <> [] ->
  List.length (freq_arr a) = List.length (gain_arr a) ->
  List.length (phase_arr a) = List.length (gain_arr a) ->
  forallb PrimFloat.is_finite (gain_arr a) = true ->
  exists fig, analyse a = inr fig /\ traces fig = a /\ nearest_as_computed a fig.
Proof.
  destruct a as [fr ph ga]. simpl. intros Hne Hfr Hph Hfin.
  destruct ga as [| g0 gr]; [contradiction |].
  destruct fr as [| first fr']; [discriminate |].
  pose proof (@finite_gains_are_numbers _ Hfin) as Hnum.
  unfold analyse. simpl freq_arr. simpl gain_arr. simpl phase_arr.
  simpl last_of. simpl py_max.
  set (reference := max_from g0 gr).
  destruct (@b64_py_max_spec (g0 :: gr) reference Hnum eq_refl) as [Hin Hmax].
  assert (Href : PrimFloat.is_finite reference = true)
    by (apply (proj1 (forallb_forall _ _) Hfin); exact Hin).
  pose proof (@finite_distances_are_numbers reference (g0 :: gr) Href Hfin) as Hkeys.
  simpl py_min.
  set (nearest := min_from (distance_to_cutoff reference) g0 gr).
  destruct (@b64_min_from_first (distance_to_cutoff reference) gr g0 Hkeys)
    as (before & after & Hsplit & Hbefore & Hafter).
  fold nearest in Hsplit, Hbefore, Hafter.
  assert (Hnearest : feqb nearest nearest = true).
  { apply (proj1 (Forall_forall _ _) Hnum). rewrite Hsplit.
    apply in_or_app. right. left. reflexivity. }
  destruct (@py_index_reaches _ _ nearest before after Hnearest) as (i & Hi & Hle).
  rewrite <- Hsplit in Hi.
  replace (py_index _ (g0 :: gr)) with (Some i) by (symmetry; exact Hi).
  destruct (@py_index_first _ _ _ _ _ Hi) as (g & Hg & Hgv & Hfirst).
  rewrite Hg.
  assert (Hlt : (i < List.length ph)%nat).
  { rewrite Hph. apply nth_error_Some. rewrite Hg. discriminate. }
  destruct (nth_error ph i) as [p |] eqn:Hp;
    [| apply nth_error_None in Hp; exfalso; apply (Nat.lt_irrefl i);
       eapply Nat.lt_le_trans; eauto].
  eexists. split; [reflexivity |]. split; [reflexivity |].
  unfold nearest_as_computed.
  cbn [reference_gain_db cutoff_index cutoff_gain_db cutoff_phase_deg gain_arr phase_arr].
  split; [exact Hin |]. split; [exact Hmax |].
  split; [exact Hg |]. split; [exact Hp |].
  assert (Hkey : distance_to_cutoff reference g = distance_to_cutoff reference nearest)
    by (unfold distance_to_cutoff; apply abs_sub_equal; exact Hgv).
  split.
  - intros j x Hx. rewrite Hkey.
    apply nth_error_In in Hx. rewrite Hsplit in Hx.
    apply in_app_or in Hx. destruct Hx as [Hx | [<- | Hx]].
    + apply b64_ltb_leb. apply (Hbefore _ Hx).
    + apply b64_leb_refl.
      apply (proj1 (Forall_forall _ _) Hkeys). rewrite Hsplit.
      apply in_or_app. right. left. reflexivity.
    + apply (Hafter _ Hx).
  - intros j x Hj Hx. rewrite Hkey.
    rewrite Hsplit in Hx.
    rewrite nth_error_app1 in Hx by (eapply Nat.lt_le_trans; eauto).
    apply nth_error_In in Hx. apply (Hbefore _ Hx).
Qed.

End Binary64Search.

(* ================================================================== *)
(** ** Binary64: the guard of the sweep *)
(* ================================================================== *)

Section Binary64Guard.

(** An amplitude that is at most 0 is not above 10^10. *)
Lemma b64_nonpositive_within_bound (a : float) :
  fleb a (of_Z 0) = true -> fltb ten_e9 a = false.
Proof.
  intros Ha. apply not_true_is_false. intros H.
  pose proof (@b64_ltb_leb_trans _ _ _ H Ha) as Habsurd.
  vm_compute in Habsurd. discriminate.
Qed.

(** The three tests of the guard fail on a sample within the three bounds. *)
Lemma b64_within_bounds_valid (m : measurement float) :
  fleb (meas_freq2 m) (fmul one_and_a_half (meas_freq1 m)) = true ->
  fleb (meas_freq1 m) ten_e9 = true ->
  fleb (meas_ampl1 m) ten_e9 = true ->
  erroneous m = false.
Proof.
  intros Hf2 Hf1 Ha1. unfold erroneous.
  rewrite (@b64_leb_not_gtb _ _ Hf2), (@b64_leb_not_gtb _ _ Hf1), (@b64_leb_not_gtb _ _ Ha1).
  reflexivity.
Qed.

End Binary64Guard.

(* ================================================================== *)
(** ** C1: the fault-free sweep *)
(* ================================================================== *)




(* ================================================================== *)
(** ** C2: classification of a sample, and the erroneous branch *)
(* ================================================================== *)

(** C2, as stated, fails: the sample with both frequencies 0 Hz has an
    output frequency of twice its input frequency, it is not classified
    erroneous, and the sweep writes its row to the file. *)
Lemma C2_counterexample :
  exists out s',
    sweep_frequency (B := Sim.binary64_builtins) 10 100%float 200%float 2 silent_first_step
      = Some (Ok out s')
    /\ feqb (meas_freq2 silent_sample) (fmul (of_Z 2) (meas_freq1 silent_sample)) = true
    /\ erroneous silent_sample = false
    /\ fp (fst out) =
       [Header;
        Row (meas_freq1 silent_sample) (meas_ampl1 silent_sample)
            (meas_freq2 silent_sample) (meas_ampl2 silent_sample)
            (phase_diff silent_sample) 0%float;
        Row 200%float 1%float 200%float 1%float 0%float 0%float]
    /\ error_cnt (fst out) = 0%Z.
Proof.
  eexists. eexists. split; [vm_compute; reflexivity |].
  repeat split.
Qed.

(** C2 (amended): a sample a sweep step returns is classified erroneous
    exactly when one of the three tests of the guard holds, with the
    product 1.5 * input frequency and the comparisons as the program
    computes them in its arithmetic (in exact arithmetic: its output
    frequency exceeds 1.5 times its input frequency, or its input
    frequency or input amplitude exceeds 10^10); the pass that meets an
    erroneous sample writes nothing to the file, adds one to the error
    count and moves the current frequency on by 2.  In particular, in
    exact arithmetic a sample whose output frequency is twice a positive
    input frequency is erroneous.  In binary64 that holds of 1 kHz and
    2 kHz, and not of the smallest positive double and its double: 1.5
    times the former rounds to the latter, and the row is written. *)
Theorem C2_erroneous_sample_is_skipped :
  (forall (F : Type) (N : Float F) (B : Builtins F) (S : Type) (V : Visa S)
          (step : F) (points : Z) (st : locals F) (s s' : S) (m : measurement F),
      measure (curr_freq st) s = Ok m s' ->
      (erroneous m = true <->
       fltb (fmul one_and_a_half (meas_freq1 m)) (meas_freq2 m) = true
       \/ fltb ten_e9 (meas_freq1 m) = true
       \/ fltb ten_e9 (meas_ampl1 m) = true)
      /\ (erroneous m = true ->
          exists c,
            iteration step points st s = Ok c s'
            /\ fp (state_of c) = fp st
            /\ error_cnt (state_of c) = (error_cnt st + 1)%Z
            /\ curr_freq (state_of c) = fadd (curr_freq st) (of_Z 2)))
  /\ (forall m : measurement Q,
        erroneous m = true <->
        ((3 # 2) * meas_freq1 m < meas_freq2 m
         \/ 10000000000 < meas_freq1 m
         \/ 10000000000 < meas_ampl1 m)%Q)
  /\ (forall m : measurement Q,
        (0 < meas_freq1 m)%Q ->
        (meas_freq2 m == 2 * meas_freq1 m)%Q ->
        erroneous m = true)
  /\ (erroneous kilohertz_doubled_sample = true
      /\ fltb (of_Z 0) (meas_freq1 faint_doubled_sample) = true
      /\ feqb (meas_freq2 faint_doubled_sample)
              (fmul (of_Z 2) (meas_freq1 faint_doubled_sample)) = true
      /\ erroneous faint_doubled_sample = false
      /\ after_capture (B := Sim.binary64_builtins) 100%float (initial 100%float)
           faint_doubled_sample
         = inr (Continue (accepted (B := Sim.binary64_builtins) 100%float (initial 100%float)
                            faint_doubled_sample))).
Proof.
  split; [| split; [| split]].
  - intros F N B S V step points st s s' m Hm. split.
    + apply erroneous_iff.
    + intros He. exists (retry step (banner points st)).
      split; [apply (iteration_erroneous _ _ _ _ Hm He) |].
      destruct (retry_state step (banner points st)) as (Hfp & _ & Herr & Hcurr).
      rewrite Hfp, Herr, Hcurr. auto.
  - apply exact_erroneous_iff.
  - intros m Hpos Hdouble. apply exact_erroneous_iff. left.
    rewrite Hdouble. lra.
  - repeat split; vm_compute; reflexivity.
Qed.

Lemma C2_witness :
  (0 < meas_freq1 doubled_sample)%Q
  /\ (meas_freq2 doubled_sample == 2 * meas_freq1 doubled_sample)%Q
  /\ erroneous doubled_sample = true
  /\ exists c,
       measure (B := Sim.exact_builtins) (curr_freq (initial 100%Q)) doubled_first_step
         = Ok doubled_sample
             (Sim.write ":SYSTem:ERRor?" (Sim.write ":SINGLE" doubled_first_step))
       /\ iteration (B := Sim.exact_builtins) 100%Q 2 (initial 100%Q) doubled_first_step
         = Ok c (Sim.write ":SYSTem:ERRor?" (Sim.write ":SINGLE" doubled_first_step))
       /\ fp (state_of c) = [Header]
       /\ error_cnt (state_of c) = 1%Z.
Proof.
  split; [reflexivity |]. split; [reflexivity |].
  split; [apply (proj1 (proj2 (proj2 C2_erroneous_sample_is_skipped))); reflexivity |].
  assert (Hm : measure (B := Sim.exact_builtins) (curr_freq (initial 100%Q)) doubled_first_step
               = Ok doubled_sample
                   (Sim.write ":SYSTem:ERRor?" (Sim.write ":SINGLE" doubled_first_step)))
    by (vm_compute; reflexivity).
  destruct (proj1 C2_erroneous_sample_is_skipped Q exact Sim.exact_builtins _ Sim.visa
              100%Q 2%Z (initial 100%Q) _ _ _ Hm) as [_ Hskip].
  destruct (Hskip eq_refl) as (c & Hit & Hfp & Herr & _).
  exists c. split; [exact Hm |]. split; [exact Hit |]. split; assumption.
Defined.

(* ================================================================== *)
(** ** C3: giving the sweep up *)
(* ================================================================== *)

(** C3, on the code: the erroneous sample that brings the error count of
    the whole sweep above 4 ends the loop; the rows written so far stay in
    the file, which is closed and read back as after a completed sweep.
    The range the sweep then suggests does not run from the start
    frequency to the last accepted frequency: its lower end is the
    constant 100 and its upper end is the nudged current frequency minus
    one step.  In the sweep 200 Hz .. 1000 Hz in 5 points below, whose
    only accepted step is at 200 Hz, the suggestion is 100 Hz .. 210 Hz. *)
Theorem C3_abort_after_five_errors :
  (forall (F : Type) (N : Float F) (B : Builtins F) (S : Type) (V : Visa S)
          (fuel : nat) (step end_freq : F) (points : Z) (st : locals F)
          (s s' : S) (m : measurement F),
      fleb (curr_freq st) end_freq = true ->
      measure (curr_freq st) s = Ok m s' ->
      erroneous m = true ->
      (4 < error_cnt st + 1)%Z ->
      exists st',
        while_loop (Datatypes.S fuel) step end_freq points st s = Some (Ok st' s')
        /\ fp st' = fp st
        /\ error_cnt st' = (error_cnt st + 1)%Z
        /\ In (SuggestedRange (of_Z 100) (fsub (fadd (curr_freq st) (of_Z 2)) step))
              (stdout st'))
  /\ (exists out s',
        sweep_frequency (B := Sim.binary64_builtins) 20 200%float 1000%float 5 five_failures
          = Some (Ok out s')
        /\ error_cnt (fst out) = 5%Z
        /\ fp (fst out) = [Header; Row 200%float 1%float 200%float 1%float 0%float 0%float]
        /\ snd out = Build_arrays [200%float] [0%float] [0%float]
        /\ stdout (fst out) =
           [StepBanner 1 5 200%float;
            StepBanner 2 5 400%float; ErroneousSignal; Retrying 402%float;
            StepBanner 2 5 402%float; ErroneousSignal; Retrying 404%float;
            StepBanner 2 5 404%float; ErroneousSignal; Retrying 406%float;
            StepBanner 2 5 406%float; ErroneousSignal; Retrying 408%float;
            StepBanner 2 5 408%float; ErroneousSignal; Retrying 410%float;
            UnableToRead 410%float; ModifyRange;
            SuggestedRange 100%float 210%float;
            DataSaved]).
Proof.
  split.
  - intros F N B S V fuel step end_freq points st s s' m Hle Hm He Herr.
    rewrite while_loop_unfold, Hle, (iteration_erroneous _ _ _ _ Hm He).
    destruct (retry_break step (banner points st) Herr) as (st' & Hr & Hfp & Hmsg).
    destruct (retry_state step (banner points st)) as (_ & _ & Hcount & _).
    rewrite Hr in Hcount |- *. cbn [state_of] in Hcount.
    exists st'. repeat split; assumption.
  - eexists. eexists. split; [vm_compute; reflexivity |]. repeat split.
Qed.

Lemma C3_witness :
  exists st',
    while_loop (B := Sim.binary64_builtins) 1 200%float 1000%float 5
      after_four_failures fifth_failure
    = Some (Ok st' (Sim.write ":SYSTem:ERRor?" (Sim.write ":SINGLE" fifth_failure)))
    /\ fp st' = [Header; Row 200%float 1%float 200%float 1%float 0%float 0%float]
    /\ error_cnt st' = 5%Z
    /\ In (SuggestedRange 100%float 210%float) (stdout st').
Proof.
  assert (Hle : fleb (curr_freq after_four_failures) 1000%float = true) by reflexivity.
  assert (Hm : measure (B := Sim.binary64_builtins) (curr_freq after_four_failures)
                 fifth_failure
               = Ok (Build_measurement 400%float 1%float 800%float 1%float 0%float)
                   (Sim.write ":SYSTem:ERRor?" (Sim.write ":SINGLE" fifth_failure)))
    by (vm_compute; reflexivity).
  assert (He : erroneous (Build_measurement 400%float 1%float 800%float 1%float 0%float)
               = true) by reflexivity.
  assert (Herr : (4 < error_cnt after_four_failures + 1)%Z) by reflexivity.
  destruct (proj1 C3_abort_after_five_errors float binary64 Sim.binary64_builtins
              Sim.scope Sim.visa 0%nat 200%float 1000%float 5%Z
              after_four_failures fifth_failure _ _ Hle Hm He Herr)
    as (st' & Hrun & Hfp & Hcount & Hmsg).
  exists st'. split; [exact Hrun |]. split; [exact Hfp |]. split; [exact Hcount |].
  exact Hmsg.
Defined.

(* ================================================================== *)
(** ** C4: the cutoff search *)
(* ================================================================== *)

(** C4, as stated, fails of the doubles the program computes with.  On the
    data file with the gains 0.1, -2.4 and -3.4 dB (the doubles nearest to
    them) the reference is 0.1 and the distances the program computes to
    the point 3 dB below it are 3, 0.5 and 0.5: a tie, which the first
    occurrence wins, so the cutoff index is 1.  As numbers the three doubles
    are not at equal distances: the gain at index 2 is strictly nearer to
    the reference minus 3 than the gain at index 1, so index 1 does not
    minimise the distance. *)
Lemma C4_counterexample :
  exists fig g1 g2,
    interactivePlot.plot_bode (B := Sim.binary64_builtins) tied_file = inr fig
    /\ gain_arr (traces fig)
       = [fdiv (of_Z 1) (of_Z 10); fdiv (of_Z (-24)) (of_Z 10); fdiv (of_Z (-34)) (of_Z 10)]
    /\ cutoff_index fig = 1%nat
    /\ nth_error (gain_arr (traces fig)) 1 = Some g1
    /\ nth_error (gain_arr (traces fig)) 2 = Some g2
    /\ feqb (interactivePlot.distance_to_cutoff (reference_gain_db fig) g1)
            (interactivePlot.distance_to_cutoff (reference_gain_db fig) g2) = true
    /\ (off_target (exact_value (reference_gain_db fig)) (exact_value g2)
        < off_target (exact_value (reference_gain_db fig)) (exact_value g1))%Q.
Proof.
  eexists. eexists. eexists.
  split; [vm_compute; reflexivity |].
  split; [vm_compute; reflexivity |].
  split; [reflexivity |].
  split; [reflexivity |].
  split; [reflexivity |].
  split; vm_compute; reflexivity.
Qed.

(** C4 (amended): for every data file that holds at least two rows whose
    gains are finite doubles, [plot_bode] takes as reference a gain that no
    gain exceeds and settles on the first index at which the distance
    [abs(gain - (reference - 3))], as the program computes it in binary64,
    is the least: no row has a smaller computed distance and every earlier
    row has a larger one; the two reference lines are the gain and the
    phase at that index.  In exact arithmetic the computed distance is the
    distance, and the index is the first one whose gain is nearest to the
    reference minus 3.  For the gains 0, -1, -3, -6, -9 dB the index is 2,
    in exact arithmetic and in binary64. *)
Theorem C4_cutoff_is_nearest_to_3dB_down :
  (forall (B : Builtins float) (text : string),
      (2 <= List.length (gain_arr (interactivePlot.parse_file text)))%nat ->
      forallb PrimFloat.is_finite (gain_arr (interactivePlot.parse_file text)) = true ->
      exists fig,
        interactivePlot.plot_bode text = inr fig
        /\ nearest_as_computed (interactivePlot.parse_file text) fig)
  /\ (forall (B : Builtins Q) (text : string),
      (2 <= List.length (gain_arr (interactivePlot.parse_file text)))%nat ->
      exists fig,
        interactivePlot.plot_bode text = inr fig
        /\ nearest_to_3dB_down (interactivePlot.parse_file text) fig)
  /\ cutoff_of (roll_off (F := Q)) = Some 2%nat
  /\ cutoff_of (roll_off (F := float)) = Some 2%nat.
Proof.
  split; [| split; [| split; vm_compute; reflexivity]].
  - intros B text Hlen Hfinite. unfold interactivePlot.plot_bode.
    destruct (parse_lines_lengths (readlines text)) as [Hfr Hph].
    destruct (@binary64_analyse (interactivePlot.parse_file text)) as (fig & Hfig & _ & Hspec).
    + intros E. rewrite E in Hlen. inversion Hlen.
    + exact Hfr.
    + exact Hph.
    + exact Hfinite.
    + exists fig. split; assumption.
  - intros B text Hlen. unfold interactivePlot.plot_bode.
    destruct (parse_lines_lengths (readlines text)) as [Hfr Hph].
    destruct (exact_analyse (interactivePlot.parse_file text)) as (fig & Hfig & _ & Hspec).
    + intros E. rewrite E in Hlen. inversion Hlen.
    + exact Hfr.
    + exact Hph.
    + exists fig. split; assumption.
Qed.

Lemma C4_witness :
  ((2 <= List.length (gain_arr (interactivePlot.parse_file (B := Sim.binary64_builtins)
                                  tied_file)))%nat
   /\ forallb PrimFloat.is_finite
        (gain_arr (interactivePlot.parse_file (B := Sim.binary64_builtins) tied_file)) = true
   /\ exists fig,
        interactivePlot.plot_bode (B := Sim.binary64_builtins) tied_file = inr fig
        /\ nearest_as_computed
             (interactivePlot.parse_file (B := Sim.binary64_builtins) tied_file) fig)
  /\ ((2 <= List.length (gain_arr (interactivePlot.parse_file (B := Sim.exact_builtins)
                                     roll_off_file)))%nat
      /\ exists fig,
           interactivePlot.plot_bode (B := Sim.exact_builtins) roll_off_file = inr fig
           /\ nearest_to_3dB_down
                (interactivePlot.parse_file (B := Sim.exact_builtins) roll_off_file) fig).
Proof.
  assert (Hb : (2 <= List.length (gain_arr (interactivePlot.parse_file
                                              (B := Sim.binary64_builtins) tied_file)))%nat)
    by (vm_compute; repeat constructor).
  assert (Hf : forallb PrimFloat.is_finite
                 (gain_arr (interactivePlot.parse_file (B := Sim.binary64_builtins) tied_file))
               = true)
    by (vm_compute; reflexivity).
  assert (H : (2 <= List.length (gain_arr (interactivePlot.parse_file
                                             (B := Sim.exact_builtins) roll_off_file)))%nat)
    by (vm_compute; repeat constructor).
  split.
  - split; [exact Hb |]. split; [exact Hf |].
    exact (proj1 C4_cutoff_is_nearest_to_3dB_down Sim.binary64_builtins tied_file Hb Hf).
  - split; [exact H |].
    exact (proj1 (proj2 C4_cutoff_is_nearest_to_3dB_down) Sim.exact_builtins roll_off_file H).
Defined.

(* ================================================================== *)
(** ** C5: samples with a non-positive input amplitude *)
(* ================================================================== *)

(** C5, as stated, fails: the step that reads -1 Vpp on the input channel
    (and -10 Vpp on the output channel) is not treated as erroneous; its
    gain is computed and its row is written. *)
Lemma C5_counterexample :
  exists out s',
    sweep_frequency (B := Sim.binary64_builtins) 10 100%float 200%float 2 inverted_first_step
      = Some (Ok out s')
    /\ fp (fst out) =
       [Header;
        Row 100%float (-1)%float 100%float (-10)%float 180%float 20%float;
        Row 200%float 1%float 200%float 1%float 0%float 0%float]
    /\ error_cnt (fst out) = 0%Z
    /\ fleb (-1)%float (of_Z 0) = true.
Proof.
  eexists. eexists. split; [vm_compute; reflexivity |].
  repeat split.
Qed.

(** C5 (amended): the classification does not look at the sign of the input
    amplitude.  In binary64 a sample whose input amplitude is at most 0 and
    on which neither frequency test of the guard fires is classified valid
    (it is not nudged and retried) and reaches the gain computation.  From
    there, in any arithmetic, its row is written, with the gain
    20*log10(output/input), when the input amplitude is not zero and the
    quotient output/input the program computes is not at most 0; the step
    raises [ZeroDivisionError] when the input amplitude is zero and
    [ValueError] when the computed quotient is at most 0, as it is for two
    negative amplitudes whose quotient underflows to 0.  What the code does
    guarantee of every sample whose gain it records is that the input
    amplitude is not zero and the computed quotient is not at most 0.  In
    exact arithmetic the row is written whenever both amplitudes are
    negative, and the quotient of a recorded sample is positive. *)
Theorem C5_input_amplitude_sign_is_not_guarded :
  (forall (B : Builtins float) (step : float) (st : locals float) (m : measurement float),
      fleb (meas_ampl1 m) (of_Z 0) = true ->
      fltb (fmul one_and_a_half (meas_freq1 m)) (meas_freq2 m) = false ->
      fltb ten_e9 (meas_freq1 m) = false ->
      erroneous m = false
      /\ after_capture step st m = record step st m)
  /\ (forall (F : Type) (N : Float F) (B : Builtins F)
             (step : F) (st : locals F) (m : measurement F),
        erroneous m = false ->
        (feqb (meas_ampl1 m) (of_Z 0) = false ->
         fleb (fdiv (meas_ampl2 m) (meas_ampl1 m)) (of_Z 0) = false ->
         after_capture step st m = inr (Continue (accepted step st m)))
        /\ (feqb (meas_ampl1 m) (of_Z 0) = true ->
            after_capture step st m = inl ZeroDivisionError)
        /\ (feqb (meas_ampl1 m) (of_Z 0) = false ->
            fleb (fdiv (meas_ampl2 m) (meas_ampl1 m)) (of_Z 0) = true ->
            after_capture step st m = inl ValueError)
        /\ (forall c,
              after_capture step st m = inr c ->
              c = Continue (accepted step st m)
              /\ feqb (meas_ampl1 m) (of_Z 0) = false
              /\ fleb (fdiv (meas_ampl2 m) (meas_ampl1 m)) (of_Z 0) = false))
  /\ (fltb (meas_ampl1 underflowing_sample) (of_Z 0) = true
      /\ fltb (meas_ampl2 underflowing_sample) (of_Z 0) = true
      /\ erroneous underflowing_sample = false
      /\ after_capture (B := Sim.binary64_builtins) 100%float (initial 100%float)
           underflowing_sample = inl ValueError)
  /\ (forall (B : Builtins Q) (step : Q) (st : locals Q) (m : measurement Q),
        ((meas_ampl1 m <= 0)%Q ->
         (meas_freq2 m <= (3 # 2) * meas_freq1 m)%Q ->
         (meas_freq1 m <= 10000000000)%Q ->
         erroneous m = false
         /\ ((meas_ampl1 m < 0)%Q -> (meas_ampl2 m < 0)%Q ->
             after_capture step st m = inr (Continue (accepted step st m))))
        /\ (forall c,
              erroneous m = false ->
              after_capture step st m = inr c ->
              c = Continue (accepted step st m)
              /\ ~ (meas_ampl1 m == 0)%Q
              /\ (0 < meas_ampl2 m / meas_ampl1 m)%Q)).
Proof.
  split; [| split; [| split]].
  - intros B step st m Ha Hf2 Hf1.
    assert (He : erroneous m = false).
    { unfold erroneous. rewrite Hf2, Hf1, (@b64_nonpositive_within_bound _ Ha). reflexivity. }
    split; [exact He |].
    unfold after_capture. rewrite He. reflexivity.
  - intros F N B step st m He. unfold after_capture. rewrite He.
    split; [apply record_defined |].
    split; [apply record_divides_by_zero |].
    split; [apply record_leaves_the_domain |].
    intros c Hc. apply record_inv in Hc. exact Hc.
  - repeat split; vm_compute; reflexivity.
  - intros B step st m. split.
    + intros Ha Hf2 Hf1.
      assert (He : erroneous m = false) by (apply exact_erroneous_false; repeat split; lra).
      split; [exact He |].
      intros Ha1 Ha2. unfold after_capture. rewrite He.
      apply record_defined.
      * apply exact_eqb_false. intros E. simpl in E. unfold inject_Z in E. lra.
      * apply exact_leb_false. simpl. apply exact_negative_ratio; assumption.
    + intros c He Hc. unfold after_capture in Hc. rewrite He in Hc.
      apply record_inv in Hc. destruct Hc as (-> & H0 & H1).
      split; [reflexivity |]. split.
      * apply exact_eqb_false in H0. exact H0.
      * apply exact_leb_false in H1. exact H1.
Qed.

Lemma C5_witness :
  (fleb (meas_ampl1 inverted_sample_binary64) (of_Z 0) = true
   /\ erroneous inverted_sample_binary64 = false
   /\ after_capture (B := Sim.binary64_builtins) 100%float (initial 100%float)
        inverted_sample_binary64
      = inr (Continue (accepted (B := Sim.binary64_builtins) 100%float (initial 100%float)
                         inverted_sample_binary64)))
  /\ ((meas_ampl1 inverted_sample <= 0)%Q
      /\ erroneous inverted_sample = false
      /\ after_capture (B := Sim.exact_builtins) 100%Q (initial 100%Q) inverted_sample
         = inr (Continue (accepted (B := Sim.exact_builtins) 100%Q (initial 100%Q)
                            inverted_sample))).
Proof.
  split.
  - assert (Ha : fleb (meas_ampl1 inverted_sample_binary64) (of_Z 0) = true)
      by (vm_compute; reflexivity).
    assert (Hf2 : fltb (fmul one_and_a_half (meas_freq1 inverted_sample_binary64))
                       (meas_freq2 inverted_sample_binary64) = false)
      by (vm_compute; reflexivity).
    assert (Hf1 : fltb ten_e9 (meas_freq1 inverted_sample_binary64) = false)
      by (vm_compute; reflexivity).
    destruct (proj1 C5_input_amplitude_sign_is_not_guarded Sim.binary64_builtins
                100%float (initial 100%float) inverted_sample_binary64 Ha Hf2 Hf1)
      as [He Hreach].
    split; [exact Ha |]. split; [exact He |].
    apply (proj1 (proj2 C5_input_amplitude_sign_is_not_guarded) float binary64
             Sim.binary64_builtins 100%float (initial 100%float)
             inverted_sample_binary64 He);
      vm_compute; reflexivity.
  - assert (Ha : (meas_ampl1 inverted_sample <= 0)%Q) by (vm_compute; discriminate).
    assert (Hf2 : (meas_freq2 inverted_sample <= (3 # 2) * meas_freq1 inverted_sample)%Q)
      by (vm_compute; discriminate).
    assert (Hf1 : (meas_freq1 inverted_sample <= 10000000000)%Q)
      by (vm_compute; discriminate).
    destruct (proj1 (proj2 (proj2 (proj2 C5_input_amplitude_sign_is_not_guarded))
                       Sim.exact_builtins 100%Q (initial 100%Q) inverted_sample)
                Ha Hf2 Hf1) as [He Hrec].
    split; [exact Ha |]. split; [exact He |].
    apply Hrec; reflexivity.
Defined.

(* ================================================================== *)
(** ** C6: data files with fewer than two rows *)
(* ================================================================== *)




(* ================================================================== *)
(** ** C7: transport errors *)
(* ================================================================== *)

(** C7: run the sweep on any session, and on that session recorded.  Both
    runs end alike.  If the sweep exits, its exit code is 1, the report it
    printed names the instrument's error reply and the command written
    just before the error query, and the transcript ends at that reply:
    nothing is sent after the first error the instrument reports.  If the
    sweep returns (or dies of an exception), no reply to an error query in
    the whole transcript reports an error.  Within the loop, a pass whose
    measurement exits ends the loop with that exit, whatever the error
    count; a pass whose sample is classified erroneous, while at most 4
    errors are counted, only updates the locals and goes on to the next
    test of the loop. *)
Theorem C7_transport_errors_end_the_sweep :
  (forall (F : Type) (N : Float F) (B : Builtins F) (S : Type) (V : Visa S)
          (fuel : nat) (start_freq end_freq : F) (points : Z) (s : S),
      runs_agree (fresh s)
        (sweep_frequency (V := V) fuel start_freq end_freq points s)
        (sweep_frequency (V := recording V) fuel start_freq end_freq points (fresh s)))
  /\ (forall (F : Type) (N : Float F) (B : Builtins F) (S : Type) (V : Visa S)
             (fuel : nat) (step end_freq : F) (points : Z) (st : locals F)
             (s s' : S) (c : Z) (w : fatal),
         fleb (curr_freq st) end_freq = true ->
         measure (curr_freq st) s = SysExit c w s' ->
         while_loop (Datatypes.S fuel) step end_freq points st s = Some (SysExit c w s'))
  /\ (forall (F : Type) (N : Float F) (B : Builtins F) (S : Type) (V : Visa S)
             (fuel : nat) (step end_freq : F) (points : Z) (st : locals F)
             (s s' : S) (m : measurement F),
         fleb (curr_freq st) end_freq = true ->
         measure (curr_freq st) s = Ok m s' ->
         erroneous m = true ->
         (error_cnt st + 1 <= 4)%Z ->
         while_loop (Datatypes.S fuel) step end_freq points st s
         = while_loop fuel step end_freq points
             (Build_locals (counter st) (error_cnt st + 1) (fadd (curr_freq st) (of_Z 2))
                (fp st)
                (stdout st ++ [StepBanner (counter st) points (curr_freq st);
                               ErroneousSignal;
                               Retrying (fadd (curr_freq st) (of_Z 2))])%list)
             s').
Proof.
  split; [| split].
  - intros. apply runs_agree_sweep_frequency.
  - intros F N B S V fuel step end_freq points st s s' c w Hle Hm.
    rewrite while_loop_unfold, Hle, (iteration_exits _ _ _ _ Hm). reflexivity.
  - intros F N B S V fuel step end_freq points st s s' m Hle Hm He Herr.
    rewrite while_loop_unfold, Hle, (iteration_erroneous _ _ _ _ Hm He).
    rewrite (retry_control _ (banner points st) Herr).
    cbn [banner say counter error_cnt curr_freq fp stdout].
    rewrite <- app_assoc. reflexivity.
Qed.

(** The instrument reports "-113" at the 40th error query of a sweep: the
    sweep exits with code 1, naming the query it had just sent. *)
Example transport_error_in_the_first_pass :
  exists s',
    sweep_frequency (B := Sim.binary64_builtins) 10 100%float 200%float 2 faulty_first_pass
    = Some (SysExit 1 (InstrumentError "-113,Undefined header" ":MEASure:FREQuency? CHANnel2")
              s').
Proof. eexists. vm_compute. reflexivity. Qed.

Lemma C7_witness :
  fleb (curr_freq (initial 100%float)) 200%float = true
  /\ while_loop (B := Sim.binary64_builtins) 1 100%float 200%float 2 (initial 100%float)
       (Sim.failing_after 17 [Sim.reading_of 100 1 100 1 0])
     = Some (SysExit 1
               (InstrumentError "-113,Undefined header" ":MEASure:FREQuency? CHANnel2")
               (Sim.write ":SYSTem:ERRor?"
                  (Sim.write ":MEASure:FREQuency? CHANnel2"
                     (Sim.write ":SINGLE" (Sim.failing_after 0 [Sim.reading_of 100 1 100 1 0]))))).
Proof.
  assert (Hle : fleb (curr_freq (initial 100%float)) 200%float = true) by reflexivity.
  split; [exact Hle |].
  apply (proj1 (proj2 C7_transport_errors_end_the_sweep)).
  - exact Hle.
  - vm_compute. reflexivity.
Defined.

(* ================================================================== *)
(** ** C8: the data file round-trips *)
(* ================================================================== *)



(* ================================================================== *)
(** ** C9: the output amplitude is not checked against the bound *)
(* ================================================================== *)

(** C9, as stated, fails: a sample that meets the three guards is not
    always accepted into the dataset.  With 0 Vpp on the input channel and
    2*10^10 Vpp on the output channel the guards pass, the gain computation
    divides by zero, and the sweep dies without writing the row. *)
Lemma C9_counterexample :
  exists s',
    sweep_frequency (B := Sim.binary64_builtins) 10 100%float 200%float 2 dead_input_first_step
      = Some (Raise ZeroDivisionError s')
    /\ erroneous (Build_measurement 100%float 0%float 100%float 20000000000%float 0%float)
       = false
    /\ fltb ten_e9 20000000000%float = true.
Proof.
  eexists. split; [vm_compute; reflexivity |].
  repeat split.
Qed.

(** C9 (amended): the guard never looks at the output amplitude.  In
    binary64 every sample whose output frequency is at most 1.5 times its
    input frequency (the product as the program computes it) and whose
    input frequency and input amplitude are at most 10^10 is classified
    valid, whatever its output amplitude, also above 10^10, and reaches the
    gain computation; it is appended to the dataset exactly when its gain
    is defined: the input amplitude is not zero and the quotient
    output/input the program computes is not at most 0 (a quotient that
    underflows to 0 is).  In exact arithmetic that is: the input amplitude
    is not zero and the ratio output/input is positive. *)
Theorem C9_output_amplitude_is_not_checked :
  (forall (B : Builtins float) (step : float) (st : locals float) (m : measurement float),
      fleb (meas_freq2 m) (fmul one_and_a_half (meas_freq1 m)) = true ->
      fleb (meas_freq1 m) ten_e9 = true ->
      fleb (meas_ampl1 m) ten_e9 = true ->
      erroneous m = false
      /\ after_capture step st m = record step st m
      /\ (feqb (meas_ampl1 m) (of_Z 0) = false ->
          fleb (fdiv (meas_ampl2 m) (meas_ampl1 m)) (of_Z 0) = false ->
          after_capture step st m = inr (Continue (accepted step st m))
          /\ fp (accepted step st m) = (fp st ++ [row_of m])%list)
      /\ (forall c,
            after_capture step st m = inr c ->
            c = Continue (accepted step st m)
            /\ feqb (meas_ampl1 m) (of_Z 0) = false
            /\ fleb (fdiv (meas_ampl2 m) (meas_ampl1 m)) (of_Z 0) = false))
  /\ (forall (B : Builtins Q) (step : Q) (st : locals Q) (m : measurement Q),
        (meas_freq2 m <= (3 # 2) * meas_freq1 m)%Q ->
        (meas_freq1 m <= 10000000000)%Q ->
        (meas_ampl1 m <= 10000000000)%Q ->
        erroneous m = false
        /\ (~ (meas_ampl1 m == 0)%Q ->
            (0 < meas_ampl2 m / meas_ampl1 m)%Q ->
            after_capture step st m = inr (Continue (accepted step st m))
            /\ fp (accepted step st m) = (fp st ++ [row_of m])%list)).
Proof.
  split.
  - intros B step st m Hf2 Hf1 Ha1.
    assert (He : erroneous m = false) by (apply b64_within_bounds_valid; assumption).
    split; [exact He |].
    unfold after_capture. rewrite He.
    split; [reflexivity |]. split.
    + intros H0 H1. split; [apply record_defined; assumption | reflexivity].
    + intros c Hc. apply record_inv in Hc. exact Hc.
  - intros B step st m Hf2 Hf1 Ha1.
    assert (He : erroneous m = false) by (apply exact_erroneous_false; auto).
    split; [exact He |].
    intros Hnz Hratio. split; [| reflexivity].
    unfold after_capture. rewrite He. apply record_defined.
    + apply exact_eqb_false. exact Hnz.
    + apply exact_leb_false. exact Hratio.
Qed.

Lemma C9_witness :
  (fltb ten_e9 (meas_ampl2 huge_output_sample_binary64) = true
   /\ erroneous huge_output_sample_binary64 = false
   /\ after_capture (B := Sim.binary64_builtins) 100%float (initial 100%float)
        huge_output_sample_binary64
      = inr (Continue (accepted (B := Sim.binary64_builtins) 100%float (initial 100%float)
                         huge_output_sample_binary64)))
  /\ ((10000000000 < meas_ampl2 huge_output_sample)%Q
      /\ erroneous huge_output_sample = false
      /\ after_capture (B := Sim.exact_builtins) 100%Q (initial 100%Q) huge_output_sample
         = inr (Continue (accepted (B := Sim.exact_builtins) 100%Q (initial 100%Q)
                            huge_output_sample))).
Proof.
  split.
  - assert (Hf2 : fleb (meas_freq2 huge_output_sample_binary64)
                       (fmul one_and_a_half (meas_freq1 huge_output_sample_binary64)) = true)
      by (vm_compute; reflexivity).
    assert (Hf1 : fleb (meas_freq1 huge_output_sample_binary64) ten_e9 = true)
      by (vm_compute; reflexivity).
    assert (Ha1 : fleb (meas_ampl1 huge_output_sample_binary64) ten_e9 = true)
      by (vm_compute; reflexivity).
    destruct (proj1 C9_output_amplitude_is_not_checked Sim.binary64_builtins
                100%float (initial 100%float) huge_output_sample_binary64 Hf2 Hf1 Ha1)
      as (He & _ & Hrec & _).
    split; [vm_compute; reflexivity |]. split; [exact He |].
    apply Hrec; vm_compute; reflexivity.
  - assert (Hf2 : (meas_freq2 huge_output_sample
                   <= (3 # 2) * meas_freq1 huge_output_sample)%Q)
      by (vm_compute; discriminate).
    assert (Hf1 : (meas_freq1 huge_output_sample <= 10000000000)%Q)
      by (vm_compute; discriminate).
    assert (Ha1 : (meas_ampl1 huge_output_sample <= 10000000000)%Q)
      by (vm_compute; discriminate).
    destruct (proj2 C9_output_amplitude_is_not_checked Sim.exact_builtins
                100%Q (initial 100%Q) huge_output_sample Hf2 Hf1 Ha1) as [He Hrec].
    split; [reflexivity |]. split; [exact He |].
    apply Hrec.
    + vm_compute. discriminate.
    + reflexivity.
Defined.

(* ================================================================== *)
(** ** C10: an erroneous sample within 2 Hz of the stop frequency *)
(* ================================================================== *)

(** C10, as stated, fails on a plan whose start and stop frequencies
    coincide: the increment is 0, valid samples pile up rows at the same
    frequency, and when an erroneous sample then nudges the frequency past
    the stop frequency the sweep ends normally with as many rows as the
    plan has points, not fewer. *)
Lemma C10_counterexample :
  exists out s',
    sweep_frequency (B := Sim.binary64_builtins) 10 100%float 100%float 2 standing_sweep
      = Some (Ok out s')
    /\ error_cnt (fst out) = 1%Z
    /\ existsb is_abort (stdout (fst out)) = false
    /\ List.length (data_rows (fp (fst out))) = 2%nat.
Proof.
  eexists. eexists. split; [vm_compute; reflexivity |]. repeat split.
Qed.

(** C10 (amended): in exact arithmetic, for a plan with at least 2 points
    and a start frequency below its stop frequency: if in a pass of the
    loop the sample is classified erroneous, the error count including it
    is at most 4, and the current frequency plus 2 exceeds the stop
    frequency, then the loop ends at its next test.  The sweep returns as
    it does when it completes: nothing was written for that sample, no
    abort message is printed, and fewer rows than points are recorded. *)
Theorem C10_nudge_past_the_stop_frequency :
  forall (B : Builtins Q) (S : Type) (V : Visa S)
         (start_freq end_freq : Q) (points : Z)
         (st : locals Q) (s s' : S) (m : measurement Q) (fuel : nat),
    (2 <= points)%Z ->
    (start_freq < end_freq)%Q ->
    reachable start_freq end_freq (frequency_step start_freq end_freq points) st ->
    (curr_freq st <= end_freq)%Q ->
    measure (curr_freq st) s = Ok m s' ->
    erroneous m = true ->
    (error_cnt st + 1 <= 4)%Z ->
    (end_freq < curr_freq st + 2)%Q ->
    exists st',
      while_loop (Datatypes.S (Datatypes.S fuel))
        (frequency_step start_freq end_freq points) end_freq points st s
        = Some (Ok st' s')
      /\ fp st' = fp st
      /\ error_cnt st' = (error_cnt st + 1)%Z
      /\ stdout st' =
         (stdout st ++ [StepBanner (counter st) points (curr_freq st);
                        ErroneousSignal; Retrying (curr_freq st + 2)%Q])%list
      /\ (List.length (data_rows (fp st')) < Z.to_nat points)%nat.
Proof.
  intros B S V start_freq end_freq points st s s' m fuel
         Hpoints Horder Hreach Hle Hm He Herr Hpast.
  pose proof (reachable_on_track Hpoints Horder Hreach) as Htrack.
  pose proof (on_track_in_loop Hpoints Horder Htrack Hle) as Hrows.
  rewrite while_loop_unfold.
  rewrite (proj2 (exact_leb_true _ _) Hle).
  rewrite (iteration_erroneous _ _ _ _ Hm He).
  rewrite (retry_control _ (banner points st) Herr).
  rewrite while_loop_unfold.
  cbn [curr_freq banner say].
  assert (Hb : fleb (fadd (curr_freq st) (of_Z 2)) end_freq = false)
    by (apply exact_leb_false; exact Hpast).
  rewrite Hb.
  eexists. split; [reflexivity |].
  cbn [fp error_cnt stdout counter curr_freq banner say].
  split; [reflexivity |]. split; [reflexivity |].
  split; [rewrite <- app_assoc; reflexivity |].
  destruct Htrack as (Hc & _). lia.
Qed.

Lemma C10_witness :
  exists st',
    while_loop (B := Sim.exact_builtins) 2 (frequency_step 100 101 2) 101%Q 2
      (initial 100%Q) (Sim.write ":SYSTem:ERRor?" (Sim.write ":SINGLE" last_step_fails))
      = Some (Ok st' (Sim.write ":SYSTem:ERRor?"
                        (Sim.write ":SINGLE"
                           (Sim.write ":SYSTem:ERRor?" (Sim.write ":SINGLE" last_step_fails)))))
    /\ fp st' = [Header]
    /\ error_cnt st' = 1%Z
    /\ (List.length (data_rows (fp st')) < Z.to_nat 2)%nat.
Proof.
  destruct (@C10_nudge_past_the_stop_frequency Sim.exact_builtins _ Sim.visa
              100%Q 101%Q 2%Z (initial 100%Q)
              (Sim.write ":SYSTem:ERRor?" (Sim.write ":SINGLE" last_step_fails))
              (Sim.write ":SYSTem:ERRor?"
                 (Sim.write ":SINGLE"
                    (Sim.write ":SYSTem:ERRor?" (Sim.write ":SINGLE" last_step_fails))))
              doubled_sample 0%nat)
    as (st' & Hrun & Hfp & Herr & _ & Hrows).
  - lia.
  - reflexivity.
  - apply reach_initial.
  - vm_compute. discriminate.
  - vm_compute. reflexivity.
  - reflexivity.
  - vm_compute. discriminate.
  - reflexivity.
  - exists st'. repeat split; assumption.
Defined.

(* ================================================================== *)
(** ** Binary64: the sweep can stop one point short *)
(* ================================================================== *)

(** In binary64 the current frequency accumulates the rounding of each
    addition of the increment.  For the plan 100 Hz .. 10000 Hz in 24
    points the 23 additions overshoot the stop frequency, and the
    fault-free sweep records 23 rows; for the default plan, in 25 points,
    the increment is exact and the sweep records 25. *)
Example binary64_sweep_stops_one_point_short :
  (exists out s',
      sweep_frequency (B := Sim.binary64_builtins) 40 100%float 10000%float 24
        constant_readings = Some (Ok out s')
      /\ error_cnt (fst out) = 0%Z
      /\ List.length (data_rows (fp (fst out))) = 23%nat
      /\ fltb 10000%float (curr_freq (fst out)) = true)
  /\ (exists out s',
        sweep_frequency (B := Sim.binary64_builtins) 40 100%float 10000%float 25
          constant_readings = Some (Ok out s')
        /\ error_cnt (fst out) = 0%Z
        /\ List.length (data_rows (fp (fst out))) = 25%nat).
Proof.
  split; eexists; eexists; (split; [vm_compute; reflexivity |]); repeat split.
Qed.

(* ================================================================== *)
(** ** Further properties of the sweep *)
(* ================================================================== *)

(** X2: in any arithmetic, when a sweep returns, every pass of its loop
    either wrote a row or counted an error (the [STEP] lines printed are as
    many as the rows plus the errors), the [STEP] counter is one ahead of
    the rows, at most 5 errors were counted, and the sweep printed that it
    gives up exactly when the count reached 5. *)
Theorem sweep_books_balance :
  forall (F : Type) (N : Float F) (B : Builtins F) (S : Type) (V : Visa S)
         (fuel : nat) (start_freq end_freq : F) (points : Z) (s s' : S)
         (out : locals F * arrays F),
    sweep_frequency fuel start_freq end_freq points s = Some (Ok out s') ->
    passes (fst out) = (rows (fst out) + error_cnt (fst out))%Z
    /\ counter (fst out) = (1 + rows (fst out))%Z
    /\ (0 <= error_cnt (fst out) <= 5)%Z
    /\ (gave_up (fst out) = true <-> error_cnt (fst out) = 5%Z).
Proof.
  intros F N B S V fuel start_freq end_freq points s s' out Hrun.
  pose proof (sweep_frequency_file _ _ _ _ _ Hrun) as [(body & Hfp & Hrows & Hcount) _].
  rewrite sweep_frequency_unfold in Hrun.
  destruct (py_div (fsub end_freq start_freq) (of_Z (points - 1))) as [e | step];
    [discriminate |].
  destruct (measure start_freq s) as [m s1 | c w s1 | e s1]; try discriminate.
  destruct (while_loop fuel step end_freq points (initial start_freq) s1)
    as [[st s2 | c w s2 | e s2] |] eqn:Hloop; try discriminate.
  inversion Hrun. subst out s'. clear Hrun.
  apply (while_loop_tally _ _ _ _ _ (tally_initial start_freq)) in Hloop.
  apply tally_finish in Hloop. destruct Hloop as (Hp & He & Hg).
  split; [exact Hp |]. split; [| split; assumption].
  unfold rows, data_rows. rewrite Hcount, Hfp. cbn [filter is_row].
  assert (E : filter is_row body = body).
  { clear - Hrows. induction body as [| l body IH]; [reflexivity |].
    simpl in Hrows |- *. apply andb_true_iff in Hrows. destruct Hrows as [Hl Hb].
    rewrite Hl, (IH Hb). reflexivity. }
  rewrite E. reflexivity.
Qed.

Lemma sweep_books_balance_witness :
  exists out s',
    sweep_frequency (B := Sim.binary64_builtins) 20 200%float 1000%float 5 five_failures
      = Some (Ok out s')
    /\ passes (fst out) = (rows (fst out) + error_cnt (fst out))%Z
    /\ error_cnt (fst out) = 5%Z
    /\ gave_up (fst out) = true.
Proof.
  eexists. eexists.
  match goal with
  | |- ?run = Some (Ok ?o ?s1) /\ _ =>
      assert (Hrun : run = Some (Ok o s1)) by (vm_compute; reflexivity)
  end.
  split; [exact Hrun |].
  destruct (sweep_books_balance _ _ _ _ _ _ _ _ Hrun) as (Hp & _ & _ & Hg).
  split; [exact Hp |]. split; [reflexivity |]. apply Hg. reflexivity.
Defined.

(** X3: in exact arithmetic, for a plan with at least 2 points and a start
    frequency below its stop frequency, a sweep that returns without an
    error counted has driven its passes along the grid of the plan: the
    k-th pass at start + k * step, for k = 0 .. points - 1, the last of
    them at the stop frequency. *)
Theorem fault_free_sweep_follows_the_grid :
  forall (B : Builtins Q) (S : Type) (V : Visa S)
         (start_freq end_freq : Q) (points : Z) (fuel : nat) (s s' : S)
         (out : locals Q * arrays Q),
    (2 <= points)%Z ->
    (start_freq < end_freq)%Q ->
    sweep_frequency fuel start_freq end_freq points s = Some (Ok out s') ->
    error_cnt (fst out) = 0%Z ->
    Forall2 Qeq (driven_freqs (stdout (fst out)))
      (map (grid start_freq end_freq points) (seq 0 (Z.to_nat points)))
    /\ (grid start_freq end_freq points (Z.to_nat points - 1) == end_freq)%Q.
Proof.
  intros B S V start_freq end_freq points fuel s s' out Hpoints Horder Hrun Hzero.
  split; [| apply grid_last; assumption].
  rewrite sweep_frequency_unfold, (py_div_step start_freq end_freq Hpoints) in Hrun.
  destruct (measure start_freq s) as [m s1 | c w s1 | e s1]; try discriminate.
  destruct (while_loop fuel _ end_freq points (initial start_freq) s1)
    as [[st s2 | c w s2 | e s2] |] eqn:Hloop; try discriminate.
  inversion Hrun. subst out s'. clear Hrun.
  cbn [finish fst say error_cnt stdout] in Hzero |- *.
  pose proof (on_track_initial start_freq end_freq Hpoints) as Htrack.
  assert (Hheader : Forall gain_is_20_log10 (fp (initial start_freq)))
    by (repeat constructor).
  destruct (while_loop_ends (V := V) Hpoints Horder _ _ Htrack Hheader Hloop)
    as (Htrack' & _ & Hexit).
  destruct (while_loop_ascending (V := V) Hpoints Horder _ _
              (ascending_initial start_freq) Hloop) as (_ & _ & Hpasses).
  pose proof (while_loop_on_grid (V := V) Hpoints Horder _ _ Htrack
                (ascending_initial start_freq) (on_grid_initial end_freq points)
                Hloop Hzero) as Hgrid.
  assert (Hcount : (counter st - 1 = points)%Z).
  { apply (on_track_after_loop Hpoints Horder Htrack'); [apply Hexit; lia | exact Hzero]. }
  rewrite driven_freqs_app. cbn [driven_freqs flat_map]. rewrite app_nil_r.
  replace (Z.to_nat points) with (List.length (driven_freqs (stdout st))) by lia.
  exact Hgrid.
Qed.

Lemma fault_free_sweep_follows_the_grid_witness :
  exists out s',
    sweep_frequency (B := Sim.exact_builtins) 8 100%Q 200%Q 2 steady_readings
      = Some (Ok out s')
    /\ (2 <= 2)%Z
    /\ (100 < 200)%Q
    /\ error_cnt (fst out) = 0%Z
    /\ Forall2 Qeq (driven_freqs (stdout (fst out)))
         (map (grid 100 200 2) (seq 0 (Z.to_nat 2))).
Proof.
  eexists. eexists.
  match goal with
  | |- ?run = Some (Ok ?o ?s1) /\ _ =>
      assert (Hrun : run = Some (Ok o s1)) by (vm_compute; reflexivity)
  end.
  assert (H2 : (2 <= 2)%Z) by lia.
  assert (H100 : (100 < 200)%Q) by reflexivity.
  split; [exact Hrun |]. split; [exact H2 |]. split; [exact H100 |].
  split; [reflexivity |].
  exact (proj1 (@fault_free_sweep_follows_the_grid Sim.exact_builtins _ Sim.visa
                  _ _ _ _ _ _ _ H2 H100 Hrun eq_refl)).
Defined.



(** X5: in exact arithmetic, for a plan with at least 2 points and a start
    frequency below its stop frequency, a sweep that returns has recorded
    at most as many rows as the plan has points; and unless it gave up,
    the points it is short of are paid for by its retries, 2 Hz each:
    (points - 1 - rows) * step < 2 * errors.  (Without an error this makes
    the rows as many as the points.) *)
Theorem retries_cost_two_hertz_each :
  forall (B : Builtins Q) (S : Type) (V : Visa S)
         (start_freq end_freq : Q) (points : Z) (fuel : nat) (s s' : S)
         (out : locals Q * arrays Q),
    (2 <= points)%Z ->
    (start_freq < end_freq)%Q ->
    sweep_frequency fuel start_freq end_freq points s = Some (Ok out s') ->
    (rows (fst out) <= points)%Z
    /\ ((error_cnt (fst out) <= 4)%Z ->
        (inject_Z (points - 1 - rows (fst out)) * frequency_step start_freq end_freq points
         < 2 * inject_Z (error_cnt (fst out)))%Q).
Proof.
  intros B S V start_freq end_freq points fuel s s' out Hpoints Horder Hrun.
  rewrite sweep_frequency_unfold, (py_div_step start_freq end_freq Hpoints) in Hrun.
  destruct (measure start_freq s) as [m s1 | c w s1 | e s1]; try discriminate.
  destruct (while_loop fuel _ end_freq points (initial start_freq) s1)
    as [[st s2 | c w s2 | e s2] |] eqn:Hloop; try discriminate.
  inversion Hrun. subst out s'. clear Hrun.
  unfold rows, finish, say. cbn [fst error_cnt fp].
  pose proof (on_track_initial start_freq end_freq Hpoints) as Htrack.
  assert (Hheader : Forall gain_is_20_log10 (fp (initial start_freq)))
    by (repeat constructor).
  destruct (while_loop_ends (V := V) Hpoints Horder _ _ Htrack Hheader Hloop)
    as ((Hc & He & Hk & Hcurr) & _ & Hexit).
  split; [lia |].
  intros H4. specialize (Hexit H4).
  pose proof (steps_span start_freq end_freq Hpoints) as Hspan.
  replace (points - 1 - Z.of_nat (List.length (data_rows (fp st))))%Z
    with ((points - 1) - (counter st - 1))%Z by lia.
  unfold Zminus at 1. rewrite inject_Z_plus, inject_Z_opp.
  rewrite Hcurr in Hexit.
  set (K := inject_Z (counter st - 1)) in *.
  set (P := inject_Z (points - 1)) in *.
  set (E := inject_Z (error_cnt st)) in *.
  set (d := frequency_step start_freq end_freq points) in *.
  assert (Hmul : ((P + - K) * d == P * d - K * d)%Q) by ring.
  rewrite Hmul. lra.
Qed.

Lemma retries_cost_two_hertz_each_witness :
  exists out s',
    sweep_frequency (B := Sim.exact_builtins) 10 100%Q 101%Q 2 last_step_fails
      = Some (Ok out s')
    /\ (2 <= 2)%Z
    /\ (100 < 101)%Q
    /\ error_cnt (fst out) = 1%Z
    /\ rows (fst out) = 0%Z
    /\ (inject_Z (2 - 1 - rows (fst out)) * frequency_step 100 101 2
        < 2 * inject_Z (error_cnt (fst out)))%Q.
Proof.
  eexists. eexists.
  match goal with
  | |- ?run = Some (Ok ?o ?s1) /\ _ =>
      assert (Hrun : run = Some (Ok o s1)) by (vm_compute; reflexivity)
  end.
  assert (H2 : (2 <= 2)%Z) by lia.
  assert (H100 : (100 < 101)%Q) by reflexivity.
  split; [exact Hrun |]. split; [exact H2 |]. split; [exact H100 |].
  split; [reflexivity |]. split; [reflexivity |].
  apply (proj2 (@retries_cost_two_hertz_each Sim.exact_builtins _ Sim.visa
                  _ _ _ _ _ _ _ H2 H100 Hrun)).
  vm_compute. discriminate.
Defined.

(** X6: in exact arithmetic, a plan whose start and stop frequencies
    coincide, or whose number of points is zero or negative (with a start
    frequency below the stop frequency), has an increment of zero or
    below: on an instrument that keeps returning samples that are not
    erroneous and have a gain, the current frequency never passes the stop
    frequency and the sweep does not end, whatever the number of passes it
    is given. *)
Theorem sweep_without_progress_never_ends :
  forall (B : Builtins Q) (S : Type) (V : Visa S) (steady : S -> Prop)
         (start_freq end_freq : Q) (points : Z) (fuel : nat) (s : S),
    always_valid steady ->
    steady s ->
    points <> 1%Z ->
    (start_freq == end_freq \/ (start_freq < end_freq /\ (points <= 0)%Z))%Q ->
    sweep_frequency fuel start_freq end_freq points s = None.
Proof.
  intros B S V steady start_freq end_freq points fuel s Hvalid Hs Hpoints Hplan.
  assert (Hd : (points - 1 <> 0)%Z) by lia.
  rewrite sweep_frequency_unfold.
  change (fsub end_freq start_freq) with (end_freq - start_freq)%Q.
  rewrite (exact_py_div _ Hd).
  destruct (Hvalid start_freq s Hs) as (m & s1 & Hm & _ & _ & Hs1). rewrite Hm.
  assert (Hloop : while_loop fuel ((end_freq - start_freq) / inject_Z (points - 1))%Q
                    end_freq points (initial start_freq) s1 = None);
    [| rewrite Hloop; reflexivity].
  apply while_loop_never_ends
    with (keeps_on := fun c => (c <= end_freq)%Q) (steady := steady);
    [| exact Hvalid | | exact Hs1].
  - intros c Hc. split; [apply exact_leb_true; exact Hc |].
    change (fadd c ((end_freq - start_freq) / inject_Z (points - 1)))
      with (c + (end_freq - start_freq) / inject_Z (points - 1))%Q.
    destruct Hplan as [Heq | [Hlt Hneg]].
    + rewrite (@exact_step_none (end_freq - start_freq) (points - 1)); [lra | lra | exact Hd].
    + assert (H : ((end_freq - start_freq) / inject_Z (points - 1) < 0)%Q)
        by (apply exact_step_backwards; [lra | lia]).
      lra.
  - cbn [initial curr_freq]. destruct Hplan as [Heq | [Hlt _]]; lra.
Qed.

Lemma sweep_without_progress_never_ends_witness :
  always_valid (B := Sim.exact_builtins) (settled_on (Sim.reading_of 100 1 100 1 0))
  /\ settled_on (Sim.reading_of 100 1 100 1 0) settled_readings
  /\ (100 == 100)%Q
  /\ sweep_frequency (B := Sim.exact_builtins) 1000 100%Q 100%Q 2 settled_readings = None.
Proof.
  pose proof settled_reads_well_exact as Hvalid.
  pose proof settled_readings_settled as Hs.
  split; [exact Hvalid |]. split; [exact Hs |]. split; [reflexivity |].
  apply (@sweep_without_progress_never_ends Sim.exact_builtins _ Sim.visa
           (settled_on (Sim.reading_of 100 1 100 1 0)) 100%Q 100%Q 2%Z 1000%nat
           settled_readings Hvalid Hs).
  - discriminate.
  - left. reflexivity.
Defined.



(** X8: a plan of a single point makes the sweep divide by zero when it
    computes its increment: it dies of a ZeroDivisionError before it has
    sent anything to the instrument or written anything, in exact
    arithmetic and in binary64 alike, whatever the two frequencies. *)
Theorem single_point_plan_divides_by_zero :
  (forall (B : Builtins Q) (S : Type) (V : Visa S)
          (fuel : nat) (start_freq end_freq : Q) (s : S),
      sweep_frequency fuel start_freq end_freq 1 s = Some (Raise ZeroDivisionError s))
  /\ (forall (B : Builtins float) (S : Type) (V : Visa S)
             (fuel : nat) (start_freq end_freq : float) (s : S),
         sweep_frequency fuel start_freq end_freq 1 s = Some (Raise ZeroDivisionError s)).
Proof.
  split; intros; reflexivity.
Qed.

(** X9: in exact arithmetic, a pass whose sample is not classified
    erroneous but has no gain ends the sweep with an exception: a
    ZeroDivisionError when the input amplitude is zero, a ValueError (the
    domain error of the logarithm) when the ratio of the amplitudes is
    zero or negative.  Such a sample is neither retried nor counted as an
    error. *)
Theorem sample_without_gain_ends_the_sweep :
  forall (B : Builtins Q) (S : Type) (V : Visa S)
         (fuel : nat) (step end_freq : Q) (points : Z) (st : locals Q)
         (s s' : S) (m : measurement Q),
    (curr_freq st <= end_freq)%Q ->
    measure (curr_freq st) s = Ok m s' ->
    erroneous m = false ->
    ((meas_ampl1 m == 0)%Q ->
     while_loop (Datatypes.S fuel) step end_freq points st s
     = Some (Raise ZeroDivisionError s'))
    /\ (~ (meas_ampl1 m == 0)%Q ->
        (meas_ampl2 m / meas_ampl1 m <= 0)%Q ->
        while_loop (Datatypes.S fuel) step end_freq points st s
        = Some (Raise ValueError s')).
Proof.
  intros B S V fuel step end_freq points st s s' m Hle Hm He.
  apply exact_leb_true in Hle.
  split.
  - intros H0. rewrite while_loop_unfold, Hle, (iteration_valid _ _ _ _ Hm He).
    assert (E : feqb (F := Q) (meas_ampl1 m) (of_Z 0) = true)
      by (apply exact_eqb_true; exact H0).
    unfold record, gain_db, py_div. rewrite E. reflexivity.
  - intros H0 Hratio. rewrite while_loop_unfold, Hle, (iteration_valid _ _ _ _ Hm He).
    assert (E : feqb (F := Q) (meas_ampl1 m) (of_Z 0) = false)
      by (apply exact_eqb_false; exact H0).
    assert (L : fleb (F := Q) (fdiv (meas_ampl2 m) (meas_ampl1 m)) (of_Z 0) = true)
      by (apply exact_leb_true; exact Hratio).
    unfold record, gain_db, py_div, math_log10. rewrite E, L. reflexivity.
Qed.

Lemma sample_without_gain_ends_the_sweep_witness :
  (meas_ampl1 dead_input_sample == 0)%Q
  /\ while_loop (B := Sim.exact_builtins) 1 100%Q 200%Q 2 (initial 100%Q) dead_input_pass
     = Some (Raise ZeroDivisionError
               (Sim.write ":SYSTem:ERRor?" (Sim.write ":SINGLE" dead_input_pass)))
  /\ (meas_ampl2 dead_output_sample / meas_ampl1 dead_output_sample <= 0)%Q
  /\ while_loop (B := Sim.exact_builtins) 1 100%Q 200%Q 2 (initial 100%Q) dead_output_pass
     = Some (Raise ValueError
               (Sim.write ":SYSTem:ERRor?" (Sim.write ":SINGLE" dead_output_pass))).
Proof.
  assert (Hle : (curr_freq (initial 100%Q) <= 200)%Q) by (vm_compute; discriminate).
  assert (Hin : measure (B := Sim.exact_builtins) (curr_freq (initial 100%Q)) dead_input_pass
                = Ok dead_input_sample
                    (Sim.write ":SYSTem:ERRor?" (Sim.write ":SINGLE" dead_input_pass)))
    by (vm_compute; reflexivity).
  assert (Hout : measure (B := Sim.exact_builtins) (curr_freq (initial 100%Q)) dead_output_pass
                 = Ok dead_output_sample
                     (Sim.write ":SYSTem:ERRor?" (Sim.write ":SINGLE" dead_output_pass)))
    by (vm_compute; reflexivity).
  assert (Hzero : (meas_ampl1 dead_input_sample == 0)%Q) by reflexivity.
  assert (Hratio : (meas_ampl2 dead_output_sample / meas_ampl1 dead_output_sample <= 0)%Q)
    by (vm_compute; discriminate).
  split; [exact Hzero |].
  split; [apply (proj1 (@sample_without_gain_ends_the_sweep Sim.exact_builtins _ Sim.visa
                          0%nat 100%Q 200%Q 2%Z _ _ _ _ Hle Hin eq_refl) Hzero) |].
  split; [exact Hratio |].
  apply (proj2 (@sample_without_gain_ends_the_sweep Sim.exact_builtins _ Sim.visa
                  0%nat 100%Q 200%Q 2%Z _ _ _ _ Hle Hout eq_refl)); [| exact Hratio].
  vm_compute. discriminate.
Defined.

(** X10: in exact arithmetic, a plan whose start frequency lies above its
    stop frequency (and that has not exactly one point) primes the
    instrument and never enters its loop: the sweep returns having written
    the header alone, without a [STEP] line or a retry or abort message,
    and its closing plot gets empty arrays.  [interactivePlot.main]
    answers the file it leaves with "Invalid Input" and exit code 1. *)
Theorem reversed_plan_records_nothing :
  forall (B : Builtins Q) (S : Type) (V : Visa S)
         (fuel : nat) (start_freq end_freq : Q) (points : Z) (s s1 : S)
         (m : measurement Q),
    points <> 1%Z ->
    (end_freq < start_freq)%Q ->
    float_of_string "CH1_FREQ [Hz]" = None ->
    measure start_freq s = Ok m s1 ->
    sweep_frequency (Datatypes.S fuel) start_freq end_freq points s
    = Some (Ok (Build_locals 1 0 start_freq [Header] [DataSaved], no_arrays) s1)
    /\ interactivePlot.main (file_text (F := Q) [Header]) = interactivePlot.InvalidInput 1.
Proof.
  intros B S V fuel start_freq end_freq points s s1 m Hpoints Horder Hheader Hm.
  assert (Hd : (points - 1 <> 0)%Z) by lia.
  split.
  - rewrite sweep_frequency_unfold.
    change (fsub end_freq start_freq) with (end_freq - start_freq)%Q.
    rewrite (exact_py_div _ Hd), Hm, while_loop_unfold.
    cbn [initial curr_freq].
    rewrite (proj2 (exact_leb_false start_freq end_freq) Horder).
    unfold finish, say. cbn [counter error_cnt curr_freq fp stdout app].
    rewrite file_text_header, (capture_plot_header Hheader). reflexivity.
  - rewrite file_text_header. apply (interactive_main_header Hheader).
Qed.

Lemma reversed_plan_records_nothing_witness :
  (2 <> 1)%Z
  /\ (100 < 200)%Q
  /\ exists s1,
       sweep_frequency (B := Sim.exact_builtins) 1 200%Q 100%Q 2 steady_readings
       = Some (Ok (Build_locals 1 0 200%Q [Header] [DataSaved], no_arrays) s1)
       /\ interactivePlot.main (B := Sim.exact_builtins)
            (file_text (B := Sim.exact_builtins) [Header])
          = interactivePlot.InvalidInput 1.
Proof.
  split; [discriminate |]. split; [reflexivity |].
  eexists.
  apply (@reversed_plan_records_nothing Sim.exact_builtins _ Sim.visa 0%nat 200%Q 100%Q 2%Z
           steady_readings _ (Build_measurement 100%Q 1%Q 100%Q 1%Q 0%Q)).
  - discriminate.
  - reflexivity.
  - vm_compute. reflexivity.
  - vm_compute. reflexivity.
Defined.

(* ================================================================== *)
(** ** Further properties of the exchange with the instrument *)
(* ================================================================== *)

(** X11: a capture that returns has written the sixteen commands and
    queries of [capture_waveform] in the order of the source, each
    followed by the error query, and the five values it returns are
    [float()] of the one reply given to their own query: the input
    frequency and amplitude from channel 1, the output frequency and
    amplitude from channel 2, the phase from the phase query. *)
Theorem capture_returns_the_replies_to_its_queries :
  forall (F : Type) (N : Float F) (B : Builtins F) (S : Type) (V : Visa S)
         (s : S) (m : measurement F) (r' : recorded S),
    capture_waveform (V := recording V) (fresh s) = Ok m r' ->
    writes (transcript r') = checked capture_commands
    /\ map float_of_string (replies_to ":MEASure:FREQuency? CHANnel1" (transcript r'))
       = [Some (meas_freq1 m)]
    /\ map float_of_string (replies_to ":MEASure:VPP? CHANnel1" (transcript r'))
       = [Some (meas_ampl1 m)]
    /\ map float_of_string (replies_to ":MEASure:FREQuency? CHANnel2" (transcript r'))
       = [Some (meas_freq2 m)]
    /\ map float_of_string (replies_to ":MEASure:VPP? CHANnel2" (transcript r'))
       = [Some (meas_ampl2 m)]
    /\ map float_of_string (replies_to ":MEASure:PHASe? CHANnel2,CHANnel1" (transcript r'))
       = [Some (phase_diff m)].
Proof.
  intros F N B S V s m r' H.
  apply capture_waveform_recorded in H. destruct H as (stretch & Ht & H).
  cbn [fresh transcript app] in Ht. rewrite Ht. exact H.
Qed.

Lemma capture_returns_the_replies_to_its_queries_witness :
  exists r',
    capture_waveform (B := Sim.binary64_builtins) (V := recording Sim.visa)
      (fresh (Sim.playing [Sim.reading_of 100 1 200 10 (-45)]))
    = Ok (Build_measurement 100%float 1%float 200%float 10%float (-45)%float) r'
    /\ replies_to ":MEASure:FREQuency? CHANnel2" (transcript r') = ["200"]
    /\ map (float_of_string (Builtins := Sim.binary64_builtins))
         (replies_to ":MEASure:FREQuency? CHANnel2" (transcript r'))
       = [Some 200%float].
Proof.
  eexists.
  match goal with
  | |- ?run = Ok ?m ?r1 /\ _ =>
      assert (Hrun : run = Ok m r1) by (vm_compute; reflexivity)
  end.
  split; [exact Hrun |]. split; [reflexivity |].
  exact (proj1 (proj2 (proj2 (proj2
           (@capture_returns_the_replies_to_its_queries _ _ Sim.binary64_builtins _ Sim.visa
              _ _ _ Hrun))))).
Defined.

(** X12: when a sweep returns, what it has written to the instrument is
    determined by its start frequency and the frequencies of its [STEP]
    lines: the generator, autoscale and capture commands of the priming at
    the start frequency, then those of each pass at its driven frequency
    (the generator set to 1 Vpp, that frequency and no offset), every
    command followed by the error query, and nothing else. *)
Theorem sweep_writes_its_passes :
  forall (F : Type) (N : Float F) (B : Builtins F) (S : Type) (V : Visa S)
         (fuel : nat) (start_freq end_freq : F) (points : Z) (s : S)
         (out : locals F * arrays F) (r' : recorded S),
    sweep_frequency (V := recording V) fuel start_freq end_freq points (fresh s)
    = Some (Ok out r') ->
    writes (transcript r') = sweep_log start_freq (driven_freqs (stdout (fst out))).
Proof.
  intros F N B S V fuel start_freq end_freq points s out r' Hrun.
  rewrite sweep_frequency_unfold in Hrun.
  destruct (py_div (fsub end_freq start_freq) (of_Z (points - 1))) as [e | step];
    [discriminate |].
  destruct (measure (V := recording V) start_freq (fresh s)) as [m r1 | c w r1 | e r1] eqn:Hm;
    try discriminate.
  destruct (while_loop (V := recording V) fuel step end_freq points (initial start_freq) r1)
    as [[st r2 | c w r2 | e r2] |] eqn:Hloop; try discriminate.
  inversion Hrun. subst out r'. clear Hrun.
  apply measure_recorded in Hm. destruct Hm as (stretch & Ht & Hw).
  apply while_loop_recorded in Hloop. destruct Hloop as (driven & Hd & Hwrites).
  cbn [fresh transcript app] in Ht. cbn [initial stdout driven_freqs flat_map app] in Hd.
  cbn [finish fst say stdout]. rewrite driven_freqs_app, Hd.
  cbn [driven_freqs flat_map]. rewrite app_nil_r.
  rewrite Hwrites, Ht, Hw. reflexivity.
Qed.

Lemma sweep_writes_its_passes_witness :
  exists out r',
    sweep_frequency (B := Sim.binary64_builtins) (V := recording Sim.visa)
      10 100%float 200%float 2 (fresh steady_readings)
    = Some (Ok out r')
    /\ driven_freqs (stdout (fst out)) = [100%float; 200%float]
    /\ writes (transcript r')
       = sweep_log (B := Sim.binary64_builtins) 100%float [100%float; 200%float]
    /\ filter (startswith ":WGEN:FREQuency") (writes (transcript r'))
       = [":WGEN:FREQuency 100.000"; ":WGEN:FREQuency 100.000"; ":WGEN:FREQuency 200.000"].
Proof.
  eexists. eexists.
  match goal with
  | |- ?run = Some (Ok ?o ?r1) /\ _ =>
      assert (Hrun : run = Some (Ok o r1)) by (vm_compute; reflexivity)
  end.
  split; [exact Hrun |]. split; [reflexivity |].
  pose proof (@sweep_writes_its_passes _ _ Sim.binary64_builtins _ Sim.visa
                _ _ _ _ _ _ _ Hrun) as H.
  split; [exact H |].
  rewrite H. vm_compute. reflexivity.
Defined.

(* ================================================================== *)
(** ** Further properties of the capture script's [main] *)
(* ================================================================== *)

(** X13: [initialize] with no VISA resource listed raises an IndexError
    before anything is opened or sent.  When it returns, a resource was
    listed, and what it has written to the instrument is the
    identification query, the clear-status and the reset commands, in that
    order, each followed by the error query; the identification string it
    reports is the one reply given to [*IDN?]. *)
Theorem initialize_identifies_and_resets :
  forall (S : Type) (V : Visa S) (IO : VisaIO S) (resources : list string) (s : S),
    (resources = [] -> initialize resources s = Raise IndexError s)
    /\ (forall (idn : string) (r' : recorded S),
          initialize (V := recording V) (IO := recording_io IO) resources (fresh s)
          = Ok idn r' ->
          resources <> []
          /\ writes (transcript r') = checked ["*IDN?"; "*CLS"; "*RST"]
          /\ replies_to "*IDN?" (transcript r') = [idn]).
Proof.
  intros S V IO resources s. split.
  - intros ->. reflexivity.
  - intros idn r' H.
    apply initialize_recorded in H.
    destruct H as (scopeDevice & rest & stretch & -> & Ht & Hw & Hr).
    cbn [fresh transcript app] in Ht. rewrite Ht.
    split; [discriminate |]. split; assumption.
Qed.

Lemma initialize_identifies_and_resets_witness :
  initialize (V := Sim.visa) [] settled_readings = Raise IndexError settled_readings
  /\ exists r',
       initialize (V := recording Sim.visa) (IO := recording_io Sim.io)
         ["USB0::0x0957::0x17A9::MY51250110::0::INSTR"] (fresh settled_readings)
       = Ok "NORM" r'
       /\ writes (transcript r') = checked ["*IDN?"; "*CLS"; "*RST"]
       /\ replies_to "*IDN?" (transcript r') = ["NORM"].
Proof.
  split.
  - apply (proj1 (initialize_identifies_and_resets Sim.visa Sim.io [] settled_readings)).
    reflexivity.
  - eexists.
    match goal with
    | |- ?run = Ok ?a ?r1 /\ _ =>
        assert (Hrun : run = Ok a r1) by (vm_compute; reflexivity)
    end.
    split; [exact Hrun |].
    exact (proj2 (proj2 (initialize_identifies_and_resets Sim.visa Sim.io _ settled_readings)
                    _ _ Hrun)).
Defined.

(** X14: the plan [main] sweeps is all typed or all default.  When standard
    input opens with three lines that convert (two numbers, then an
    integer), the plan is those three values and nothing is announced;
    in every other case (a line missing, or one that does not convert,
    whichever it is) the plan is 100 Hz, 10000 Hz, 25 steps: values typed
    before the failing line are discarded with it. *)
Theorem plan_is_all_typed_or_all_default :
  forall (F : Type) (N : Float F) (B : Builtins F) (I : IntParser) (stdin : list string),
    (forall p : plan F, answers stdin p -> read_plan stdin = (p, []))
    /\ ((forall p : plan F, ~ answers stdin p) ->
        read_plan stdin =
        (Build_plan (of_Z 100) (of_Z 10000) 25,
         [InvalidInputs; UsingDefaults (of_Z 100) (of_Z 10000) 25])).
Proof.
  intros F N B I stdin. split.
  - apply read_plan_answers.
  - apply read_plan_defaults.
Qed.

Lemma plan_is_all_typed_or_all_default_witness :
  answers (B := Sim.binary64_builtins) ["20"; "2000"; "11"] (Build_plan 20%float 2000%float 11)
  /\ read_plan (N := binary64) (B := Sim.binary64_builtins) ["20"; "2000"; "11"]
     = (Build_plan 20%float 2000%float 11, [])
  /\ read_plan (N := binary64) (B := Sim.binary64_builtins) ["20"; "2000"; "eleven"]
     = (Build_plan 100%float 10000%float 25,
        [InvalidInputs; UsingDefaults 100%float 10000%float 25]).
Proof.
  assert (Ha : answers (B := Sim.binary64_builtins) ["20"; "2000"; "11"]
                 (Build_plan 20%float 2000%float 11)).
  { exists "20", "2000", "11", []. repeat split; vm_compute; reflexivity. }
  split; [exact Ha |].
  split.
  - exact (proj1 (@plan_is_all_typed_or_all_default _ binary64 Sim.binary64_builtins Sim.ints
                    ["20"; "2000"; "11"]) _ Ha).
  - apply (proj2 (@plan_is_all_typed_or_all_default _ binary64 Sim.binary64_builtins Sim.ints
                    ["20"; "2000"; "eleven"])).
    intros p (a & b & c & rest & Hs & _ & _ & Hc).
    inversion Hs. subst. vm_compute in Hc. discriminate.
Defined.

(** X15: in exact arithmetic, when standard input does not open with three
    lines that convert, [main] sweeps the default plan and comes to an
    end (within 31 tests of the loop condition): it exits, or dies of an
    exception, or returns; and when it returns without an error counted
    it has recorded 25 rows, its passes driven at 100 + 412.5 k Hz for
    k = 0 .. 24. *)
Theorem main_sweeps_the_default_plan :
  forall (B : Builtins Q) (I : IntParser) (S : Type) (V : Visa S) (IO : VisaIO S)
         (resources stdin : list string) (s : S),
    (forall p : plan Q, ~ answers stdin p) ->
    exists r,
      main 31 resources stdin s = Some r
      /\ forall out s',
           r = Ok out s' ->
           error_cnt (fst out) = 0%Z ->
           rows (fst out) = 25%Z
           /\ Forall2 Qeq (driven_freqs (stdout (fst out)))
                (map (grid 100 10000 25) (seq 0 25))
           /\ (frequency_step 100 10000 25 == 825 # 2)%Q.
Proof.
  intros B I S V IO resources stdin s Hno. unfold main.
  destruct (initialize resources s) as [idn s1 | c w s1 | e s1];
    [| eexists; split; [reflexivity | discriminate] ..].
  rewrite (read_plan_defaults Hno).
  cbn [fst defaults default_plan fstart fstop steps].
  assert (H25 : (2 <= 25)%Z) by lia.
  assert (Horder : (100 < 10000)%Q) by reflexivity.
  destruct (exact_sweep_returns (V := V) H25 Horder s1) as (r & Hr & Hout).
  exists r. split; [exact Hr |].
  intros out s' E Hzero. destruct (Hout out s' E Hzero) as [Hrows Hgrid].
  split; [exact Hrows |]. split; [exact Hgrid | reflexivity].
Qed.

Lemma main_sweeps_the_default_plan_witness :
  exists out s',
    main (B := Sim.exact_builtins) 31 ["USB0::0x0957::0x17A9::MY51250110::0::INSTR"] []
      settled_readings = Some (Ok out s')
    /\ error_cnt (fst out) = 0%Z
    /\ rows (fst out) = 25%Z
    /\ Forall2 Qeq (driven_freqs (stdout (fst out))) (map (grid 100 10000 25) (seq 0 25)).
Proof.
  assert (Hno : forall p : plan Q, ~ answers (B := Sim.exact_builtins) [] p).
  { intros p (a & b & c & rest & Hs & _). discriminate. }
  destruct (@main_sweeps_the_default_plan Sim.exact_builtins Sim.ints _ Sim.visa Sim.io
              ["USB0::0x0957::0x17A9::MY51250110::0::INSTR"] [] settled_readings Hno)
    as (r & Hr & Hout).
  assert (Hrun : exists out s',
             main (B := Sim.exact_builtins) 31
               ["USB0::0x0957::0x17A9::MY51250110::0::INSTR"] [] settled_readings
             = Some (Ok out s') /\ error_cnt (fst out) = 0%Z).
  { eexists. eexists. split; [vm_compute; reflexivity | reflexivity]. }
  destruct Hrun as (out & s' & Hrun & Hzero).
  exists out, s'. split; [exact Hrun |]. split; [exact Hzero |].
  rewrite Hrun in Hr. inversion Hr as [E].
  destruct (Hout out s' (eq_sym E) Hzero) as (Hrows & Hgrid & _).
  split; assumption.
Defined.

(* ================================================================== *)
(** ** Further properties of the plotting script *)
(* ================================================================== *)

(** X16: the file number typed at the prompt of [interactivePlot.main]
    selects by Python's indexing of [file - 1].  A number of the printed
    list plots the file listed under it.  The number 0 is accepted too and
    plots the last file of the list.  A number above the count of files,
    or at or below minus the count, ends in "Invalid Input" with exit code
    1. *)
Theorem file_number_selects_by_python_indexing :
  forall (F : Type) (N : Float F) (B : Builtins F) (I : IntParser)
         (data_files : list string) (read : string -> option string)
         (answer : string) (rest : list string) (file : Z),
    data_files <> [] ->
    int_of_string answer = Some file ->
    (forall name,
        In (file, name) (interactivePlot.listing data_files) ->
        interactivePlot.main_in data_files read (answer :: rest)
        = interactivePlot.Listed (interactivePlot.listing data_files)
            (interactivePlot.plot_file read name))
    /\ (file = 0%Z ->
        interactivePlot.main_in data_files read (answer :: rest)
        = interactivePlot.Listed (interactivePlot.listing data_files)
            (interactivePlot.plot_file read (List.last data_files EmptyString)))
    /\ ((Z.of_nat (List.length data_files) < file
         \/ file <= - Z.of_nat (List.length data_files))%Z ->
        interactivePlot.main_in data_files read (answer :: rest)
        = interactivePlot.Listed (interactivePlot.listing data_files)
            (interactivePlot.InvalidInput 1)).
Proof.
  intros F N B I data_files read answer rest file Hne Hint.
  unfold interactivePlot.main_in.
  destruct data_files as [| f files]; [contradiction |].
  cbn [input]. rewrite Hint.
  split; [| split].
  - intros name Hin. rewrite (py_getitem_listed _ _ _ Hin). reflexivity.
  - intros ->. rewrite (py_getitem_minus_one EmptyString Hne). reflexivity.
  - intros Hout. rewrite (py_getitem_out_of_range _ Hout). reflexivity.
Qed.

Lemma file_number_selects_by_python_indexing_witness :
  data_folder <> []
  /\ In (2%Z, data_file november_27) (interactivePlot.listing data_folder)
  /\ interactivePlot.main_in (B := Sim.exact_builtins) data_folder read_data_folder ["2"]
     = interactivePlot.Listed (interactivePlot.listing data_folder)
         (interactivePlot.plot_file (B := Sim.exact_builtins) read_data_folder
            (data_file november_27))
  /\ interactivePlot.main_in (B := Sim.exact_builtins) data_folder read_data_folder ["0"]
     = interactivePlot.Listed (interactivePlot.listing data_folder)
         (interactivePlot.plot_file (B := Sim.exact_builtins) read_data_folder
            (List.last data_folder EmptyString))
  /\ interactivePlot.main_in (B := Sim.exact_builtins) data_folder read_data_folder ["4"]
     = interactivePlot.Listed (interactivePlot.listing data_folder)
         (interactivePlot.InvalidInput 1).
Proof.
  assert (Hne : data_folder <> []) by discriminate.
  assert (Hin : In (2%Z, data_file november_27) (interactivePlot.listing data_folder))
    by (right; left; reflexivity).
  split; [exact Hne |]. split; [exact Hin |].
  split; [| split].
  - apply (proj1 (@file_number_selects_by_python_indexing Q exact Sim.exact_builtins Sim.ints
                    data_folder read_data_folder "2" [] 2%Z Hne eq_refl)).
    exact Hin.
  - apply (proj1 (proj2 (@file_number_selects_by_python_indexing Q exact Sim.exact_builtins
                           Sim.ints data_folder read_data_folder "0" [] 0%Z Hne eq_refl))).
    reflexivity.
  - apply (proj2 (proj2 (@file_number_selects_by_python_indexing Q exact Sim.exact_builtins
                           Sim.ints data_folder read_data_folder "4" [] 4%Z Hne eq_refl))).
    left. vm_compute. reflexivity.
Defined.

(** X17: the plotting script opens the file named by what comes before the
    first dot of the selected name, followed by ".csv".  For a file
    written by a sweep, whatever the time in its name, that is the file
    itself.  For any name whose part before the first dot is [stem] it is
    [stem.csv], whatever follows the dot: selecting [notes.txt] plots
    [notes.csv]. *)
Theorem plot_opens_the_stem_of_the_name :
  forall (F : Type) (N : Float F) (B : Builtins F) (read : string -> option string),
    (forall curr_time : struct_time,
        interactivePlot.plot_file read (data_file curr_time)
        = match read (data_file curr_time) with
          | None => interactivePlot.InvalidInput 1
          | Some text => interactivePlot.main text
          end)
    /\ (forall stem rest : string,
          mentions "."%char stem = false ->
          interactivePlot.plot_file read (stem ++ "." ++ rest)
          = match read (stem ++ ".csv") with
            | None => interactivePlot.InvalidInput 1
            | Some text => interactivePlot.main text
            end).
Proof.
  intros F N B read.
  assert (Hstem : forall stem rest : string,
             mentions "."%char stem = false ->
             interactivePlot.plot_file read (stem ++ "." ++ rest)
             = match read (stem ++ ".csv") with
               | None => interactivePlot.InvalidInput 1
               | Some text => interactivePlot.main text
               end).
  { intros stem rest H. unfold interactivePlot.plot_file.
    change (stem ++ "." ++ rest) with (stem ++ String "."%char rest).
    rewrite before_dot_stem by exact H. reflexivity. }
  split; [| exact Hstem].
  intros curr_time. apply (Hstem (fname curr_time) "csv"). apply fname_has_no_dot.
Qed.

Lemma plot_opens_the_stem_of_the_name_witness :
  interactivePlot.plot_file (B := Sim.exact_builtins) read_data_folder
    (data_file november_27)
  = interactivePlot.main (B := Sim.exact_builtins) roll_off_file
  /\ mentions "."%char "notes" = false
  /\ interactivePlot.plot_file (B := Sim.exact_builtins) read_data_folder "notes.txt"
     = interactivePlot.main (B := Sim.exact_builtins) header_text.
Proof.
  split; [| split; [reflexivity |]].
  - rewrite (proj1 (@plot_opens_the_stem_of_the_name Q exact Sim.exact_builtins
                      read_data_folder) november_27).
    reflexivity.
  - exact (proj2 (@plot_opens_the_stem_of_the_name Q exact Sim.exact_builtins
                    read_data_folder) "notes" "txt" eq_refl).
Defined.

(** X18: whatever the data file holds, the interactive reader fills its
    three arrays together, so they have one length; the reader of the
    capture script converts the frequency, the phase and the gain of a
    line one after the other, so its arrays can differ in length, the gain
    array never longer than the phase array and the phase array never
    longer than the frequency array.  A line that the interactive reader
    accepts is accepted by the reader of the capture script, with the
    same three values. *)
Theorem readers_fill_their_arrays :
  forall (F : Type) (N : Float F) (B : Builtins F),
    (forall text : string,
        List.length (freq_arr (interactivePlot.parse_file text))
        = List.length (gain_arr (interactivePlot.parse_file text))
        /\ List.length (phase_arr (interactivePlot.parse_file text))
           = List.length (gain_arr (interactivePlot.parse_file text)))
    /\ (forall text : string,
          (List.length (gain_arr (plot_bode text)) <= List.length (phase_arr (plot_bode text)))%nat
          /\ (List.length (phase_arr (plot_bode text))
              <= List.length (freq_arr (plot_bode text)))%nat)
    /\ (forall (lin : string) (rest : list string) (f1 pd gain : F),
          interactivePlot.parse_line lin = Some (f1, pd, gain) ->
          parse_lines (lin :: rest) =
          Build_arrays (f1 :: freq_arr (parse_lines rest))
                       (pd :: phase_arr (parse_lines rest))
                       (gain :: gain_arr (parse_lines rest))).
Proof.
  intros F N B. split; [| split].
  - intros text. apply parse_lines_lengths.
  - intros text. apply capture_parse_lines_lengths.
  - apply interactive_line_is_a_capture_line.
Qed.

Lemma readers_fill_their_arrays_witness :
  interactivePlot.parse_line (B := Sim.exact_builtins) "100, 1, 100, 2, -45, 6"
  = Some (100%Q, (-45)%Q, 6%Q)
  /\ parse_lines (B := Sim.exact_builtins) ["100, 1, 100, 2, -45, 6"]
     = Build_arrays [100%Q] [(-45)%Q] [6%Q]
  /\ plot_bode (B := Sim.exact_builtins) "100, 1, 100, 2, x, 6"
     = Build_arrays [100%Q] [] [].
Proof.
  assert (H : interactivePlot.parse_line (B := Sim.exact_builtins) "100, 1, 100, 2, -45, 6"
              = Some (100%Q, (-45)%Q, 6%Q)) by (vm_compute; reflexivity).
  split; [exact H |]. split.
  - exact (proj2 (proj2 (@readers_fill_their_arrays Q exact Sim.exact_builtins)) _ [] _ _ _ H).
  - vm_compute. reflexivity.
Defined.

(** X19: in exact arithmetic, whenever [plot_bode] draws its figure, the
    gain of the cutoff it selects lies at most 6 dB below the largest gain
    of the data, and not above it. *)
Theorem cutoff_gain_is_within_6dB_of_the_peak :
  forall (B : Builtins Q) (text : string) (fig : figure Q),
    interactivePlot.plot_bode text = inr fig ->
    (reference_gain_db fig - 6 <= cutoff_gain_db fig)%Q
    /\ (cutoff_gain_db fig <= reference_gain_db fig)%Q.
Proof.
  intros B text fig H. unfold interactivePlot.plot_bode in H.
  destruct (parse_lines_lengths (readlines text)) as [Hfr Hph].
  destruct (exact_analyse (interactivePlot.parse_file text)
              (analyse_has_gains _ H) Hfr Hph) as (fig' & Hfig & _ & Hspec).
  rewrite Hfig in H. inversion H. subst fig'.
  apply (nearest_within_6dB Hspec).
Qed.

Lemma cutoff_gain_is_within_6dB_of_the_peak_witness :
  exists fig,
    interactivePlot.plot_bode (B := Sim.exact_builtins) roll_off_file = inr fig
    /\ (reference_gain_db fig - 6 <= cutoff_gain_db fig)%Q
    /\ (cutoff_gain_db fig <= reference_gain_db fig)%Q.
Proof.
  eexists.
  match goal with
  | |- ?run = inr ?f /\ _ => assert (Hrun : run = inr f) by (vm_compute; reflexivity)
  end.
  split; [exact Hrun |].
  exact (@cutoff_gain_is_within_6dB_of_the_peak Sim.exact_builtins _ _ Hrun).
Defined.

(** X20: in exact arithmetic the cutoff search does not depend on the
    level of the gains: on data that has a gain, with arrays of one
    length, raising every gain by the same offset leaves the cutoff index
    where it was, and raises the reference gain and the gain at the cutoff
    by that offset. *)
Theorem cutoff_index_ignores_a_gain_offset :
  forall (a : arrays Q) (offset : Q),
    gain_arr a <> [] ->
    List.length (freq_arr a) = List.length (gain_arr a) ->
    List.length (phase_arr a) = List.length (gain_arr a) ->
    exists fig fig',
      interactivePlot.analyse a = inr fig
      /\ interactivePlot.analyse (raised offset a) = inr fig'
      /\ cutoff_index fig' = cutoff_index fig
      /\ (reference_gain_db fig' == reference_gain_db fig + offset)%Q
      /\ (cutoff_gain_db fig' == cutoff_gain_db fig + offset)%Q.
Proof.
  intros a offset Hne Hfr Hph.
  destruct (exact_analyse a Hne Hfr Hph) as (fig & Hfig & _ & Hspec).
  destruct (exact_analyse (raised offset a)) as (fig' & Hfig' & _ & Hspec').
  - cbn [raised gain_arr]. intros E. apply map_eq_nil in E. contradiction.
  - cbn [raised gain_arr freq_arr]. rewrite length_map. exact Hfr.
  - cbn [raised gain_arr phase_arr]. rewrite length_map. exact Hph.
  - exists fig, fig'. split; [exact Hfig |]. split; [exact Hfig' |].
    apply (nearest_raised Hspec Hspec').
Qed.

Lemma cutoff_index_ignores_a_gain_offset_witness :
  gain_arr (roll_off (F := Q)) <> []
  /\ exists fig fig',
       interactivePlot.analyse (roll_off (F := Q)) = inr fig
       /\ interactivePlot.analyse (raised 20 (roll_off (F := Q))) = inr fig'
       /\ cutoff_index fig' = cutoff_index fig
       /\ (reference_gain_db fig' == reference_gain_db fig + 20)%Q
       /\ (cutoff_gain_db fig' == cutoff_gain_db fig + 20)%Q.
Proof.
  assert (Hne : gain_arr (roll_off (F := Q)) <> []) by discriminate.
  split; [exact Hne |].
  exact (@cutoff_index_ignores_a_gain_offset (roll_off (F := Q)) 20%Q Hne eq_refl eq_refl).
Defined.


